(** * doc_assembler_web: the crawling engines, embedded and verified

    Two crawlers live in the repository:
    - [Webcrawler]: packages/webcrawler/src/webcrawler/core/{config,crawler}.py
      (aiohttp based, recursive generator [Crawler.crawl_page]);
    - [McpServer]: packages/mcp_server/src/mcp_server/core/crawler.py
      (Playwright based, work-list loop [PlaywrightCrawler.crawl]).

    Python values are modelled as follows: [str] as [string] (ASCII),
    [int] as [Z], [float] as the kernel's binary64 [float], [set] of
    strings as [gset string], [dict] keyed by strings as [gmap string _],
    [list] as [list], [Optional] as [option].  Code that may raise returns
    a sum or an [option]; calls into libraries that are not part of the
    repository are operations of the class [PyLib] (urllib.parse, [int],
    [float], hashlib, pathlib) and of the environments [Webcrawler.Web]
    (the HTTP session) and [McpServer.Env] (the browser page, the asset
    requests and the file system). *)

From Stdlib Require Import ZArith List String Ascii Bool Lia Floats.
From stdpp Require Import base gmap sets list sorting strings pretty.

Open Scope string_scope.
Open Scope list_scope.
Open Scope Z_scope.

Set Warnings "-clear-no-such-hyp".

(* ================================================================== *)
(** * Python string primitives used by the crawlers *)
(* ================================================================== *)

Module PyStr.

(** [str.lower] on ASCII. *)
Definition lower_ascii (c : ascii) : ascii :=
  let n := nat_of_ascii c in
  if ((65 <=? n) && (n <=? 90))%nat then ascii_of_nat (n + 32) else c.

Fixpoint lower (s : string) : string :=
  match s with
  | EmptyString => EmptyString
  | String c s' => String (lower_ascii c) (lower s')
  end.

(** [s.startswith(p)]. *)
Fixpoint startswith (s p : string) : bool :=
  match p, s with
  | EmptyString, _ => true
  | String _ _, EmptyString => false
  | String a p', String b s' => if Ascii.eqb a b then startswith s' p' else false
  end.

(** [s.endswith(d)]: some tail of [s] is [d]. *)
Fixpoint endswith (s d : string) : bool :=
  if String.eqb s d then true
  else match s with
       | EmptyString => false
       | String _ s' => endswith s' d
       end.

(** [sub in s]. *)
Fixpoint contains (s sub : string) : bool :=
  if startswith s sub then true
  else match s with
       | EmptyString => false
       | String _ s' => contains s' sub
       end.

(** [c in s] for a single character. *)
Fixpoint has_char (c : ascii) (s : string) : bool :=
  match s with
  | EmptyString => false
  | String x s' => if Ascii.eqb x c then true else has_char c s'
  end.

(** Whitespace in the sense of [str.isspace], ASCII range. *)
Definition is_space (c : ascii) : bool :=
  let n := nat_of_ascii c in
  (((9 <=? n) && (n <=? 13)) || ((28 <=? n) && (n <=? 32)))%nat.

Fixpoint lstrip (s : string) : string :=
  match s with
  | EmptyString => EmptyString
  | String c s' => if is_space c then lstrip s' else s
  end.

Fixpoint rstrip (s : string) : string :=
  match s with
  | EmptyString => EmptyString
  | String c s' =>
      match rstrip s' with
      | EmptyString => if is_space c then EmptyString else String c EmptyString
      | r => String c r
      end
  end.

(** [s.strip()]. *)
Definition strip (s : string) : string := rstrip (lstrip s).

(** [s.split(c)] for a one-character separator. *)
Fixpoint split (c : ascii) (s : string) : list string :=
  match s with
  | EmptyString => [EmptyString]
  | String x s' =>
      if Ascii.eqb x c then EmptyString :: split c s'
      else match split c s' with
           | h :: t => String x h :: t
           | [] => [String x EmptyString]
           end
  end.

(** [sep.join(parts)] for a one-character separator. *)
Fixpoint join (c : ascii) (parts : list string) : string :=
  match parts with
  | [] => EmptyString
  | [p] => p
  | p :: rest => p +:+ String c (join c rest)
  end.

(** [s.partition(c)] as the pair (head, tail); the tail is [None] when the
    separator does not occur. [s.split(c, 1)] is [[head; tail]] or [[head]]. *)
Fixpoint partition (c : ascii) (s : string) : string * option string :=
  match s with
  | EmptyString => (EmptyString, None)
  | String x s' =>
      if Ascii.eqb x c then (EmptyString, Some s')
      else let '(h, t) := partition c s' in (String x h, t)
  end.

(** [s.split(c, 1)[1]], for an [s] that is known to contain [c]
    (the empty string stands for the impossible other case). *)
Definition after_first (c : ascii) (s : string) : string :=
  match snd (partition c s) with
  | Some t => t
  | None => EmptyString
  end.

(** Truthiness of a string: [bool(s)]. *)
Definition nonempty (s : string) : bool :=
  match s with EmptyString => false | _ => true end.

End PyStr.

(* ================================================================== *)
(** * Python floats *)
(* ================================================================== *)

Module PyFloat.

(** [float(n)] for a small non-negative [int] (exact below 2^53). *)
Definition of_Z (n : Z) : float := PrimFloat.of_uint63 (Uint63.of_Z n).

(** [a >= b] on floats. *)
Definition ge (a b : float) : bool := PrimFloat.leb b a.

(** [a < b] on floats. *)
Definition lt (a b : float) : bool := PrimFloat.ltb a b.

(** The builtin [min(a, b)]: the first argument unless the second is
    strictly smaller. *)
Definition min (a b : float) : float := if PrimFloat.ltb b a then b else a.

(** The literals [0.7], [0.4], [1.0] and the divisor [3] as binary64. *)
Definition c0_7 : float := 0x1.6666666666666p-1%float.
Definition c0_4 : float := 0x1.999999999999ap-2%float.
Definition c1_0 : float := 1%float.
Definition c3 : float := 3%float.

End PyFloat.

(* ================================================================== *)
(** * Library interface *)
(* ================================================================== *)

Module Urllib.

(** [urllib.parse.ParseResult]. *)
Record ParseResult := {
  scheme : string;
  netloc : string;
  path : string;
  params : string;
  query : string;
  fragment : string
}.

End Urllib.

(** Library calls made by the crawlers.  For the first four [None]
    stands for a raised exception ([ValueError] in all four cases). *)
Class PyLib := {
  (** [urllib.parse.urlparse(url)] *)
  urlparse : string → option Urllib.ParseResult;
  (** [urllib.parse.urljoin(base, url)] *)
  urljoin : string → string → option string;
  (** [float(s)] *)
  float_of_str : string → option float;
  (** [int(s)] *)
  int_of_str : string → option Z;
  (** [hashlib.sha256(s.encode()).hexdigest()] *)
  sha256_hexdigest : string → string;
  (** [Path(s).suffix] *)
  path_suffix : string → string;
  (** pydantic's validation of a string for a field of type [HttpUrl]:
      the message of its error, [None] when the string is accepted.  The
      validated value is a [str] with the text of the string. *)
  http_url_error : string → option string;
  (** [str(e)] for the [ValidationError] of the named model with the
      listed errors, each a location and a message. *)
  validation_error : string → list (string * string) → string
}.

(* ================================================================== *)
(** * webcrawler/core/config.py and webcrawler/core/crawler.py *)
(* ================================================================== *)

Module Webcrawler.

(** [class CrawlerConfig(BaseModel)]: the fields read by the crawl
    (the timing fields only drive [_wait_for_rate_limit]). *)
Record CrawlerConfig := {
  start_url : string;
  max_depth : Z;
  max_pages : Z;
  allowed_domains : list string;
  respect_robots_txt : bool;
  user_agent : string
}.

(** [@dataclass class RobotsConfig]. *)
Record RobotsConfig := {
  allowed_paths : list string;
  disallowed_paths : list string;
  crawl_delay : option float
}.

(** What [session.get(url)] gives: [None] when the request (or reading
    its body) raises, else the status, the text and the [href] values of
    the anchors BeautifulSoup finds in the text, in document order. *)
Record Response := {
  status : Z;
  text : string;
  anchors : list string
}.

(** The network as seen by one run: the answer may depend on how many
    requests were made before. *)
Definition Web := nat → string → option Response.

Inductive Request :=
| ReqRobots (url : string)
| ReqPage (url : string).

(** The mutable attributes of a [Crawler] instance, and the requests it
    has issued so far. *)
Record State := {
  visited_urls : gset string;
  robots_cache : gmap string RobotsConfig;
  requests : list Request
}.

Definition init_state : State :=
  {| visited_urls := ∅; robots_cache := ∅; requests := [] |}.

(** The page URLs among a list of requests. *)
Definition pages_of (rs : list Request) : list string :=
  omap (fun r => match r with ReqPage u => Some u | ReqRobots _ => None end) rs.

(** The page URLs fetched by [crawl_page], oldest first. *)
Definition page_fetches (st : State) : list string := pages_of (requests st).

(** One item produced by the generator; [y_depth] is the depth argument of
    the call that produced it. *)
Record Yield := {
  y_url : string;
  y_content : string;
  y_links : list string;
  y_depth : Z
}.

Inductive Outcome := Returned | Raised.

Section WithLib.
Context `{PyLib}.

(** [CrawlerConfig.is_allowed_domain]. *)
Definition is_allowed_domain (cfg : CrawlerConfig) (url : string) : option bool :=
  match urlparse url with
  | None => None
  | Some parsed =>
      Some (existsb (fun domain => PyStr.endswith (Urllib.netloc parsed) domain)
                    (allowed_domains cfg))
  end.

(** [RobotsConfig.is_allowed]. *)
Definition is_allowed (rc : RobotsConfig) (path : string) : option bool :=
  match urlparse path with
  | None => None
  | Some parsed =>
      let parsed_path := Urllib.path parsed in
      if existsb (fun disallowed => PyStr.startswith parsed_path disallowed)
                 (disallowed_paths rc)
      then Some false
      else match allowed_paths rc with
           | _ :: _ =>
               Some (existsb (fun allowed => PyStr.startswith parsed_path allowed)
                             (allowed_paths rc))
           | [] => Some true
           end
  end.

(** The loop variables of the robots.txt parser. *)
Record RobotsAcc := {
  current_agent : option string;
  acc_allowed : list string;
  acc_disallowed : list string;
  acc_delay : option float
}.

(** [current_agent in ['*', self.config.user_agent]]. *)
Definition agent_selected (cfg : CrawlerConfig) (agent : option string) : bool :=
  match agent with
  | None => false
  | Some a => String.eqb a "*" || String.eqb a (user_agent cfg)
  end.

(** The value after the first colon, stripped. *)
Definition directive_value (line : string) : string :=
  PyStr.strip (PyStr.after_first ":" line).

(** The body of [for line in text.split('\n')]. *)
Definition robots_line (cfg : CrawlerConfig) (acc : RobotsAcc) (raw : string) : RobotsAcc :=
  let line := PyStr.lower (PyStr.strip raw) in
  if negb (PyStr.nonempty line) || PyStr.startswith line "#" then acc
  else if PyStr.startswith line "user-agent:" then
    {| current_agent := Some (directive_value line);
       acc_allowed := acc_allowed acc;
       acc_disallowed := acc_disallowed acc;
       acc_delay := acc_delay acc |}
  else if agent_selected cfg (current_agent acc) then
    if PyStr.startswith line "allow:" then
      {| current_agent := current_agent acc;
         acc_allowed := acc_allowed acc ++ [directive_value line];
         acc_disallowed := acc_disallowed acc;
         acc_delay := acc_delay acc |}
    else if PyStr.startswith line "disallow:" then
      {| current_agent := current_agent acc;
         acc_allowed := acc_allowed acc;
         acc_disallowed := acc_disallowed acc ++ [directive_value line];
         acc_delay := acc_delay acc |}
    else if PyStr.startswith line "crawl-delay:" then
      match float_of_str (directive_value line) with
      | Some d =>
          {| current_agent := current_agent acc;
             acc_allowed := acc_allowed acc;
             acc_disallowed := acc_disallowed acc;
             acc_delay := Some d |}
      | None => acc
      end
    else acc
  else acc.

(** The part of [fetch_robots_txt] inside [try]: what the three local
    lists hold when the block is left, normally or by an exception. *)
Definition robots_rules (cfg : CrawlerConfig) (resp : option Response) : RobotsConfig :=
  let start :=
    {| current_agent := None; acc_allowed := []; acc_disallowed := [];
       acc_delay := None |} in
  let acc :=
    match resp with
    | Some r =>
        if status r =? 200
        then fold_left (robots_line cfg) (PyStr.split "010" (text r)) start
        else start
    | None => start
    end in
  {| allowed_paths := acc_allowed acc;
     disallowed_paths := acc_disallowed acc;
     crawl_delay := acc_delay acc |}.

Definition robots_url (domain : string) : string :=
  "https://" +:+ domain +:+ "/robots.txt".

(** [Crawler.fetch_robots_txt]. *)
Definition fetch_robots_txt (cfg : CrawlerConfig) (web : Web)
    (domain : string) (st : State) : RobotsConfig * State :=
  match robots_cache st !! domain with
  | Some cached => (cached, st)
  | None =>
      let resp := web (length (requests st)) (robots_url domain) in
      let config := robots_rules cfg resp in
      (config,
       {| visited_urls := visited_urls st;
          robots_cache := <[domain := config]> (robots_cache st);
          requests := requests st ++ [ReqRobots (robots_url domain)] |})
  end.

(** [Crawler.normalize_url]; every exception ends in [return None]. *)
Definition normalize_url (cfg : CrawlerConfig) (url base_url : string) : option string :=
  match urljoin base_url url with
  | None => None
  | Some full_url =>
      match urlparse full_url with
      | None => None
      | Some parsed =>
          if negb (PyStr.nonempty (Urllib.scheme parsed)
                   && PyStr.nonempty (Urllib.netloc parsed))
          then None
          else match is_allowed_domain cfg full_url with
               | Some true =>
                   Some (Urllib.scheme parsed +:+ "://" +:+ Urllib.netloc parsed
                         +:+ Urllib.path parsed)
               | Some false => None
               | None => None
               end
      end
  end.

(** The robots.txt check of [crawl_page], which is not inside its [try]:
    the state after it, and [Some proceed] or [None] when [urlparse]
    raised. *)
Definition robots_gate (cfg : CrawlerConfig) (web : Web) (url : string) (st : State)
  : State * option bool :=
  if respect_robots_txt cfg then
    match urlparse url with
    | None => (st, None)
    | Some parsed =>
        let '(robots_config, st1) :=
          fetch_robots_txt cfg web (Urllib.netloc parsed) st in
        (st1, is_allowed robots_config url)
    end
  else (st, Some true).

(** [links]: the anchors that normalise, in document order. *)
Definition extract_links (cfg : CrawlerConfig) (url : string) (hrefs : list string)
  : list string :=
  omap (fun href =>
          match normalize_url cfg href url with
          | Some normalized => if PyStr.nonempty normalized then Some normalized else None
          | None => None
          end) hrefs.

Definition Result : Type := State * list Yield * Outcome.

(** [for link in links: ...] of [crawl_page]; [rec] is the recursive call
    at [depth + 1].  An exception leaving the inner generator is caught
    by the enclosing [except Exception], which ends this call normally.
    [None]: the recursion bound of the model was hit. *)
Fixpoint crawl_links (cfg : CrawlerConfig)
    (rec : string → State → option Result)
    (links : list string) (st : State) (out : list Yield) : option Result :=
  match links with
  | [] => Some (st, out, Returned)
  | link :: rest =>
      if Z.of_nat (size (visited_urls st)) >=? max_pages cfg
      then Some (st, out, Returned)
      else match rec link st with
           | None => None
           | Some (st1, ys, Returned) => crawl_links cfg rec rest st1 (out ++ ys)
           | Some (st1, ys, Raised) => Some (st1, out ++ ys, Returned)
           end
  end.

(** [Crawler.crawl_page] (the session is open).  The recursion is bounded
    by [fuel]; [crawl_page_total] shows that [max_depth - depth + 2] is
    always enough. *)
Fixpoint crawl_page (fuel : nat) (cfg : CrawlerConfig) (web : Web)
    (url : string) (depth : Z) (st : State) : option Result :=
  match fuel with
  | O => None
  | S fuel' =>
      if depth >? max_depth cfg then Some (st, [], Returned)
      else if bool_decide (url ∈ visited_urls st) then Some (st, [], Returned)
      else
        let st0 :=
          {| visited_urls := {[url]} ∪ visited_urls st;
             robots_cache := robots_cache st;
             requests := requests st |} in
        match robots_gate cfg web url st0 with
        | (st1, None) => Some (st1, [], Raised)
        | (st1, Some false) => Some (st1, [], Returned)
        | (st1, Some true) =>
            let resp := web (length (requests st1)) url in
            let st2 :=
              {| visited_urls := visited_urls st1;
                 robots_cache := robots_cache st1;
                 requests := requests st1 ++ [ReqPage url] |} in
            match resp with
            | None => Some (st2, [], Returned)
            | Some r =>
                if negb (status r =? 200) then Some (st2, [], Returned)
                else
                  let links := extract_links cfg url (anchors r) in
                  let y := {| y_url := url; y_content := text r;
                              y_links := links; y_depth := depth |} in
                  crawl_links cfg
                    (fun link s => crawl_page fuel' cfg web link (depth + 1) s)
                    links st2 [y]
            end
        end
  end.

(** Enough fuel for a call at [depth]. *)
Definition fuel_for (cfg : CrawlerConfig) (depth : Z) : nat :=
  S (Z.to_nat (max_depth cfg + 1 - depth)).

(** [Crawler.crawl]: [crawl_page(self.config.start_url)] on a fresh
    instance. *)
Definition crawl (cfg : CrawlerConfig) (web : Web) : option Result :=
  crawl_page (fuel_for cfg 0) cfg web (start_url cfg) 0 init_state.

(** [CrawlerConfig.validate_start_url]; [None] is the [ValueError]. *)
Definition validate_start_url (v : string) : option string :=
  match urlparse v with
  | None => None
  | Some parsed =>
      if PyStr.nonempty (Urllib.scheme parsed) && PyStr.nonempty (Urllib.netloc parsed)
      then Some v
      else None
  end.

(** [CrawlerConfig.set_default_domain]; [start] is [values["start_url"]],
    present when the start URL passed its validator. *)
Definition set_default_domain (v : list string) (start : option string)
  : option (list string) :=
  match v, start with
  | [], Some start_url =>
      match urlparse start_url with
      | Some parsed => Some [Urllib.netloc parsed]
      | None => None
      end
  | _, _ => Some v
  end.

(** [CrawlerConfig(start_url=..., ...)]: the two validators in the order
    of the fields; [None] is the [ValidationError]. *)
Definition new_config (start_url : string) (max_depth max_pages : Z)
    (allowed_domains : list string) (respect_robots_txt : bool) (user_agent : string)
  : option CrawlerConfig :=
  match validate_start_url start_url with
  | None => None
  | Some start =>
      match set_default_domain allowed_domains (Some start) with
      | None => None
      | Some domains =>
          Some {| Webcrawler.start_url := start;
                  Webcrawler.max_depth := max_depth;
                  Webcrawler.max_pages := max_pages;
                  Webcrawler.allowed_domains := domains;
                  Webcrawler.respect_robots_txt := respect_robots_txt;
                  Webcrawler.user_agent := user_agent |}
      end
  end.

End WithLib.

End Webcrawler.

(* ================================================================== *)
(** * mcp_server/core/crawler.py *)
(* ================================================================== *)

Module McpServer.

(** [class ContentType(BaseModel)]. *)
Record ContentType := {
  type : string;
  confidence : float;
  features : list string
}.

(** The dictionary returned by [_extract_content]. *)
Record Content := {
  title : string;
  text : string;
  html : string;
  metadata : list (string * string);
  links : list string
}.

(** [re.search(r'/(docs|documentation|wiki|guide|manual)/', url, re.I)]. *)
Definition url_pattern (url : string) : bool :=
  let u := PyStr.lower url in
  existsb (fun w => PyStr.contains u ("/" +:+ w +:+ "/"))
          ["docs"; "documentation"; "wiki"; "guide"; "manual"].

(** [any(key for key in metadata if "documentation" in key.lower())]. *)
Definition metadata_tag (md : list (string * string)) : bool :=
  existsb (fun key => PyStr.nonempty key)
          (filter (fun key => PyStr.contains (PyStr.lower key) "documentation")
                  (map fst md)).

Definition markers : list string :=
  ["installation"; "getting started"; "api reference"; "usage"; "example"].

(** [any(marker in text for marker in markers)], [text] lower-cased. *)
Definition content_markers (txt : string) : bool :=
  let t := PyStr.lower txt in
  existsb (fun marker => PyStr.contains t marker) markers.

(** [features.append(name)] guarded by a test. *)
Definition append_if (b : bool) (name : string) (fs : list string) : list string :=
  if b then fs ++ [name] else fs.

(** [PlaywrightCrawler._classify_content]; [page_url] is [self.page.url]. *)
Definition _classify_content (page_url : string) (content : Content) : ContentType :=
  let features := [] in
  let features := append_if (url_pattern page_url) "url_pattern" features in
  let features := append_if (metadata_tag (metadata content)) "metadata_tag" features in
  let features := append_if (content_markers (text content)) "content_markers" features in
  let confidence :=
    PyFloat.min (PrimFloat.div (PyFloat.of_Z (Z.of_nat (length features))) PyFloat.c3)
                PyFloat.c1_0 in
  let doc_type :=
    if PyFloat.ge confidence PyFloat.c0_7 then "documentation"
    else if PyFloat.ge confidence PyFloat.c0_4 then "guide"
    else "unknown" in
  {| type := doc_type; confidence := confidence; features := features |}.

(** [class CrawlerConfig(BaseModel)] of the Playwright crawler: the fields
    read by the crawl ([rate_limit], [timeout] and [user_agent] only drive
    timing and the browser set-up). *)
Record CrawlerConfig := {
  start_url : string;
  max_depth : Z;
  max_pages : Z;
  content_types : list string;
  respect_robots : bool;
  retry_attempts : Z;
  retry_delay : float;
  download_assets : bool;
  asset_types : list string;
  max_asset_size : Z
}.

(** [class Asset(BaseModel)]. *)
Record Asset := {
  a_url : string;
  file_type : string;
  a_content_type : string;
  a_size : Z;
  local_path : option string;
  downloaded : bool;
  error : option string
}.

(** [class ContentExtraction(BaseModel)], without the time stamp. *)
Record ContentExtraction := {
  ce_url : string;
  ce_title : string;
  ce_content : string;
  ce_html : option string;
  ce_content_type : ContentType;
  ce_metadata : list (string * string);
  ce_links : list string;
  ce_assets : list Asset
}.

(** What one navigation ([page.goto] and [wait_for_load_state]) followed by
    the page evaluations gives: an exception with its message; a page on
    which [_extract_content] returns [None]; or the final URL of the page,
    the extracted dictionary, and the [src]/[href] values of the
    [img[src], a[href], link[href]] elements ([None] when that evaluation
    raises). *)
Inductive PageLoad :=
| LoadRaises (msg : string)
| LoadNoContent
| LoadPage (page_url : string) (content : Content) (dom_refs : option (list string)).

(** [session.head(url)]: an exception, or the two headers read. *)
Inductive HeadOutcome :=
| HeadRaises (msg : string)
| HeadOk (content_type_hdr content_length_hdr : option string).

(** [session.get(url)]: an exception, or the status and what
    [response.read()] gives (the bytes, or the message of its exception). *)
Inductive GetOutcome :=
| GetRaises (msg : string)
| GetOk (status : Z) (body : string + string).

(** The browser, the network and the file system as seen by one run; the
    first argument is the number of interactions made before.  For the
    two file operations [Some msg] is a raised exception. *)
Record Env := {
  goto : nat → string → PageLoad;
  asset_head : nat → string → HeadOutcome;
  asset_get : nat → string → GetOutcome;
  file_open : nat → string → option string;
  file_write : nat → string → string → option string;
  asset_dir : string
}.

Inductive Event :=
| EvGoto (url : string)
| EvSleep (seconds : float)
| EvHead (url : string)
| EvGet (url : string)
| EvOpen (path : string)
| EvWrite (path : string) (body : string).

(** The mutable attributes of a [PlaywrightCrawler], the files under
    [asset_dir], and the interactions so far. *)
Record State := {
  visited_urls : gset string;
  storage : gmap string string;
  trace : list Event
}.

Definition init_state : State :=
  {| visited_urls := ∅; storage := ∅; trace := [] |}.

Definition log (e : Event) (st : State) : State :=
  {| visited_urls := visited_urls st; storage := storage st;
     trace := trace st ++ [e] |}.

Definition store (path body : string) (st : State) : State :=
  {| visited_urls := visited_urls st;
     storage := <[path := body]> (storage st);
     trace := trace st |}.

Definition mark_visited (url : string) (st : State) : State :=
  {| visited_urls := {[url]} ∪ visited_urls st;
     storage := storage st; trace := trace st |}.

Definition goto_of (e : Event) : option string :=
  match e with EvGoto u => Some u | _ => None end.

Definition sleep_of (e : Event) : option float :=
  match e with EvSleep d => Some d | _ => None end.

(** The URLs navigated to, oldest first. *)
Definition gotos (st : State) : list string := omap goto_of (trace st).

(** The pauses taken, oldest first. *)
Definition sleeps (st : State) : list float := omap sleep_of (trace st).

(** A call that returns a value or raises. *)
Inductive Raises (A : Type) :=
| Return (a : A)
| Raise (msg : string).
Arguments Return {A} a.
Arguments Raise {A} msg.

Section WithLib.
Context `{PyLib}.

(** [str(e)] for the [ValueError] of [int(s)]. *)
Definition int_error (s : string) : string :=
  "invalid literal for int() with base 10: '" +:+ s +:+ "'".

(** [Asset(url=..., ...)]: pydantic validates the fields; [url: HttpUrl]
    is the one that can fail, the others have the type of their field. *)
Definition new_asset (a : Asset) : Raises Asset :=
  match http_url_error (a_url a) with
  | None => Return a
  | Some e => Raise (validation_error "Asset" [("url", e)])
  end.

(** The [Asset] built in the [except] clause of [_download_asset]. *)
Definition failed_asset (url msg : string) : Raises Asset :=
  new_asset {| a_url := url; file_type := path_suffix url; a_content_type := "unknown";
               a_size := 0; local_path := None; downloaded := false;
               error := Some msg |}.

(** [except Exception as e: return Asset(...)] for an exception with
    message [msg]: what the clause returns, or the exception that leaves
    the function when its own [Asset] is not valid. *)
Definition except_clause (url msg : string) : Raises (option Asset) :=
  match failed_asset url msg with
  | Return a => Return (Some a)
  | Raise m => Raise m
  end.

(** [return Asset(...)] inside the [try] block. *)
Definition return_asset (url : string) (a : Asset) : Raises (option Asset) :=
  match new_asset a with
  | Return a' => Return (Some a')
  | Raise m => except_clause url m
  end.

(** [int(response.headers.get("content-length", 0))]: the size, or the
    message of the [ValueError]. *)
Definition content_length (hdr : option string) : Z + string :=
  match hdr with
  | Some s =>
      match int_of_str s with
      | Some n => inl n
      | None => inr (int_error s)
      end
  | None => inl 0
  end.

(** [PlaywrightCrawler._download_asset]. *)
Definition _download_asset (cfg : CrawlerConfig) (env : Env) (url : string) (st : State)
  : State * Raises (option Asset) :=
  let st1 := log (EvHead url) st in
  match asset_head env (length (trace st)) url with
  | HeadRaises msg => (st1, except_clause url msg)
  | HeadOk ct cl =>
      let content_type := default "" ct in
      match content_length cl with
      | inr msg => (st1, except_clause url msg)
      | inl size =>
          if size >? max_asset_size cfg then
            (st1,
             return_asset url
               {| a_url := url; file_type := path_suffix url;
                  a_content_type := content_type; a_size := size;
                  local_path := None; downloaded := false;
                  error := Some "File too large" |})
          else
            let st2 := log (EvGet url) st1 in
            match asset_get env (length (trace st1)) url with
            | GetRaises msg => (st2, except_clause url msg)
            | GetOk status body =>
                if status =? 200 then
                  let file_name := sha256_hexdigest url +:+ path_suffix url in
                  let file_path := asset_dir env +:+ "/" +:+ file_name in
                  let st3 := log (EvOpen file_path) st2 in
                  match file_open env (length (trace st2)) file_path with
                  | Some msg => (st3, except_clause url msg)
                  | None =>
                      let st4 := store file_path "" st3 in
                      match body with
                      | inr msg => (st4, except_clause url msg)
                      | inl bytes =>
                          let st5 := log (EvWrite file_path bytes) st4 in
                          match file_write env (length (trace st4)) file_path bytes with
                          | Some msg => (st5, except_clause url msg)
                          | None =>
                              (store file_path bytes st5,
                               return_asset url
                                 {| a_url := url; file_type := path_suffix url;
                                    a_content_type := content_type; a_size := size;
                                    local_path := Some file_path;
                                    downloaded := true; error := None |})
                          end
                      end
                  end
                else (st2, Return None)
            end
      end
  end.

(** The filter of the script evaluated by [_process_assets]. *)
Definition asset_candidate (cfg : CrawlerConfig) (url : string) : bool :=
  PyStr.nonempty url && PyStr.startswith url "http"
  && existsb (fun ty => PyStr.endswith (PyStr.lower url) ty) (asset_types cfg).

(** [for url in asset_urls: ...] of [_process_assets]; an exception of
    [_download_asset] is logged and the loop goes on. *)
Fixpoint download_all (cfg : CrawlerConfig) (env : Env) (urls : list string)
    (st : State) (assets : list Asset) : State * list Asset :=
  match urls with
  | [] => (st, assets)
  | url :: rest =>
      match _download_asset cfg env url st with
      | (st1, Return (Some asset)) => download_all cfg env rest st1 (assets ++ [asset])
      | (st1, Return None) => download_all cfg env rest st1 assets
      | (st1, Raise _) => download_all cfg env rest st1 assets
      end
  end.

(** [PlaywrightCrawler._process_assets]. *)
Definition _process_assets (cfg : CrawlerConfig) (env : Env)
    (dom_refs : option (list string)) (st : State) : State * list Asset :=
  match dom_refs with
  | None => (st, [])
  | Some refs => download_all cfg env (filter (asset_candidate cfg) refs) st []
  end.

(** The errors of the two [HttpUrl] fields of a [ContentExtraction]:
    [url] and the elements of [links], located by their index. *)
Definition extraction_errors (url : string) (links : list string)
  : list (string * string) :=
  match http_url_error url with
  | Some e => [("url", e)]
  | None => []
  end
  ++ omap (fun il : nat * string =>
             match http_url_error (snd il) with
             | Some e => Some ("links -> " +:+ pretty (fst il), e)
             | None => None
             end)
          (imap pair links).

(** [ContentExtraction(url=..., ...)]: pydantic validates the fields;
    [url: HttpUrl] and [links: List[HttpUrl]] are the ones that can
    fail. *)
Definition new_extraction (c : ContentExtraction) : Raises ContentExtraction :=
  match extraction_errors (ce_url c) (ce_links c) with
  | [] => Return c
  | errors => Raise (validation_error "ContentExtraction" errors)
  end.

(** [for attempt in range(self.config.retry_attempts)] of [_process_url],
    from [attempt] on, with [n] iterations left.  The [try] block covers
    the construction of the result, after [visited_urls.add(url)]. *)
Fixpoint attempts (cfg : CrawlerConfig) (env : Env) (n : nat) (attempt : Z)
    (url : string) (st : State) : State * Raises (option ContentExtraction) :=
  match n with
  | O => (st, Return None)
  | S n' =>
      let st1 := log (EvGoto url) st in
      match goto env (length (trace st)) url with
      | LoadRaises msg =>
          if attempt =? retry_attempts cfg - 1 then (st1, Raise msg)
          else
            let pause := PrimFloat.mul (retry_delay cfg) (PyFloat.of_Z (attempt + 1)) in
            attempts cfg env n' (attempt + 1) url (log (EvSleep pause) st1)
      | LoadNoContent => (st1, Return None)
      | LoadPage page_url content dom_refs =>
          let content_type := _classify_content page_url content in
          if negb (existsb (String.eqb (type content_type)) (content_types cfg))
          then (st1, Return None)
          else
            let '(st2, assets) :=
              if download_assets cfg then _process_assets cfg env dom_refs st1
              else (st1, []) in
            let st3 := mark_visited url st2 in
            match new_extraction {| ce_url := url;
                                    ce_title := title content;
                                    ce_content := text content;
                                    ce_html := Some (html content);
                                    ce_content_type := content_type;
                                    ce_metadata := metadata content;
                                    ce_links := links content;
                                    ce_assets := assets |} with
            | Return extraction => (st3, Return (Some extraction))
            | Raise msg =>
                if attempt =? retry_attempts cfg - 1 then (st3, Raise msg)
                else
                  let pause :=
                    PrimFloat.mul (retry_delay cfg) (PyFloat.of_Z (attempt + 1)) in
                  attempts cfg env n' (attempt + 1) url (log (EvSleep pause) st3)
            end
      end
  end.

(** [PlaywrightCrawler._process_url]. *)
Definition _process_url (cfg : CrawlerConfig) (env : Env) (url : string) (depth : Z)
    (st : State) : State * Raises (option ContentExtraction) :=
  attempts cfg env (Z.to_nat (retry_attempts cfg)) 0 url st.

(** [PlaywrightCrawler._is_allowed_by_robots]. *)
Definition _is_allowed_by_robots (cfg : CrawlerConfig) (url : string) : bool :=
  if negb (respect_robots cfg) then true
  else true.

(** [for url in urls: ...] of [_filter_urls]; [None] when [urlparse]
    raises. *)
Fixpoint filter_loop (base_domain : string) (visited : gset string)
    (urls : list string) (filtered : list string) : option (list string) :=
  match urls with
  | [] => Some filtered
  | url :: rest =>
      match urlparse url with
      | None => None
      | Some parsed =>
          if String.eqb (Urllib.netloc parsed) base_domain
             && negb (bool_decide (url ∈ visited))
             && negb (existsb (String.eqb url) filtered)
          then filter_loop base_domain visited rest (filtered ++ [url])
          else filter_loop base_domain visited rest filtered
      end
  end.

(** [PlaywrightCrawler._filter_urls]. *)
Definition _filter_urls (cfg : CrawlerConfig) (st : State) (urls : list string)
  : option (list string) :=
  match urlparse (start_url cfg) with
  | None => None
  | Some parsed => filter_loop (Urllib.netloc parsed) (visited_urls st) urls []
  end.

(** The variables of [crawl]: the work list, the results (each with the
    depth it was crawled at), the instance state, and the entries taken
    off the work list so far. *)
Record Loop := {
  queue : list (string * Z);
  results : list (ContentExtraction * Z);
  st : State;
  popped : list (string * Z)
}.

Definition init_loop (cfg : CrawlerConfig) : Loop :=
  {| queue := [(start_url cfg, 0)]; results := []; st := init_state; popped := [] |}.

(** One iteration of [while queue and len(self.visited_urls) < max_pages];
    [None] when the loop condition is false.  [_respect_rate_limit] only
    sleeps and has no effect on the variables modelled. *)
Definition step (cfg : CrawlerConfig) (env : Env) (s : Loop) : option Loop :=
  match queue s with
  | [] => None
  | (url, depth) :: rest =>
      if negb (Z.of_nat (size (visited_urls (st s))) <? max_pages cfg) then None
      else
        let taken := popped s ++ [(url, depth)] in
        let continue_with (st' : State) :=
          {| queue := rest; results := results s; st := st'; popped := taken |} in
        if (depth >? max_depth cfg) || bool_decide (url ∈ visited_urls (st s))
        then Some (continue_with (st s))
        else if negb (_is_allowed_by_robots cfg url)
        then Some (continue_with (st s))
        else
          match _process_url cfg env url depth (st s) with
          | (st1, Raise _) => Some (continue_with st1)
          | (st1, Return None) => Some (continue_with st1)
          | (st1, Return (Some content)) =>
              let results1 := results s ++ [(content, depth)] in
              if depth <? max_depth cfg then
                match _filter_urls cfg st1 (ce_links content) with
                | None =>
                    Some {| queue := rest; results := results1; st := st1;
                            popped := taken |}
                | Some new_urls =>
                    Some {| queue := rest ++ map (fun u => (u, depth + 1)) new_urls;
                            results := results1; st := st1; popped := taken |}
                end
              else
                Some {| queue := rest; results := results1; st := st1;
                        popped := taken |}
          end
  end.

(** The [while] loop, at most [fuel] iterations; [None] when more are
    needed ([crawl_terminates] shows that some [fuel] is always enough). *)
Fixpoint run (cfg : CrawlerConfig) (env : Env) (fuel : nat) (s : Loop) : option Loop :=
  match step cfg env s with
  | None => Some s
  | Some s' =>
      match fuel with
      | O => None
      | S fuel' => run cfg env fuel' s'
      end
  end.

(** [PlaywrightCrawler.crawl] (the page is set up). *)
Definition crawl (cfg : CrawlerConfig) (env : Env) (fuel : nat)
  : option (list ContentExtraction) :=
  match run cfg env fuel (init_loop cfg) with
  | Some s => Some (map fst (results s))
  | None => None
  end.

(** The states the loop goes through. *)
Inductive reachable (cfg : CrawlerConfig) (env : Env) : Loop → Prop :=
| reach_init : reachable cfg env (init_loop cfg)
| reach_step s s' :
    reachable cfg env s → step cfg env s = Some s' → reachable cfg env s'.

(** What [_handle_request] does with a route. *)
Inductive RouteAction := Abort | Continue.

(** [PlaywrightCrawler._handle_request] on the URL of the request. *)
Definition _handle_request (cfg : CrawlerConfig) (url : string) : RouteAction :=
  if negb (_is_allowed_by_robots cfg url) then Abort else Continue.

(** [PlaywrightCrawler._handle_response]: the pause it takes, if any. *)
Definition _handle_response (cfg : CrawlerConfig) (status : Z) : option float :=
  if status =? 429 then Some (PrimFloat.mul (retry_delay cfg) (PyFloat.of_Z 2))
  else None.

End WithLib.

End McpServer.

(* ================================================================== *)
(** * A model of the library calls *)
(* ================================================================== *)

(** An executable instance of [PyLib], written after CPython 3.11's
    [urllib/parse.py] on ASCII strings.  It is used to run the crawlers on
    concrete sites and to show that the library contract assumed by
    [normalize_url_idempotent] can be met.  Not modelled: validation of
    a bracketed IP literal in the host (any host with both brackets is
    accepted). *)
Module UrllibModel.

Definition uses_relative : list string :=
  [""; "ftp"; "http"; "gopher"; "nntp"; "imap"; "wais"; "file"; "https";
   "shttp"; "mms"; "prospero"; "rtsp"; "rtspu"; "sftp"; "svn"; "svn+ssh";
   "ws"; "wss"].

Definition uses_netloc : list string :=
  [""; "ftp"; "http"; "gopher"; "nntp"; "telnet"; "imap"; "wais"; "file";
   "mms"; "https"; "shttp"; "snews"; "prospero"; "rtsp"; "rtspu"; "rsync";
   "svn"; "svn+ssh"; "sftp"; "nfs"; "git"; "git+ssh"; "ws"; "wss"].

Definition uses_params : list string :=
  [""; "ftp"; "hdl"; "prospero"; "http"; "imap"; "https"; "shttp"; "rtsp";
   "rtspu"; "sip"; "sips"; "mms"; "sftp"; "tel"].

Definition mem (s : string) (l : list string) : bool := existsb (String.eqb s) l.

Definition is_alpha (c : ascii) : bool :=
  let n := nat_of_ascii c in
  (((65 <=? n) && (n <=? 90)) || ((97 <=? n) && (n <=? 122)))%nat.

Definition is_digit (c : ascii) : bool :=
  let n := nat_of_ascii c in ((48 <=? n) && (n <=? 57))%nat.

(** [c in scheme_chars]. *)
Definition scheme_char (c : ascii) : bool :=
  is_alpha c || is_digit c || Ascii.eqb c "+" || Ascii.eqb c "-" || Ascii.eqb c ".".

Fixpoint all_chars (P : ascii → bool) (s : string) : bool :=
  match s with
  | EmptyString => true
  | String c s' => P c && all_chars P s'
  end.

(** [c in _WHATWG_C0_CONTROL_OR_SPACE]. *)
Definition c0_or_space (c : ascii) : bool := (nat_of_ascii c <=? 32)%nat.

Fixpoint lstrip_c0 (s : string) : string :=
  match s with
  | EmptyString => EmptyString
  | String c s' => if c0_or_space c then lstrip_c0 s' else s
  end.

(** [c in _UNSAFE_URL_BYTES_TO_REMOVE]. *)
Definition unsafe (c : ascii) : bool :=
  Ascii.eqb c "009" || Ascii.eqb c "013" || Ascii.eqb c "010".

Fixpoint remove_unsafe (s : string) : string :=
  match s with
  | EmptyString => EmptyString
  | String c s' => if unsafe c then remove_unsafe s' else String c (remove_unsafe s')
  end.

Definition sanitize (url : string) : string := remove_unsafe (lstrip_c0 url).

(** The scheme test of [urlsplit]: (scheme, rest). *)
Definition split_scheme (default url : string) : string * string :=
  match PyStr.partition ":" url with
  | (String c head, Some rest) =>
      if is_alpha c && all_chars scheme_char (String c head)
      then (PyStr.lower (String c head), rest)
      else (default, url)
  | _ => (default, url)
  end.

Definition is_delim (c : ascii) : bool :=
  Ascii.eqb c "/" || Ascii.eqb c "?" || Ascii.eqb c "#".

(** The longest prefix without a character satisfying [P], and the rest. *)
Fixpoint span_until (P : ascii → bool) (s : string) : string * string :=
  match s with
  | EmptyString => (EmptyString, EmptyString)
  | String c s' =>
      if P c then (EmptyString, s)
      else let '(h, t) := span_until P s' in (String c h, t)
  end.

(** [url[2:]]. *)
Definition drop2 (url : string) : string :=
  match url with
  | String _ (String _ rest) => rest
  | _ => EmptyString
  end.

(** [if url[:2] == '//': netloc, url = _splitnetloc(url, 2)]. *)
Definition split_netloc (url : string) : string * string :=
  if PyStr.startswith url "//" then span_until is_delim (drop2 url)
  else (EmptyString, url).

(** The bracket test of [urlsplit] that raises "Invalid IPv6 URL". *)
Definition brackets_mismatch (netloc : string) : bool :=
  xorb (PyStr.has_char "[" netloc) (PyStr.has_char "]" netloc).

(** [url.split(c, 1)] when [c in url], else [(url, "")]. *)
Definition cut (c : ascii) (url : string) : string * string :=
  match PyStr.partition c url with
  | (h, Some t) => (h, t)
  | (h, None) => (h, EmptyString)
  end.

(** [urlsplit(url, scheme)] as (scheme, netloc, path, query, fragment). *)
Definition urlsplit (default url : string)
  : option (string * string * string * string * string) :=
  let url := sanitize url in
  let default := remove_unsafe (PyStr.rstrip (lstrip_c0 default)) in
  let '(scheme, url) := split_scheme default url in
  let '(netloc, url) := split_netloc url in
  if brackets_mismatch netloc then None
  else
    let '(url, fragment) := cut "#" url in
    let '(url, query) := cut "?" url in
    Some (scheme, netloc, url, query, fragment).

(** The text through the last ['/'] and the text after it. *)
Fixpoint rsplit_slash (s : string) : string * string :=
  match s with
  | EmptyString => (EmptyString, EmptyString)
  | String c s' =>
      match rsplit_slash s' with
      | (EmptyString, l) =>
          if Ascii.eqb c "/" then (String c EmptyString, l)
          else (EmptyString, String c l)
      | (d, l) => (String c d, l)
      end
  end.

(** [_splitparams]. *)
Definition _splitparams (url : string) : string * string :=
  let '(dir, last) := rsplit_slash url in
  match PyStr.partition ";" last with
  | (h, Some t) => (dir +:+ h, t)
  | (_, None) => (url, EmptyString)
  end.

(** [urlparse(url, scheme)]. *)
Definition urlparse_with (default url : string) : option Urllib.ParseResult :=
  match urlsplit default url with
  | None => None
  | Some (scheme, netloc, url, query, fragment) =>
      let '(url, params) :=
        if mem scheme uses_params && PyStr.has_char ";" url
        then _splitparams url
        else (url, EmptyString) in
      Some {| Urllib.scheme := scheme; Urllib.netloc := netloc; Urllib.path := url;
              Urllib.params := params; Urllib.query := query;
              Urllib.fragment := fragment |}
  end.

Definition urlparse (url : string) : option Urllib.ParseResult :=
  urlparse_with EmptyString url.

(** [urlunsplit]. *)
Definition urlunsplit (scheme netloc url query fragment : string) : string :=
  let url :=
    if PyStr.nonempty netloc
       || (PyStr.nonempty scheme && mem scheme uses_netloc
           && negb (PyStr.startswith url "//"))
    then
      let url :=
        if PyStr.nonempty url && negb (PyStr.startswith url "/")
        then "/" +:+ url else url in
      "//" +:+ netloc +:+ url
    else url in
  let url := if PyStr.nonempty scheme then scheme +:+ ":" +:+ url else url in
  let url := if PyStr.nonempty query then url +:+ "?" +:+ query else url in
  let url := if PyStr.nonempty fragment then url +:+ "#" +:+ fragment else url in
  url.

(** [urlunparse]. *)
Definition urlunparse (scheme netloc url params query fragment : string) : string :=
  let url := if PyStr.nonempty params then url +:+ ";" +:+ params else url in
  urlunsplit scheme netloc url query fragment.

(** [base_parts = bpath.split('/')] without a last item that is not [""]. *)
Definition base_parts (bpath : string) : list string :=
  let parts := PyStr.split "/" bpath in
  match last parts with
  | Some EmptyString => parts
  | _ => removelast parts
  end.

(** [segments[1:-1] = filter(None, segments[1:-1])]. *)
Definition drop_empty_inner (segments : list string) : list string :=
  match segments with
  | [] => []
  | first :: rest =>
      match last rest with
      | None => [first]
      | Some final => first :: filter PyStr.nonempty (removelast rest) ++ [final]
      end
  end.

(** The loop of [urljoin] that removes dot segments. *)
Fixpoint resolve (segments resolved_path : list string) : list string :=
  match segments with
  | [] => resolved_path
  | seg :: rest =>
      if String.eqb seg ".." then resolve rest (removelast resolved_path)
      else if String.eqb seg "." then resolve rest resolved_path
      else resolve rest (resolved_path ++ [seg])
  end.

(** [urljoin(base, url)]. *)
Definition urljoin (base url : string) : option string :=
  if negb (PyStr.nonempty base) then Some url
  else if negb (PyStr.nonempty url) then Some base
  else
    match urlparse_with EmptyString base with
    | None => None
    | Some b =>
        match urlparse_with (Urllib.scheme b) url with
        | None => None
        | Some u =>
            let scheme := Urllib.scheme u in
            if negb (String.eqb scheme (Urllib.scheme b)) || negb (mem scheme uses_relative)
            then Some url
            else if mem scheme uses_netloc && PyStr.nonempty (Urllib.netloc u)
            then Some (urlunparse scheme (Urllib.netloc u) (Urllib.path u)
                         (Urllib.params u) (Urllib.query u) (Urllib.fragment u))
            else
              let netloc :=
                if mem scheme uses_netloc then Urllib.netloc b else Urllib.netloc u in
              if negb (PyStr.nonempty (Urllib.path u))
                 && negb (PyStr.nonempty (Urllib.params u))
              then
                let query :=
                  if PyStr.nonempty (Urllib.query u) then Urllib.query u
                  else Urllib.query b in
                Some (urlunparse scheme netloc (Urllib.path b) (Urllib.params b)
                        query (Urllib.fragment u))
              else
                let segments :=
                  if PyStr.startswith (Urllib.path u) "/"
                  then PyStr.split "/" (Urllib.path u)
                  else drop_empty_inner
                         (base_parts (Urllib.path b) ++ PyStr.split "/" (Urllib.path u)) in
                let resolved_path := resolve segments [] in
                let resolved_path :=
                  match last segments with
                  | Some seg =>
                      if String.eqb seg "." || String.eqb seg ".."
                      then resolved_path ++ [EmptyString] else resolved_path
                  | None => resolved_path
                  end in
                let joined := PyStr.join "/" resolved_path in
                Some (urlunparse scheme netloc
                        (if PyStr.nonempty joined then joined else "/")
                        (Urllib.params u) (Urllib.query u) (Urllib.fragment u))
        end
    end.

(** [int(s)] for an optional sign and decimal digits between white
    space; other literals are taken to be invalid. *)
Fixpoint digits_value (s : string) (acc : Z) : option Z :=
  match s with
  | EmptyString => Some acc
  | String c s' =>
      if is_digit c
      then digits_value s' (10 * acc + Z.of_nat (nat_of_ascii c - 48))
      else None
  end.

Definition int_of_str (s : string) : option Z :=
  match PyStr.strip s with
  | EmptyString => None
  | String "-" (String c d) => option_map Z.opp (digits_value (String c d) 0)
  | String "+" (String c d) => digits_value (String c d) 0
  | d => if all_chars is_digit d then digits_value d 0 else None
  end.

(** [float(s)] for an unsigned decimal with at most 15 digits, which the
    correctly rounded quotient of two exact floats gives exactly; other
    literals are taken to be invalid. *)
Definition float_of_str (s : string) : option float :=
  let '(whole, frac) := cut "." (PyStr.strip s) in
  let ds := whole +:+ frac in
  if PyStr.nonempty ds && (String.length ds <=? 15)%nat && all_chars is_digit ds then
    match digits_value ds 0 with
    | Some n =>
        Some (PrimFloat.div (PyFloat.of_Z n)
                (PyFloat.of_Z (10 ^ Z.of_nat (String.length frac))))
    | None => None
    end
  else None.

(** [Path(s).suffix]: from the last dot of the final component, unless
    that dot is its first or last character. *)
Fixpoint rsplit_dot (s : string) : option (string * string) :=
  match s with
  | EmptyString => None
  | String c s' =>
      match rsplit_dot s' with
      | Some (stem, ext) => Some (String c stem, ext)
      | None => if Ascii.eqb c "." then Some (EmptyString, s') else None
      end
  end.

Definition path_suffix (s : string) : string :=
  let '(_, name) := rsplit_slash s in
  match rsplit_dot name with
  | Some (String _ _, String c ext) => "." +:+ String c ext
  | _ => EmptyString
  end.

(** A stand-in for the digest: only its being a function matters here. *)
Definition sha256_hexdigest (s : string) : string := "sha256:" +:+ s.

Definition name_char (c : ascii) : bool :=
  is_alpha c || is_digit c || Ascii.eqb c "-" || Ascii.eqb c "_".

(** The labels of a host name, the last one a top-level domain of at
    least two letters. *)
Fixpoint host_labels (labels : list string) : bool :=
  match labels with
  | [] => false
  | [tld] => (2 <=? String.length tld)%nat && all_chars is_alpha tld
  | label :: rest =>
      PyStr.nonempty label && all_chars name_char label && host_labels rest
  end.

(** A stand-in for pydantic 1.x's [HttpUrl] on ASCII URLs with a host
    name: at most 2083 characters; the scheme [http] or [https] before
    [://]; a host of at least two labels that ends with a top-level
    domain; an optional numeric port.  Not modelled: surrounding white
    space, user information, IP literals, international names, the
    length of a label and the range of the port. *)
Definition http_url_error (s : string) : option string :=
  if (2083 <? String.length s)%nat
  then Some "ensure this value has at most 2083 characters"
  else
    match PyStr.partition ":" s with
    | (String c head, Some rest) =>
        if is_alpha c && all_chars scheme_char (String c head)
           && PyStr.startswith rest "//"
        then
          if mem (PyStr.lower (String c head)) ["http"; "https"] then
            let '(authority, _) := span_until is_delim (drop2 rest) in
            let '(host, port) := cut ":" authority in
            if negb (all_chars is_digit port) then Some "URL port invalid, port cannot exceed 65535"
            else
              match PyStr.split "." host with
              | [_] => if PyStr.nonempty host
                       then Some "URL host invalid, top level domain required"
                       else Some "URL host invalid"
              | labels => if host_labels labels then None else Some "URL host invalid"
              end
          else Some "URL scheme not permitted"
        else Some "invalid or missing URL scheme"
    | _ => Some "invalid or missing URL scheme"
    end.

(** A stand-in for the text of a [ValidationError]: the number of
    errors, the model, and each location with its message. *)
Definition validation_error (model : string) (errors : list (string * string)) : string :=
  pretty (length errors) +:+ " validation error for " +:+ model
  +:+ fold_right (fun e acc =>
                    String "010" (fst e +:+ String "010" ("  " +:+ snd e)) +:+ acc)
                 "" errors.

End UrllibModel.

#[local] Instance model_lib : PyLib := {|
  urlparse := UrllibModel.urlparse;
  urljoin := UrllibModel.urljoin;
  float_of_str := UrllibModel.float_of_str;
  int_of_str := UrllibModel.int_of_str;
  sha256_hexdigest := UrllibModel.sha256_hexdigest;
  path_suffix := UrllibModel.path_suffix;
  http_url_error := UrllibModel.http_url_error;
  validation_error := UrllibModel.validation_error
|}.

(* ================================================================== *)
(** * Example sites *)
(* ================================================================== *)

Module Examples.

(** A page answered with 200 whose anchors are [hrefs]. *)
Definition page (hrefs : list string) : Webcrawler.Response :=
  {| Webcrawler.status := 200; Webcrawler.text := "<html></html>";
     Webcrawler.anchors := hrefs |}.

(** A response without anchors. *)
Definition plain (status : Z) (text : string) : Webcrawler.Response :=
  {| Webcrawler.status := status; Webcrawler.text := text; Webcrawler.anchors := [] |}.

(** A site that always answers the same; a URL that is not listed refuses
    the connection. *)
Definition serve (site : list (string * Webcrawler.Response)) : Webcrawler.Web :=
  fun _ url => snd <$> List.find (fun e => String.eqb (fst e) url) site.

Definition web_cfg (depth pages : Z) (robots : bool) : Webcrawler.CrawlerConfig :=
  {| Webcrawler.start_url := "http://site.test/";
     Webcrawler.max_depth := depth;
     Webcrawler.max_pages := pages;
     Webcrawler.allowed_domains := ["site.test"];
     Webcrawler.respect_robots_txt := robots;
     Webcrawler.user_agent := "CloudCurio Crawler (+https://cloudcurio.cc)" |}.

(** The start page links to [/a] and [/b]; [/a] links to [/c]. *)
Definition tree_site : list (string * Webcrawler.Response) :=
  [("http://site.test/", page ["/a"; "/b"]);
   ("http://site.test/a", page ["/c"]);
   ("http://site.test/b", page []);
   ("http://site.test/c", page [])].

(** A site whose robots.txt is answered with 404. *)
Definition no_robots_site : list (string * Webcrawler.Response) :=
  [("https://site.test/robots.txt", plain 404 "Not Found");
   ("http://site.test/", page ["/private/page"; "/public/page"]);
   ("http://site.test/private/page", page []);
   ("http://site.test/public/page", page [])].

(** The same site with a robots.txt that disallows [/private/]. *)
Definition robots_site : list (string * Webcrawler.Response) :=
  [("https://site.test/robots.txt",
    plain 200 ("User-agent: *" +:+ String "010" "Disallow: /private/"));
   ("http://site.test/", page ["/private/page"; "/public/page"]);
   ("http://site.test/private/page", page []);
   ("http://site.test/public/page", page [])].

(** A page that classifies as a guide: its address has [/docs/] and its
    text has a marker. *)
Definition doc_content (links : list string) : McpServer.Content :=
  {| McpServer.title := "Documentation";
     McpServer.text := "Installation and usage";
     McpServer.html := "<html></html>";
     McpServer.metadata := [("description", "manual")];
     McpServer.links := links |}.

(** A page without any documentation signal. *)
Definition blog_content (links : list string) : McpServer.Content :=
  {| McpServer.title := "Blog";
     McpServer.text := "Hello world";
     McpServer.html := "<html></html>";
     McpServer.metadata := [];
     McpServer.links := links |}.

(** A browser that shows the listed pages, whenever asked; navigating
    anywhere else raises.  No asset is reachable and no file can be
    opened. *)
Definition browse (site : list (string * McpServer.Content)) : McpServer.Env :=
  {| McpServer.goto := fun _ url =>
       match List.find (fun e => String.eqb (fst e) url) site with
       | Some (_, content) => McpServer.LoadPage url content (Some [])
       | None => McpServer.LoadRaises "net::ERR_CONNECTION_REFUSED"
       end;
     McpServer.asset_head := fun _ _ => McpServer.HeadRaises "Cannot connect to host";
     McpServer.asset_get := fun _ _ => McpServer.GetRaises "Cannot connect to host";
     McpServer.file_open := fun _ _ => Some "Permission denied";
     McpServer.file_write := fun _ _ _ => Some "Permission denied";
     McpServer.asset_dir := "data/assets" |}.

Definition pw_cfg (start : string) (depth pages : Z) : McpServer.CrawlerConfig :=
  {| McpServer.start_url := start;
     McpServer.max_depth := depth;
     McpServer.max_pages := pages;
     McpServer.content_types := ["documentation"; "api"; "wiki"; "guide"; "manual"];
     McpServer.respect_robots := true;
     McpServer.retry_attempts := 3;
     McpServer.retry_delay := 1%float;
     McpServer.download_assets := true;
     McpServer.asset_types := [".pdf"; ".png"; ".jpg"; ".jpeg"; ".svg"; ".gif"];
     McpServer.max_asset_size := 10485760 |}.

(** The start page links to a blog page and to a second documentation
    page, which links to the same blog page. *)
Definition docs_site : list (string * McpServer.Content) :=
  [("http://site.test/docs/",
    doc_content ["http://site.test/blog"; "http://site.test/docs/a"]);
   ("http://site.test/blog", blog_content []);
   ("http://site.test/docs/a", doc_content ["http://site.test/blog"])].


(** The site with the dead link, where the page that loads links to the
    dead page again. *)
Definition relinked_site : list (string * McpServer.Content) :=
  [("http://site.test/docs/",
    doc_content ["http://site.test/docs/gone"; "http://site.test/docs/a"]);
   ("http://site.test/docs/a", doc_content ["http://site.test/docs/gone"])].

(** A documentation page with four asset references: one larger than
    the default limit, one whose probe fails, one whose download fails,
    and one that downloads. *)
Definition asset_refs : list string :=
  ["http://site.test/big.pdf"; "http://site.test/down.png";
   "http://site.test/cut.png"; "http://site.test/ok.png"].

Definition asset_env : McpServer.Env :=
  {| McpServer.goto := fun _ url =>
       if String.eqb url "http://site.test/docs/"
       then McpServer.LoadPage url (doc_content []) (Some asset_refs)
       else McpServer.LoadRaises "net::ERR_CONNECTION_REFUSED";
     McpServer.asset_head := fun _ url =>
       if String.eqb url "http://site.test/big.pdf"
       then McpServer.HeadOk (Some "application/pdf") (Some "20000000")
       else if String.eqb url "http://site.test/down.png"
       then McpServer.HeadRaises "Cannot connect to host"
       else McpServer.HeadOk (Some "image/png") (Some "4");
     McpServer.asset_get := fun _ url =>
       if String.eqb url "http://site.test/ok.png"
       then McpServer.GetOk 200 (inl "PNG.")
       else McpServer.GetRaises "Server disconnected";
     McpServer.file_open := fun _ _ => None;
     McpServer.file_write := fun _ _ _ => None;
     McpServer.asset_dir := "data/assets" |}.

(** A browser whose first [failures] navigations raise, each followed by
    a pause, and which then shows a documentation page. *)
Definition flaky (failures : nat) : McpServer.Env :=
  {| McpServer.goto := fun t url =>
       if (t <? 2 * failures)%nat then McpServer.LoadRaises "Timeout 30000ms exceeded"
       else McpServer.LoadPage url (doc_content []) (Some []);
     McpServer.asset_head := fun _ _ => McpServer.HeadRaises "Cannot connect to host";
     McpServer.asset_get := fun _ _ => McpServer.GetRaises "Cannot connect to host";
     McpServer.file_open := fun _ _ => Some "Permission denied";
     McpServer.file_write := fun _ _ _ => Some "Permission denied";
     McpServer.asset_dir := "data/assets" |}.

End Examples.

(* ================================================================== *)
(** * Vocabulary of the statements *)
(* ================================================================== *)

(** Some rule of the list is a prefix of the path. *)
Definition some_prefix (rules : list string) (p : string) : Prop :=
  ∃ r, In r rules ∧ ∃ t, p = r +:+ t.

(** [st'] follows [st] in a run of the recursive crawler: the visited set
    only grows, requests are only appended, and the pages requested in
    between are pairwise distinct, were not visited at [st] and are
    visited at [st']. *)
Definition crawl_extends (st st' : Webcrawler.State) : Prop :=
  Webcrawler.visited_urls st ⊆ Webcrawler.visited_urls st'
  ∧ ∃ new, Webcrawler.requests st' = Webcrawler.requests st ++ new
      ∧ NoDup (Webcrawler.pages_of new)
      ∧ ∀ u, u ∈ Webcrawler.pages_of new →
             (u ∉ Webcrawler.visited_urls st) ∧ (u ∈ Webcrawler.visited_urls st').

(** What a call of [crawl_page] at depth [d] guarantees. *)
Definition crawl_post (cfg : Webcrawler.CrawlerConfig) (d : Z)
    (st st' : Webcrawler.State) (ys : list Webcrawler.Yield) : Prop :=
  crawl_extends st st'
  ∧ Forall (fun y => d ≤ Webcrawler.y_depth y ≤ Webcrawler.max_depth cfg) ys
  ∧ Z.of_nat (size (Webcrawler.visited_urls st'))
    ≤ Z.max (Z.of_nat (size (Webcrawler.visited_urls st)) + 1) (Webcrawler.max_pages cfg).

(** The URL and depth of a result of the Playwright crawler. *)
Definition result_key (r : McpServer.ContentExtraction * Z) : string * Z :=
  (McpServer.ce_url (fst r), snd r).

(** Every entry that was ever on the work list, in the order of its
    insertion: the entries taken off, then those still waiting. *)
Definition discovered (s : McpServer.Loop) : list (string * Z) :=
  McpServer.popped s ++ McpServer.queue s.

(** The work list is first-in first-out and sorted by depth. *)
Definition fifo_inv (s : McpServer.Loop) : Prop :=
  StronglySorted Z.le (map snd (discovered s))
  ∧ (∀ e d, head (McpServer.queue s) = Some e →
            d ∈ map snd (McpServer.queue s) → d ≤ snd e + 1)
  ∧ map result_key (McpServer.results s) `sublist_of` McpServer.popped s.

(** The pause after the failed attempt number [attempt_number]
    (counted from 1): [retry_delay * attempt_number]. *)
Definition backoff (cfg : McpServer.CrawlerConfig) (attempt_number : Z) : float :=
  PrimFloat.mul (McpServer.retry_delay cfg) (PyFloat.of_Z attempt_number).




(** [c] does not occur in [s]. *)
Definition lacks (c : ascii) (s : string) : Prop := PyStr.has_char c s = false.

(** [s] is empty or starts with a character satisfying [P]. *)
Definition starts_with (P : ascii → bool) (s : string) : Prop :=
  match s with
  | EmptyString => True
  | String c _ => P c = true
  end.

(** No tab, carriage return or line feed in [s]. *)
Definition safe (s : string) : Prop :=
  UrllibModel.all_chars (fun c => negb (UrllibModel.unsafe c)) s = true.

(** What the model's [urlparse] guarantees about the scheme, the network
    location and the path of a URL that has the first two: a lower-case
    scheme made of scheme characters; a network location without
    delimiters; a path that is empty or starts with a slash, has no query
    or fragment mark and, for a scheme with parameters, no parameters to
    split off. *)
Definition wf_parts (scheme netloc path : string) : Prop :=
  (∃ c sch, scheme = String c sch ∧ UrllibModel.is_alpha c = true)
  ∧ UrllibModel.all_chars UrllibModel.scheme_char scheme = true
  ∧ PyStr.lower scheme = scheme
  ∧ UrllibModel.all_chars (fun c => negb (UrllibModel.is_delim c)) netloc = true
  ∧ netloc ≠ ""
  ∧ safe netloc
  ∧ UrllibModel.brackets_mismatch netloc = false
  ∧ lacks "#" path ∧ lacks "?" path ∧ safe path
  ∧ starts_with (Ascii.eqb "/") path
  ∧ (PyStr.has_char ";" path = true → UrllibModel._splitparams path = (path, "")
     ∨ UrllibModel.mem scheme UrllibModel.uses_params = false).

(** The library contract behind the idempotence of [normalize_url]: when
    a reference resolved against [base_url] parses into a scheme, a
    network location and a path, then the string made of these three,
    resolved against the same base, parses into the same three. *)
Definition urllib_roundtrip `{PyLib} : Prop :=
  ∀ base_url url full_url parsed,
    urljoin base_url url = Some full_url →
    urlparse full_url = Some parsed →
    Urllib.scheme parsed ≠ "" → Urllib.netloc parsed ≠ "" →
    ∃ full_url' parsed',
      urljoin base_url (Urllib.scheme parsed +:+ "://" +:+ Urllib.netloc parsed
                        +:+ Urllib.path parsed) = Some full_url'
      ∧ urlparse full_url' = Some parsed'
      ∧ Urllib.scheme parsed' = Urllib.scheme parsed
      ∧ Urllib.netloc parsed' = Urllib.netloc parsed
      ∧ Urllib.path parsed' = Urllib.path parsed.

(** The robots.txt URLs among a list of requests. *)
Definition robots_of (rs : list Webcrawler.Request) : list string :=
  omap (fun r => match r with
                 | Webcrawler.ReqRobots u => Some u
                 | Webcrawler.ReqPage _ => None
                 end) rs.

(** What a stretch of a run of the recursive crawler from [st] to [st']
    that yields [ys] guarantees about robots.txt: cached policies are
    kept; the pages yielded are among the pages requested, in that order;
    a robots.txt is requested for a domain without cached policy only,
    which then has one, and not twice, and never when robots.txt is not
    respected; and, when robots.txt is respected, every page requested is
    allowed by the policy cached for its domain. *)
Definition run_post `{PyLib} (cfg : Webcrawler.CrawlerConfig)
    (st st' : Webcrawler.State) (ys : list Webcrawler.Yield) : Prop :=
  (∀ d rc, Webcrawler.robots_cache st !! d = Some rc →
           Webcrawler.robots_cache st' !! d = Some rc)
  ∧ ∃ new, Webcrawler.requests st' = Webcrawler.requests st ++ new
      ∧ map Webcrawler.y_url ys `sublist_of` Webcrawler.pages_of new
      ∧ (∀ u, u ∈ robots_of new →
              ∃ d, u = Webcrawler.robots_url d
                   ∧ Webcrawler.robots_cache st !! d = None
                   ∧ is_Some (Webcrawler.robots_cache st' !! d))
      ∧ NoDup (robots_of new)
      ∧ (Webcrawler.respect_robots_txt cfg = false → robots_of new = [])
      ∧ (Webcrawler.respect_robots_txt cfg = true →
         ∀ u, u ∈ Webcrawler.pages_of new →
              ∃ parsed rc,
                urlparse u = Some parsed
                ∧ Webcrawler.robots_cache st' !! Urllib.netloc parsed = Some rc
                ∧ Webcrawler.is_allowed rc u = Some true).

(** The string has no upper-case ASCII letter. *)
Definition lower_case (s : string) : Prop := PyStr.lower s = s.

(** What the robots.txt parser keeps in its loop variables is
    lower-case. *)
Definition acc_lower_case (acc : Webcrawler.RobotsAcc) : Prop :=
  (∀ a, Webcrawler.current_agent acc = Some a → lower_case a)
  ∧ Forall lower_case (Webcrawler.acc_allowed acc)
  ∧ Forall lower_case (Webcrawler.acc_disallowed acc).

(** The URL is the [scheme://netloc/path] of an absolute URL as parsed by
    [urlparse], with a host that ends with one of the allowed domains. *)
Definition on_allowed_domain `{PyLib} (cfg : Webcrawler.CrawlerConfig) (u : string)
  : Prop :=
  ∃ full parsed d,
    urlparse full = Some parsed
    ∧ Urllib.scheme parsed ≠ "" ∧ Urllib.netloc parsed ≠ ""
    ∧ u = Urllib.scheme parsed +:+ "://" +:+ Urllib.netloc parsed +:+ Urllib.path parsed
    ∧ In d (Webcrawler.allowed_domains cfg)
    ∧ ∃ t, Urllib.netloc parsed = t +:+ d.

(** From [st] to [st'] requests were only appended, and every page
    requested in between satisfies [P]. *)
Definition pages_from (P : string → Prop) (st st' : Webcrawler.State) : Prop :=
  ∃ new, Webcrawler.requests st' = Webcrawler.requests st ++ new
         ∧ Forall P (Webcrawler.pages_of new).

(** The URLs of the results of the work-list crawler, oldest first. *)
Definition result_urls (s : McpServer.Loop) : list string :=
  map (fun r => McpServer.ce_url (fst r)) (McpServer.results s).

(** The URL parses and has the network location of the start URL. *)
Definition same_host `{PyLib} (cfg : McpServer.CrawlerConfig) (u : string) : Prop :=
  ∃ parsed base,
    urlparse u = Some parsed
    ∧ urlparse (McpServer.start_url cfg) = Some base
    ∧ Urllib.netloc parsed = Urllib.netloc base.

(** An interaction made for an asset: neither a navigation nor a
    pause. *)
Definition asset_event (e : McpServer.Event) : Prop :=
  match e with
  | McpServer.EvGoto _ | McpServer.EvSleep _ => False
  | _ => True
  end.

(** The file that a download of [url] writes: under the asset
    directory, named after the URL. *)
Definition asset_path `{PyLib} (env : McpServer.Env) (url : string) : string :=
  McpServer.asset_dir env +:+ "/" +:+ sha256_hexdigest url +:+ path_suffix url.

(** From [st] to [st']: only asset interactions were made, the visited
    set is the same, stored files are kept, and a file was written only
    at the path of one of [urls]. *)
Definition assets_only `{PyLib} (env : McpServer.Env) (urls : list string)
    (st st' : McpServer.State) : Prop :=
  McpServer.visited_urls st' = McpServer.visited_urls st
  ∧ (∃ evs, McpServer.trace st' = McpServer.trace st ++ evs ∧ Forall asset_event evs)
  ∧ (∀ p, is_Some (McpServer.storage st !! p) → is_Some (McpServer.storage st' !! p))
  ∧ (∀ p, McpServer.storage st' !! p ≠ McpServer.storage st !! p →
          ∃ u, u ∈ urls ∧ p = asset_path env u).

(** The record of an asset agrees with the files at [st]: it names the
    suffix of its URL as file type and either is downloaded, without
    error, with the file of its URL as local path, which exists; or is
    not downloaded, without local path, with an error. *)
Definition asset_recorded `{PyLib} (env : McpServer.Env) (st : McpServer.State)
    (a : McpServer.Asset) : Prop :=
  McpServer.file_type a = path_suffix (McpServer.a_url a)
  ∧ ((McpServer.downloaded a = true
      ∧ McpServer.error a = None
      ∧ McpServer.local_path a = Some (asset_path env (McpServer.a_url a))
      ∧ is_Some (McpServer.storage st !! asset_path env (McpServer.a_url a)))
     ∨ (McpServer.downloaded a = false
        ∧ McpServer.local_path a = None
        ∧ is_Some (McpServer.error a))).

(** The configuration with [respect_robots] set to [b]. *)
Definition with_respect_robots (b : bool) (cfg : McpServer.CrawlerConfig)
  : McpServer.CrawlerConfig :=
  {| McpServer.start_url := McpServer.start_url cfg;
     McpServer.max_depth := McpServer.max_depth cfg;
     McpServer.max_pages := McpServer.max_pages cfg;
     McpServer.content_types := McpServer.content_types cfg;
     McpServer.respect_robots := b;
     McpServer.retry_attempts := McpServer.retry_attempts cfg;
     McpServer.retry_delay := McpServer.retry_delay cfg;
     McpServer.download_assets := McpServer.download_assets cfg;
     McpServer.asset_types := McpServer.asset_types cfg;
     McpServer.max_asset_size := McpServer.max_asset_size cfg |}.

(** The number of documentation signals of a page: the pattern in its
    URL, a metadata key and a marker in its text. *)
Definition signals (page_url : string) (content : McpServer.Content) : nat :=
  length (filter (fun b : bool => b)
            [McpServer.url_pattern page_url;
             McpServer.metadata_tag (McpServer.metadata content);
             McpServer.content_markers (McpServer.text content)]).

(** The item was produced from a response with status 200 to a request
    for its URL: its content is the body and its links are the anchors
    that normalise. *)
Definition yielded `{PyLib} (cfg : Webcrawler.CrawlerConfig) (web : Webcrawler.Web)
    (y : Webcrawler.Yield) : Prop :=
  ∃ t r,
    web t (Webcrawler.y_url y) = Some r
    ∧ Webcrawler.status r = 200
    ∧ Webcrawler.y_content y = Webcrawler.text r
    ∧ Webcrawler.y_links y
      = Webcrawler.extract_links cfg (Webcrawler.y_url y) (Webcrawler.anchors r).

(* ================================================================== *)
(** * Theorems *)
(* ================================================================== *)

(** ** Content classification *)

(** The feature list is the sub-list of the three signal names whose
    signal is present, in the fixed order of the source. *)
Lemma classify_features (page_url : string) (content : McpServer.Content) :
  McpServer.features (McpServer._classify_content page_url content) =
    map fst
      (filter (fun nb : string * bool => snd nb)
         [("url_pattern", McpServer.url_pattern page_url);
          ("metadata_tag", McpServer.metadata_tag (McpServer.metadata content));
          ("content_markers", McpServer.content_markers (McpServer.text content))]).
Proof.
  unfold McpServer._classify_content; simpl.
  destruct (McpServer.url_pattern page_url),
           (McpServer.metadata_tag (McpServer.metadata content)),
           (McpServer.content_markers (McpServer.text content)); reflexivity.
Qed.

(** C7. The confidence of a page is min(|features| / 3, 1.0) where
    features lists exactly the present signals among URL pattern,
    metadata key and content marker; the type is "documentation" iff
    confidence >= 0.7, "guide" iff 0.4 <= confidence < 0.7, and "unknown"
    iff neither holds. *)
Theorem classify_content_confidence_and_type
    (page_url : string) (content : McpServer.Content) :
  let ct := McpServer._classify_content page_url content in
  let present :=
    filter (fun nb : string * bool => snd nb)
      [("url_pattern", McpServer.url_pattern page_url);
       ("metadata_tag", McpServer.metadata_tag (McpServer.metadata content));
       ("content_markers", McpServer.content_markers (McpServer.text content))] in
  McpServer.features ct = map fst present
  ∧ McpServer.confidence ct =
      PyFloat.min (PrimFloat.div (PyFloat.of_Z (Z.of_nat (length present))) PyFloat.c3)
                  PyFloat.c1_0
  ∧ (McpServer.type ct = "documentation"
       ↔ PyFloat.ge (McpServer.confidence ct) PyFloat.c0_7 = true)
  ∧ (McpServer.type ct = "guide"
       ↔ PyFloat.ge (McpServer.confidence ct) PyFloat.c0_4 = true
         ∧ PyFloat.lt (McpServer.confidence ct) PyFloat.c0_7 = true)
  ∧ (McpServer.type ct = "unknown"
       ↔ PyFloat.ge (McpServer.confidence ct) PyFloat.c0_4 = false).
Proof.
  cbv zeta. split; [apply classify_features|].
  unfold McpServer._classify_content; simpl.
  destruct (McpServer.url_pattern page_url),
           (McpServer.metadata_tag (McpServer.metadata content)),
           (McpServer.content_markers (McpServer.text content));
    vm_compute; repeat split; intros; try discriminate; try reflexivity;
    repeat match goal with H : _ ∧ _ |- _ => destruct H end; discriminate.
Qed.


(** ** Strings *)

Lemma str_app_nil (s : string) : "" +:+ s = s.
Proof. reflexivity. Qed.

Lemma str_app_cons (c : ascii) (s t : string) : String c s +:+ t = String c (s +:+ t).
Proof. reflexivity. Qed.

Ltac str_simpl :=
  repeat first [rewrite str_app_nil in * | rewrite str_app_cons in *].

Lemma startswith_spec (s p : string) :
  PyStr.startswith s p = true ↔ ∃ t, s = p +:+ t.
Proof.
  revert s; induction p as [|a p IH]; intros s; simpl.
  - split; [intros _; exists s; reflexivity | intros _; now destruct s].
  - destruct s as [|b s]; simpl.
    + split; [discriminate | intros [t Ht]; discriminate].
    + destruct (Ascii.eqb_spec a b) as [->|Hne].
      * rewrite IH. split; intros [t Ht]; exists t; str_simpl.
        -- now rewrite Ht.
        -- now inversion Ht.
      * split; [discriminate | intros [t Ht]; str_simpl; inversion Ht; congruence].
Qed.

Lemma endswith_unfold (s d : string) :
  PyStr.endswith s d =
    if String.eqb s d then true
    else match s with
         | EmptyString => false
         | String _ s' => PyStr.endswith s' d
         end.
Proof. destruct s; reflexivity. Qed.

Lemma endswith_spec (s d : string) :
  PyStr.endswith s d = true ↔ ∃ t, s = t +:+ d.
Proof.
  induction s as [|c s IH]; rewrite endswith_unfold.
  - destruct (String.eqb_spec "" d) as [<-|Hne].
    + split; [intros _; exists ""; reflexivity | reflexivity].
    + split; [intros Hf; discriminate Hf|]. intros [t Ht].
      destruct t; str_simpl; [congruence | discriminate].
  - destruct (String.eqb_spec (String c s) d) as [<-|Hne].
    + split; [intros _; exists ""; reflexivity | reflexivity].
    + rewrite IH. split; intros [t Ht].
      * exists (String c t). str_simpl. now rewrite Ht.
      * destruct t as [|c' t]; str_simpl; [congruence|].
        inversion Ht; subst. now exists t.
Qed.

Lemma existsb_startswith (rules : list string) (p : string) :
  existsb (fun r => PyStr.startswith p r) rules = true ↔ some_prefix rules p.
Proof.
  unfold some_prefix. rewrite existsb_exists.
  split; intros (r & Hin & Hr); exists r; split; try assumption;
    now apply startswith_spec.
Qed.

(** ** robots.txt rules *)



(** The robots check of the Playwright crawler consults no rule. *)
Lemma is_allowed_by_robots_true (cfg : McpServer.CrawlerConfig) (url : string) :
  McpServer._is_allowed_by_robots cfg url = true.
Proof. unfold McpServer._is_allowed_by_robots. now destruct (McpServer.respect_robots cfg). Qed.

(** The start page links to [/private/page] and [/public/page]; with the
    rule [Disallow: /private/] for every agent, the run requests the
    start page and the public page only. *)
Lemma private_page_skipped_public_page_fetched :
  ∃ st ys,
    Webcrawler.crawl (Examples.web_cfg 2 10 true) (Examples.serve Examples.robots_site)
    = Some (st, ys, Webcrawler.Returned)
    ∧ Webcrawler.robots_cache st !! "site.test"
      = Some {| Webcrawler.allowed_paths := [];
                Webcrawler.disallowed_paths := ["/private/"];
                Webcrawler.crawl_delay := None |}
    ∧ Webcrawler.page_fetches st
      = ["http://site.test/"; "http://site.test/public/page"]
    ∧ map Webcrawler.y_url ys = ["http://site.test/"; "http://site.test/public/page"].
Proof.
  eexists _, _. split; [vm_compute; reflexivity|].
  split; [|split]; reflexivity.
Qed.

(** ** The recursive crawler: termination and invariants *)

Section WebcrawlerFacts.
Context `{PyLib} (cfg : Webcrawler.CrawlerConfig) (web : Webcrawler.Web).

Lemma crawl_extends_refl (st : Webcrawler.State) : crawl_extends st st.
Proof.
  split; [set_solver|]. exists []. rewrite app_nil_r.
  repeat split; try constructor; simpl in *; set_solver.
Qed.

Lemma crawl_extends_trans (a b c : Webcrawler.State) :
  crawl_extends a b → crawl_extends b c → crawl_extends a c.
Proof.
  intros (Hab & n1 & E1 & N1 & F1) (Hbc & n2 & E2 & N2 & F2).
  split; [set_solver|]. exists (n1 ++ n2).
  split; [rewrite E2, E1; now rewrite app_assoc|].
  unfold Webcrawler.pages_of in *. rewrite omap_app. split.
  - apply NoDup_app. split; [assumption|]. split; [|assumption].
    intros u Hu1 Hu2. apply F1 in Hu1. apply F2 in Hu2. tauto.
  - intros u Hu. apply elem_of_app in Hu as [Hu|Hu].
    + apply F1 in Hu. set_solver.
    + apply F2 in Hu. set_solver.
Qed.

Lemma fetch_robots_txt_state (domain : string) (st st1 : Webcrawler.State)
    (rc : Webcrawler.RobotsConfig) :
  Webcrawler.fetch_robots_txt cfg web domain st = (rc, st1) →
  Webcrawler.visited_urls st1 = Webcrawler.visited_urls st
  ∧ ∃ new, Webcrawler.requests st1 = Webcrawler.requests st ++ new
           ∧ Webcrawler.pages_of new = [].
Proof.
  unfold Webcrawler.fetch_robots_txt.
  destruct (Webcrawler.robots_cache st !! domain); intros [= <- <-]; simpl.
  - split; [reflexivity|]. exists []. now rewrite app_nil_r.
  - split; [reflexivity|]. eexists. split; reflexivity.
Qed.

Lemma robots_gate_state (url : string) (st st1 : Webcrawler.State) (r : option bool) :
  Webcrawler.robots_gate cfg web url st = (st1, r) →
  Webcrawler.visited_urls st1 = Webcrawler.visited_urls st
  ∧ ∃ new, Webcrawler.requests st1 = Webcrawler.requests st ++ new
           ∧ Webcrawler.pages_of new = [].
Proof.
  unfold Webcrawler.robots_gate.
  destruct (Webcrawler.respect_robots_txt cfg).
  - destruct (urlparse url) as [parsed|].
    + destruct (Webcrawler.fetch_robots_txt cfg web (Urllib.netloc parsed) st)
        as [rc st'] eqn:E.
      intros [= <- <-]. eapply fetch_robots_txt_state; eassumption.
    + intros [= <- <-]. split; [reflexivity|]. exists []. now rewrite app_nil_r.
  - intros [= <- <-]. split; [reflexivity|]. exists []. now rewrite app_nil_r.
Qed.

(** The loop over the links, given the guarantee of the recursive call. *)
Lemma crawl_links_inv (rec : string → Webcrawler.State → option Webcrawler.Result)
    (d : Z) :
  (∀ link s s' ys o, rec link s = Some (s', ys, o) → crawl_post cfg d s s' ys) →
  ∀ links st out st' ys o,
    Webcrawler.crawl_links cfg rec links st out = Some (st', ys, o) →
    crawl_extends st st'
    ∧ (∃ ys', ys = out ++ ys'
              ∧ Forall (fun y => d ≤ Webcrawler.y_depth y ≤ Webcrawler.max_depth cfg) ys')
    ∧ Z.of_nat (size (Webcrawler.visited_urls st'))
      ≤ Z.max (Z.of_nat (size (Webcrawler.visited_urls st))) (Webcrawler.max_pages cfg).
Proof.
  intros Hrec links. induction links as [|link rest IH]; intros st out st' ys o; simpl.
  - intros [= <- <- <-]. split; [apply crawl_extends_refl|].
    split; [exists []; rewrite app_nil_r; auto | lia].
  - destruct (Z.geb_spec (Z.of_nat (size (Webcrawler.visited_urls st)))
                (Webcrawler.max_pages cfg)) as [Hfull|Hroom].
    + intros [= <- <- <-]. split; [apply crawl_extends_refl|].
      split; [exists []; rewrite app_nil_r; auto | lia].
    + destruct (rec link st) as [[[s1 ys1] o1]|] eqn:Erec; [|discriminate].
      apply Hrec in Erec as (Hext & Hd & Hsz).
      destruct o1.
      * intros Hloop. apply IH in Hloop as (Hext' & (ys' & -> & Hd') & Hsz').
        split; [eapply crawl_extends_trans; eassumption|].
        split; [|lia].
        exists (ys1 ++ ys'). rewrite app_assoc. split; [reflexivity|].
        apply Forall_app; auto.
      * intros [= <- <- <-]. split; [assumption|].
        split; [|lia]. exists ys1. auto.
Qed.

(** Every call of [crawl_page] keeps the guarantee, and what it yields
    starts with its own page, all later items being deeper. *)
Lemma crawl_page_inv (fuel : nat) :
  ∀ url depth st st' ys o,
    Webcrawler.crawl_page fuel cfg web url depth st = Some (st', ys, o) →
    crawl_post cfg depth st st' ys
    ∧ (ys = [] ∨ ∃ y rest, ys = y :: rest ∧ Webcrawler.y_url y = url
                           ∧ Webcrawler.y_depth y = depth
                           ∧ Forall (fun y' => depth < Webcrawler.y_depth y') rest).
Proof.
  induction fuel as [|fuel IH]; intros url depth st st' ys o; simpl; [discriminate|].
  assert (Hstay : crawl_post cfg depth st st []).
  { split; [apply crawl_extends_refl|]. split; [constructor | lia]. }
  destruct (Z.gtb_spec depth (Webcrawler.max_depth cfg)) as [Hdeep|Hdepth].
  { intros [= <- <- <-]. auto. }
  case_bool_decide as Hvis.
  { intros [= <- <- <-]. auto. }
  set (st0 := {| Webcrawler.visited_urls := {[url]} ∪ Webcrawler.visited_urls st;
                 Webcrawler.robots_cache := Webcrawler.robots_cache st;
                 Webcrawler.requests := Webcrawler.requests st |}).
  assert (Hsz0 : size (Webcrawler.visited_urls st0)
                 = S (size (Webcrawler.visited_urls st))).
  { simpl. rewrite size_union by set_solver. now rewrite size_singleton. }
  destruct (Webcrawler.robots_gate cfg web url st0) as [st1 gate] eqn:Egate.
  apply robots_gate_state in Egate as (Hv1 & new1 & Hr1 & Hp1).
  assert (Hgate : crawl_post cfg depth st st1 []).
  { split; [|split; [constructor|]].
    - split; [rewrite Hv1; simpl; set_solver|].
      exists new1. rewrite Hr1. split; [reflexivity|]. rewrite Hp1.
      split; [constructor | intros u Hu; inversion Hu].
    - rewrite Hv1, Hsz0. lia. }
  destruct gate as [[|]|]; try (intros [= <- <- <-]; now auto).
  set (st2 := {| Webcrawler.visited_urls := Webcrawler.visited_urls st1;
                 Webcrawler.robots_cache := Webcrawler.robots_cache st1;
                 Webcrawler.requests := Webcrawler.requests st1 ++ [Webcrawler.ReqPage url] |}).
  assert (Hext2 : crawl_extends st st2).
  { split; [simpl; rewrite Hv1; simpl; set_solver|].
    exists (new1 ++ [Webcrawler.ReqPage url]). simpl. rewrite Hr1.
    split; [now rewrite app_assoc|].
    unfold Webcrawler.pages_of in *. rewrite omap_app, Hp1. simpl.
    split; [apply NoDup_singleton|].
    intros u Hu. apply list_elem_of_singleton in Hu as ->.
    split; [assumption|]. rewrite Hv1. simpl. set_solver. }
  assert (Hsz2 : size (Webcrawler.visited_urls st2)
                 = S (size (Webcrawler.visited_urls st))).
  { simpl. now rewrite Hv1. }
  assert (Hfetched : crawl_post cfg depth st st2 []).
  { split; [assumption|]. split; [constructor | rewrite Hsz2; lia]. }
  destruct (web (length (Webcrawler.requests st1)) url) as [r|];
    [|intros [= <- <- <-]; now auto].
  destruct (negb (Webcrawler.status r =? 200)); [intros [= <- <- <-]; now auto|].
  intros Hloop.
  eapply (crawl_links_inv _ (depth + 1)) in Hloop.
  2:{ intros link s s' ys' o' Hcall. now apply IH in Hcall as [Hpost _]. }
  destruct Hloop as (Hext & (ys' & -> & Hd) & Hsz). split.
  - split; [eapply crawl_extends_trans; eassumption|]. split.
    + simpl. constructor; [simpl; lia|].
      eapply Forall_impl; [exact Hd|]. simpl. intros; lia.
    + rewrite Hsz2 in Hsz. lia.
  - right. eexists _, ys'. simpl. repeat split.
    eapply Forall_impl; [exact Hd|]. simpl. intros; lia.
Qed.

Lemma crawl_links_total (rec : string → Webcrawler.State → option Webcrawler.Result) :
  (∀ link s, ∃ r, rec link s = Some r) →
  ∀ links st out, ∃ r, Webcrawler.crawl_links cfg rec links st out = Some r.
Proof.
  intros Hrec links. induction links as [|link rest IH]; intros st out; simpl; eauto.
  destruct (_ >=? _); eauto.
  destruct (Hrec link st) as [[[s1 ys1] [|]] ->]; eauto.
Qed.

(** The recursion bound is never the reason for a call to stop. *)
Lemma crawl_page_total (fuel : nat) :
  ∀ url depth st,
    (Z.to_nat (Webcrawler.max_depth cfg + 1 - depth) < fuel)%nat →
    ∃ r, Webcrawler.crawl_page fuel cfg web url depth st = Some r.
Proof.
  induction fuel as [|fuel IH]; intros url depth st Hfuel; [lia|]. simpl.
  destruct (Z.gtb_spec depth (Webcrawler.max_depth cfg)); eauto.
  case_bool_decide; eauto.
  destruct (Webcrawler.robots_gate _ _ _ _) as [st1 [[|]|]]; eauto.
  destruct (web _ url) as [r|]; eauto.
  destruct (negb _); eauto.
  apply crawl_links_total. intros link s. apply IH. lia.
Qed.

End WebcrawlerFacts.

Lemma crawl_links_returned `{PyLib} (cfg : Webcrawler.CrawlerConfig)
    (rec : string → Webcrawler.State → option Webcrawler.Result) :
  ∀ links st out st' ys o,
    Webcrawler.crawl_links cfg rec links st out = Some (st', ys, o) →
    o = Webcrawler.Returned.
Proof.
  induction links as [|link rest IH]; intros st out st' ys o; simpl.
  - now intros [= _ _ <-].
  - destruct (_ >=? _); [now intros [= _ _ <-]|].
    destruct (rec link st) as [[[s1 ys1] [|]]|]; try discriminate.
    + apply IH.
    + now intros [= _ _ <-].
Qed.

(** ** robots.txt that cannot be fetched *)

(** The policy of a domain without usable robots.txt. *)
Lemma robots_rules_failure `{PyLib} (cfg : Webcrawler.CrawlerConfig)
    (resp : option Webcrawler.Response) :
  (∀ r, resp = Some r → Webcrawler.status r ≠ 200) →
  Webcrawler.robots_rules cfg resp =
    {| Webcrawler.allowed_paths := []; Webcrawler.disallowed_paths := [];
       Webcrawler.crawl_delay := None |}.
Proof.
  intros Hfail. unfold Webcrawler.robots_rules.
  destruct resp as [r|]; [|reflexivity].
  destruct (Z.eqb_spec (Webcrawler.status r) 200) as [E|_]; [|reflexivity].
  now apply Hfail in E.
Qed.

(** C5. When the request for a domain's robots.txt raises or is answered
    with a status other than 200, [fetch_robots_txt] returns (and caches)
    the policy without rules and without crawl delay; that policy allows
    every path; and a page of that domain reached by [crawl_page] is then
    requested, the call ending normally. *)
Theorem robots_fetch_failure_fail_open `{PyLib}
    (cfg : Webcrawler.CrawlerConfig) (web : Webcrawler.Web)
    (domain : string) (st : Webcrawler.State) :
  Webcrawler.robots_cache st !! domain = None →
  (∀ r, web (length (Webcrawler.requests st)) (Webcrawler.robots_url domain) = Some r →
        Webcrawler.status r ≠ 200) →
  let open_policy :=
    {| Webcrawler.allowed_paths := []; Webcrawler.disallowed_paths := [];
       Webcrawler.crawl_delay := None |} in
  (∃ st', Webcrawler.fetch_robots_txt cfg web domain st = (open_policy, st')
          ∧ Webcrawler.robots_cache st' !! domain = Some open_policy)
  ∧ (∀ path parsed, urlparse path = Some parsed →
       Webcrawler.is_allowed open_policy path = Some true)
  ∧ (∀ url parsed depth,
       Webcrawler.respect_robots_txt cfg = true →
       urlparse url = Some parsed → Urllib.netloc parsed = domain →
       depth ≤ Webcrawler.max_depth cfg → url ∉ Webcrawler.visited_urls st →
       ∃ st' ys,
         Webcrawler.crawl_page (Webcrawler.fuel_for cfg depth) cfg web url depth st
           = Some (st', ys, Webcrawler.Returned)
         ∧ url ∈ Webcrawler.page_fetches st').
Proof.
  intros Hcache Hfail open_policy.
  assert (Hfetch : ∀ v, Webcrawler.fetch_robots_txt cfg web domain
             {| Webcrawler.visited_urls := v;
                Webcrawler.robots_cache := Webcrawler.robots_cache st;
                Webcrawler.requests := Webcrawler.requests st |}
           = (open_policy,
              {| Webcrawler.visited_urls := v;
                 Webcrawler.robots_cache := <[domain := open_policy]> (Webcrawler.robots_cache st);
                 Webcrawler.requests :=
                   Webcrawler.requests st
                   ++ [Webcrawler.ReqRobots (Webcrawler.robots_url domain)] |})).
  { intros v. unfold Webcrawler.fetch_robots_txt. simpl. rewrite Hcache.
    now rewrite (robots_rules_failure cfg _ Hfail). }
  assert (Hallow : ∀ path parsed, urlparse path = Some parsed →
                     Webcrawler.is_allowed open_policy path = Some true).
  { intros path parsed Hp. unfold Webcrawler.is_allowed. now rewrite Hp. }
  split; [|split; [exact Hallow|]].
  - destruct st as [v c r]. simpl in *. eexists. split; [apply Hfetch|].
    simpl. apply lookup_insert_eq.
  - intros url parsed depth Hrespect Hparse Hdom Hdepth Hnew.
    destruct (crawl_page_total cfg web (Webcrawler.fuel_for cfg depth) url depth st)
      as [[[st' ys] o] Hrun]; [unfold Webcrawler.fuel_for; lia|].
    exists st', ys. rewrite Hrun.
    unfold Webcrawler.fuel_for in Hrun. simpl in Hrun.
    destruct (Z.gtb_spec depth (Webcrawler.max_depth cfg)); [lia|].
    rewrite bool_decide_eq_false_2 in Hrun by assumption.
    unfold Webcrawler.robots_gate in Hrun. rewrite Hrespect, Hparse, Hdom in Hrun.
    rewrite Hfetch in Hrun. rewrite (Hallow url parsed Hparse) in Hrun.
    simpl in Hrun.
    assert (Hin : ∀ s, crawl_extends
              {| Webcrawler.visited_urls := {[url]} ∪ Webcrawler.visited_urls st;
                 Webcrawler.robots_cache := <[domain := open_policy]> (Webcrawler.robots_cache st);
                 Webcrawler.requests :=
                   (Webcrawler.requests st
                    ++ [Webcrawler.ReqRobots (Webcrawler.robots_url domain)])
                   ++ [Webcrawler.ReqPage url] |} s →
              url ∈ Webcrawler.page_fetches s).
    { intros s (_ & new & Hreq & _). unfold Webcrawler.page_fetches, Webcrawler.pages_of.
      rewrite Hreq. simpl. rewrite !omap_app. simpl. set_solver. }
    destruct (web _ url) as [r|].
    + destruct (negb (Webcrawler.status r =? 200)).
      * injection Hrun as <- <- <-. split; [reflexivity|].
        apply Hin, crawl_extends_refl.
      * pose proof (crawl_links_returned _ _ _ _ _ _ _ _ Hrun) as ->.
        split; [reflexivity|].
        eapply (crawl_links_inv cfg _ (depth + 1)) in Hrun as (Hext & _).
        -- now apply Hin.
        -- intros link s s' ys' o' Hcall.
           now apply (crawl_page_inv cfg web) in Hcall as [Hpost _].
    + injection Hrun as <- <- <-. split; [reflexivity|].
      apply Hin, crawl_extends_refl.
Qed.

(** A robots.txt answered with 404: the policy is open and the start page
    is still requested. *)
Lemma robots_fetch_failure_fail_open_witness :
  (∃ st', Webcrawler.fetch_robots_txt (Examples.web_cfg 2 10 true)
            (Examples.serve Examples.no_robots_site) "site.test" Webcrawler.init_state
          = ({| Webcrawler.allowed_paths := []; Webcrawler.disallowed_paths := [];
                Webcrawler.crawl_delay := None |}, st')
          ∧ Webcrawler.robots_cache st' !! "site.test"
            = Some {| Webcrawler.allowed_paths := []; Webcrawler.disallowed_paths := [];
                      Webcrawler.crawl_delay := None |})
  ∧ (∃ st' ys,
       Webcrawler.crawl_page (Webcrawler.fuel_for (Examples.web_cfg 2 10 true) 0)
         (Examples.web_cfg 2 10 true) (Examples.serve Examples.no_robots_site)
         "http://site.test/" 0 Webcrawler.init_state
       = Some (st', ys, Webcrawler.Returned)
       ∧ "http://site.test/" ∈ Webcrawler.page_fetches st').
Proof.
  destruct (robots_fetch_failure_fail_open (Examples.web_cfg 2 10 true)
              (Examples.serve Examples.no_robots_site) "site.test"
              Webcrawler.init_state)
    as (Hfetch & _ & Hcrawl).
  - reflexivity.
  - intros r. vm_compute. intros [= <-]. discriminate.
  - split; [exact Hfetch|].
    apply (Hcrawl "http://site.test/" _ 0 eq_refl eq_refl eq_refl); [simpl; lia|].
    vm_compute. set_solver.
Defined.

(** ** The work-list crawler: state changes of one page *)

Section McpServerFacts.
Context `{PyLib} (cfg : McpServer.CrawlerConfig) (env : McpServer.Env).

Ltac break_match :=
  repeat match goal with
         | |- context [match ?x with _ => _ end] => destruct x eqn:?
         end.

Lemma download_asset_visited (url : string) (st : McpServer.State) :
  McpServer.visited_urls (fst (McpServer._download_asset cfg env url st))
  = McpServer.visited_urls st.
Proof. unfold McpServer._download_asset. break_match; reflexivity. Qed.

Lemma download_all_visited (urls : list string) :
  ∀ st assets,
    McpServer.visited_urls (fst (McpServer.download_all cfg env urls st assets))
    = McpServer.visited_urls st.
Proof.
  induction urls as [|url rest IH]; intros st assets; simpl; [reflexivity|].
  pose proof (download_asset_visited url st) as Hd.
  destruct (McpServer._download_asset cfg env url st) as [st1 [[a|]|msg]]; simpl in Hd;
    rewrite IH; exact Hd.
Qed.

Lemma process_assets_visited (refs : option (list string)) (st : McpServer.State) :
  McpServer.visited_urls (fst (McpServer._process_assets cfg env refs st))
  = McpServer.visited_urls st.
Proof. destruct refs; simpl; [apply download_all_visited | reflexivity]. Qed.

Lemma new_extraction_return (c c' : McpServer.ContentExtraction) :
  McpServer.new_extraction c = McpServer.Return c' → c' = c.
Proof.
  unfold McpServer.new_extraction.
  destruct (McpServer.extraction_errors _ _); [now intros [= <-] | discriminate].
Qed.

(** [_process_url] marks the URL as visited when it returns an
    extraction, which is then the one of that URL, and also when the
    extraction it built was not valid; otherwise it leaves the visited
    set as it is. *)
Lemma attempts_visited (n : nat) :
  ∀ attempt url st st' r,
    McpServer.attempts cfg env n attempt url st = (st', r) →
    match r with
    | McpServer.Return (Some c) =>
        McpServer.visited_urls st' = {[url]} ∪ McpServer.visited_urls st
        ∧ McpServer.ce_url c = url
    | _ => McpServer.visited_urls st' = McpServer.visited_urls st
           ∨ McpServer.visited_urls st' = {[url]} ∪ McpServer.visited_urls st
    end.
Proof.
  induction n as [|n IH]; intros attempt url st st' r; cbn [McpServer.attempts].
  - intros [= <- <-]. now left.
  - destruct (McpServer.goto env (length (McpServer.trace st)) url)
      as [msg| |page_url content refs].
    + destruct (attempt =? McpServer.retry_attempts cfg - 1).
      * intros [= <- <-]. now left.
      * intros Hrec. apply IH in Hrec. exact Hrec.
    + intros [= <- <-]. now left.
    + destruct (negb _); [intros [= <- <-]; now left|].
      assert (Hv : McpServer.visited_urls
                     (fst (if McpServer.download_assets cfg
                           then McpServer._process_assets cfg env refs
                                  (McpServer.log (McpServer.EvGoto url) st)
                           else (McpServer.log (McpServer.EvGoto url) st, [])))
                   = McpServer.visited_urls st).
      { destruct (McpServer.download_assets cfg); [|reflexivity].
        now rewrite process_assets_visited. }
      destruct (if McpServer.download_assets cfg then _ else _) as [st2 assets].
      simpl in Hv.
      destruct (McpServer.new_extraction _) as [c|msg] eqn:Hnew.
      * apply new_extraction_return in Hnew as ->.
        intros [= <- <-]. simpl. now rewrite Hv.
      * destruct (attempt =? McpServer.retry_attempts cfg - 1).
        -- intros [= <- <-]. right. simpl. now rewrite Hv.
        -- intros Hrec. apply IH in Hrec.
           change (McpServer.visited_urls
                     (McpServer.log _ (McpServer.mark_visited url st2)))
             with ({[url]} ∪ McpServer.visited_urls st2) in Hrec.
           rewrite Hv in Hrec.
           destruct r as [[c|]|m].
           ++ destruct Hrec as [Hrec Hc]. split; [|exact Hc]. rewrite Hrec. set_solver.
           ++ right. destruct Hrec as [Hrec|Hrec]; rewrite Hrec; set_solver.
           ++ right. destruct Hrec as [Hrec|Hrec]; rewrite Hrec; set_solver.
Qed.

Lemma process_url_visited (url : string) (depth : Z) (st st' : McpServer.State)
    (r : McpServer.Raises (option McpServer.ContentExtraction)) :
  McpServer._process_url cfg env url depth st = (st', r) →
  match r with
  | McpServer.Return (Some c) =>
      McpServer.visited_urls st' = {[url]} ∪ McpServer.visited_urls st
      ∧ McpServer.ce_url c = url
  | _ => McpServer.visited_urls st' = McpServer.visited_urls st
         ∨ McpServer.visited_urls st' = {[url]} ∪ McpServer.visited_urls st
  end.
Proof. apply attempts_visited. Qed.

(** One iteration: what happens to the work list, the results and the
    visited set. *)
Lemma step_cases (s s' : McpServer.Loop) :
  McpServer.step cfg env s = Some s' →
  ∃ url depth rest,
    McpServer.queue s = (url, depth) :: rest
    ∧ Z.of_nat (size (McpServer.visited_urls (McpServer.st s))) < McpServer.max_pages cfg
    ∧ McpServer.popped s' = McpServer.popped s ++ [(url, depth)]
    ∧ ((McpServer.queue s' = rest
        ∧ McpServer.results s' = McpServer.results s
        ∧ (McpServer.visited_urls (McpServer.st s')
           = McpServer.visited_urls (McpServer.st s)
           ∨ (depth ≤ McpServer.max_depth cfg
              ∧ (url ∉ McpServer.visited_urls (McpServer.st s))
              ∧ McpServer.visited_urls (McpServer.st s')
                = {[url]} ∪ McpServer.visited_urls (McpServer.st s))))
       ∨ (depth ≤ McpServer.max_depth cfg
          ∧ (url ∉ McpServer.visited_urls (McpServer.st s))
          ∧ McpServer.visited_urls (McpServer.st s')
            = {[url]} ∪ McpServer.visited_urls (McpServer.st s)
          ∧ (∃ c, McpServer.results s' = McpServer.results s ++ [(c, depth)]
                  ∧ McpServer.ce_url c = url)
          ∧ (McpServer.queue s' = rest
             ∨ (depth < McpServer.max_depth cfg
                ∧ ∃ new, McpServer.queue s'
                         = rest ++ map (fun u => (u, depth + 1)) new)))).
Proof.
  unfold McpServer.step.
  destruct (McpServer.queue s) as [|[url depth] rest] eqn:Hq; [discriminate|].
  destruct (Z.ltb_spec (Z.of_nat (size (McpServer.visited_urls (McpServer.st s))))
              (McpServer.max_pages cfg)) as [Hroom|]; [|discriminate].
  simpl. intros Hstep. exists url, depth, rest.
  split; [reflexivity|]. split; [assumption|].
  destruct (Z.gtb_spec depth (McpServer.max_depth cfg)) as [|Hdepth];
    [injection Hstep as <-; simpl; auto 8|].
  case_bool_decide as Hvis; [injection Hstep as <-; simpl; auto 8|].
  simpl in Hstep. rewrite is_allowed_by_robots_true in Hstep. simpl in Hstep.
  destruct (McpServer._process_url cfg env url depth (McpServer.st s))
    as [st1 r] eqn:Hproc.
  apply process_url_visited in Hproc.
  destruct r as [[c|]|msg];
    try (injection Hstep as <-; simpl; split; [reflexivity|]; left;
         split; [reflexivity|]; split; [reflexivity|];
         destruct Hproc as [Hv|Hv]; [now left | right; auto]).
  destruct Hproc as [Hv Hc].
  assert (Hres : ∃ c0, McpServer.results s ++ [(c, depth)]
                       = McpServer.results s ++ [(c0, depth)]
                       ∧ McpServer.ce_url c0 = url) by eauto.
  destruct (Z.ltb_spec depth (McpServer.max_depth cfg)) as [Hlt|].
  - destruct (McpServer._filter_urls cfg st1 (McpServer.ce_links c)) as [new|];
      injection Hstep as <-; simpl; split; auto; right; repeat split; eauto.
  - injection Hstep as <-; simpl; split; auto; right; repeat split; auto.
Qed.

(** The visited set stays within the page budget and no result is deeper
    than [max_depth]. *)
Lemma reachable_bounds (s : McpServer.Loop) :
  0 ≤ McpServer.max_pages cfg →
  McpServer.reachable cfg env s →
  Z.of_nat (size (McpServer.visited_urls (McpServer.st s))) ≤ McpServer.max_pages cfg
  ∧ Forall (fun r => 0 ≤ snd r ≤ McpServer.max_depth cfg) (McpServer.results s)
  ∧ Forall (fun e => 0 ≤ snd e) (McpServer.queue s).
Proof.
  intros Hpages Hreach. induction Hreach as [|s s' Hreach (IHv & IHr & IHq) Hstep].
  - split; [change (Z.of_nat (size (∅ : gset string)) ≤ McpServer.max_pages cfg);
            rewrite size_empty; lia|].
    split; [constructor|]. simpl. repeat constructor. simpl. lia.
  - apply step_cases in Hstep
      as (url & depth & rest & Hq & Hroom & _ & [(Hq' & Hr' & Hv')|Hdone]).
    + rewrite Hq', Hr'. rewrite Hq in IHq. inversion IHq; subst.
      split; [|split; assumption].
      destruct Hv' as [->|(_ & Hnew & ->)]; [assumption|].
      rewrite size_union by set_solver. rewrite size_singleton. lia.
    + destruct Hdone as (Hdepth & Hnew & Hv' & (c & Hr' & _) & Hq').
      rewrite Hq in IHq. inversion IHq as [|? ? Hd0 Hrest]; subst. simpl in Hd0.
      rewrite Hv', Hr'. split; [|split].
      * rewrite size_union by set_solver. rewrite size_singleton. lia.
      * apply Forall_app. split; [assumption|]. repeat constructor; simpl; lia.
      * destruct Hq' as [->|(_ & new & ->)]; [assumption|].
        apply Forall_app. split; [assumption|].
        apply Forall_forall. intros e He. apply list_elem_of_In in He.
        apply in_map_iff in He as (u & <- & _). simpl. lia.
Qed.

Lemma sorted_sublist (l1 l2 : list Z) :
  l1 `sublist_of` l2 → StronglySorted Z.le l2 → StronglySorted Z.le l1.
Proof.
  induction 1 as [|x l1 l2 Hsub IH|x l1 l2 Hsub IH]; intros Hs.
  - constructor.
  - apply StronglySorted_cons in Hs as [Hx Hs]. apply StronglySorted_cons.
    split; [|auto]. apply Forall_forall. intros y Hy.
    eapply Forall_forall in Hx; [exact Hx|]. eapply elem_of_sublist; eassumption.
  - apply StronglySorted_cons in Hs as [_ Hs]. auto.
Qed.

(** The work list is consumed first-in first-out and stays sorted by
    depth. *)
Lemma reachable_fifo (s : McpServer.Loop) :
  McpServer.reachable cfg env s → fifo_inv s.
Proof.
  intros Hreach. induction Hreach as [|s s' Hreach (IHs & IHb & IHr) Hstep].
  - unfold fifo_inv, discovered. simpl. split; [repeat constructor|].
    split; [|constructor].
    intros e d [= <-] Hd. apply list_elem_of_singleton in Hd as ->. simpl. lia.
  - apply step_cases in Hstep as (url & depth & rest & Hq & _ & Hp & Hcases).
    unfold fifo_inv, discovered in *. rewrite Hq in IHs, IHb. rewrite Hp.
    rewrite map_app in IHs. simpl in IHs.
    apply StronglySorted_app in IHs as (Hcross & Hpop & Htail).
    apply StronglySorted_cons in Htail as [Hhd Htail].
    assert (Hrest : ∀ d, d ∈ map snd rest → depth ≤ d ≤ depth + 1).
    { intros d Hd. split.
      - eapply Forall_forall in Hhd; eauto.
      - apply (IHb (url, depth) d eq_refl). simpl. now right. }
    assert (Hpopped : ∀ d, d ∈ map snd (McpServer.popped s) → d ≤ depth).
    { intros d Hd. apply (Hcross d depth Hd). simpl. now left. }
    assert (Hsorted : ∀ tail,
              StronglySorted Z.le (map snd tail) →
              (∀ d, d ∈ map snd tail → depth ≤ d) →
              StronglySorted Z.le
                (map snd ((McpServer.popped s ++ [(url, depth)]) ++ tail))).
    { intros tail Hs Hge. rewrite !map_app. simpl.
      apply StronglySorted_app. split; [|split; [|assumption]].
      - intros x1 x2 Hx1 Hx2. apply Hge in Hx2.
        apply elem_of_app in Hx1 as [Hx1|Hx1].
        + apply Hpopped in Hx1. lia.
        + apply list_elem_of_singleton in Hx1 as ->. lia.
      - apply StronglySorted_app. split; [|split; [assumption | repeat constructor]].
        intros x1 x2 Hx1 Hx2. apply list_elem_of_singleton in Hx2 as ->. auto. }
    assert (Hbound : ∀ tail : list (string * Z),
              (∀ d, d ∈ map snd tail → depth ≤ d ≤ depth + 1) →
              ∀ e d, head tail = Some e → d ∈ map snd tail → d ≤ snd e + 1).
    { intros tail Hin e d Hhead Hd.
      assert (He : snd e ∈ map snd tail).
      { destruct tail as [|e0 t]; [discriminate|]. injection Hhead as ->.
        simpl. now left. }
      apply Hin in He. apply Hin in Hd. lia. }
    destruct Hcases as [(Hq' & Hr' & _)|(_ & _ & _ & (c & Hr' & Hc) & Hq')].
    + rewrite Hq', Hr'. split; [|split].
      * apply Hsorted; [assumption|]. intros d Hd. now apply Hrest.
      * now apply Hbound.
      * now apply sublist_inserts_r.
    + assert (Hres : map result_key (McpServer.results s')
                     `sublist_of` McpServer.popped s ++ [(url, depth)]).
      { rewrite Hr', map_app. apply sublist_app; [assumption|].
        unfold result_key. simpl. now rewrite Hc. }
      destruct Hq' as [->|(_ & new & ->)].
      * split; [|split; [|assumption]].
        -- apply Hsorted; [assumption|]. intros d Hd. now apply Hrest.
        -- now apply Hbound.
      * assert (Hnew : ∀ d, d ∈ map snd (rest ++ map (fun u => (u, depth + 1)) new) →
                            depth ≤ d ≤ depth + 1).
        { intros d Hd. rewrite map_app in Hd. apply elem_of_app in Hd as [Hd|Hd].
          - now apply Hrest.
          - rewrite map_map in Hd. apply list_elem_of_In in Hd.
            apply in_map_iff in Hd as (u & <- & _). simpl. lia. }
        split; [|split; [|assumption]].
        -- apply Hsorted; [|intros d Hd; now apply Hnew].
           rewrite map_app. apply StronglySorted_app. split; [|split; [assumption|]].
           ++ intros x1 x2 Hx1 Hx2. apply Hrest in Hx1.
              rewrite map_map in Hx2. apply list_elem_of_In in Hx2.
              apply in_map_iff in Hx2 as (u & <- & _). simpl. lia.
           ++ rewrite map_map. simpl. clear. induction new; simpl; constructor; auto.
              apply Forall_forall. intros d Hd. apply list_elem_of_In in Hd.
              apply in_map_iff in Hd as (u & <- & _). lia.
        -- now apply Hbound.
Qed.

End McpServerFacts.

(** ** The work-list crawler: the loop ends *)

Section McpServerRun.
Context `{PyLib} (cfg : McpServer.CrawlerConfig) (env : McpServer.Env).

Lemma run_reachable (fuel : nat) :
  ∀ s s', McpServer.run cfg env fuel s = Some s' →
          McpServer.reachable cfg env s →
          McpServer.reachable cfg env s' ∧ McpServer.step cfg env s' = None.
Proof.
  induction fuel as [|fuel IH]; intros s s'; simpl;
    destruct (McpServer.step cfg env s) as [s1|] eqn:Hstep;
    try discriminate; try (intros [= <-]; now auto).
  intros Hrun Hreach. apply (IH _ _ Hrun). econstructor; eassumption.
Qed.

(** Every iteration either marks a new page as visited, which the page
    budget allows finitely often, or shortens the work list: the loop
    ends. *)
Lemma run_terminates_from (m : nat) :
  ∀ n s,
    (Z.to_nat (McpServer.max_pages cfg
               - Z.of_nat (size (McpServer.visited_urls (McpServer.st s)))) ≤ m)%nat →
    (length (McpServer.queue s) ≤ n)%nat →
    ∃ fuel s', McpServer.run cfg env fuel s = Some s'.
Proof.
  induction m as [|m IHm]; intros n s Hm Hn.
  - exists 0%nat, s. simpl.
    destruct (McpServer.step cfg env s) as [s1|] eqn:Hstep; [|reflexivity].
    apply step_cases in Hstep as (? & ? & ? & _ & Hroom & _). lia.
  - revert s Hm Hn. induction n as [|n IHn]; intros s Hm Hn.
    + exists 0%nat, s. simpl.
      destruct (McpServer.step cfg env s) as [s1|] eqn:Hstep; [|reflexivity].
      apply step_cases in Hstep as (? & ? & ? & Hq & _). rewrite Hq in Hn.
      simpl in Hn. lia.
    + destruct (McpServer.step cfg env s) as [s1|] eqn:Hstep.
      * assert (Hnext : ∃ fuel s', McpServer.run cfg env fuel s1 = Some s').
        { apply step_cases in Hstep
            as (url & depth & rest & Hq & Hroom & _
                & [(Hq' & _ & [Hv'|(_ & Hnew & Hv')])|Hdone]).
          - apply IHn; [rewrite Hv'; exact Hm|].
            rewrite Hq'. rewrite Hq in Hn. simpl in Hn. lia.
          - apply (IHm (length (McpServer.queue s1))); [|lia].
            rewrite Hv'. rewrite size_union by set_solver.
            rewrite size_singleton. lia.
          - destruct Hdone as (_ & Hnew & Hv' & _).
            apply (IHm (length (McpServer.queue s1))); [|lia].
            rewrite Hv'. rewrite size_union by set_solver.
            rewrite size_singleton. lia. }
        destruct Hnext as (fuel & s' & Hrun).
        exists (S fuel), s'. simpl. now rewrite Hstep.
      * exists 0%nat, s. simpl. now rewrite Hstep.
Qed.

Lemma crawl_terminates :
  ∃ fuel rs, McpServer.crawl cfg env fuel = Some rs.
Proof.
  destruct (run_terminates_from _ _ (McpServer.init_loop cfg) (le_n _) (le_n _))
    as (fuel & s' & Hrun).
  exists fuel. unfold McpServer.crawl. rewrite Hrun. eauto.
Qed.

End McpServerRun.

(** ** Page budget and depth limit *)

(** C2. With a page budget of at least one page (the range of
    [max_pages]): at every point of a run of the work-list crawler the
    visited set has at most [max_pages] elements and every result was
    crawled at a depth of at most [max_depth]; a run of the recursive
    crawler ends with a visited set of at most [max_pages] elements,
    having yielded only pages of depth at most [max_depth]. *)
Theorem visited_and_depth_bounds `{PyLib}
    (pcfg : McpServer.CrawlerConfig) (env : McpServer.Env) (s : McpServer.Loop)
    (wcfg : Webcrawler.CrawlerConfig) (web : Webcrawler.Web) :
  1 ≤ McpServer.max_pages pcfg →
  1 ≤ Webcrawler.max_pages wcfg →
  McpServer.reachable pcfg env s →
  (Z.of_nat (size (McpServer.visited_urls (McpServer.st s))) ≤ McpServer.max_pages pcfg
   ∧ Forall (fun r => snd r ≤ McpServer.max_depth pcfg) (McpServer.results s))
  ∧ (∃ st ys o,
       Webcrawler.crawl wcfg web = Some (st, ys, o)
       ∧ Z.of_nat (size (Webcrawler.visited_urls st)) ≤ Webcrawler.max_pages wcfg
       ∧ Forall (fun y => Webcrawler.y_depth y ≤ Webcrawler.max_depth wcfg) ys).
Proof.
  intros Hp Hw Hreach. split.
  - destruct (reachable_bounds pcfg env s) as (Hv & Hr & _); [lia | assumption|].
    split; [assumption|]. eapply Forall_impl; [exact Hr|]. simpl. intros; lia.
  - unfold Webcrawler.crawl.
    destruct (crawl_page_total wcfg web (Webcrawler.fuel_for wcfg 0)
                (Webcrawler.start_url wcfg) 0 Webcrawler.init_state)
      as [[[st ys] o] Hrun]; [unfold Webcrawler.fuel_for; lia|].
    exists st, ys, o. split; [assumption|].
    apply crawl_page_inv in Hrun as [(_ & Hd & Hsz) _].
    split.
    + change (size (Webcrawler.visited_urls Webcrawler.init_state))
        with (size (∅ : gset string)) in Hsz.
      rewrite size_empty in Hsz. lia.
    + eapply Forall_impl; [exact Hd|]. simpl. intros; lia.
Qed.

(** The bounds at the end of a browser run over the example
    documentation site, and of the recursive crawl of the example tree. *)
Lemma visited_and_depth_bounds_witness :
  (∃ s, McpServer.run (Examples.pw_cfg "http://site.test/docs/" 2 10)
          (Examples.browse Examples.docs_site) 4
          (McpServer.init_loop (Examples.pw_cfg "http://site.test/docs/" 2 10))
        = Some s
        ∧ Z.of_nat (size (McpServer.visited_urls (McpServer.st s))) ≤ 10
        ∧ Forall (fun r => snd r ≤ 2) (McpServer.results s))
  ∧ (∃ st ys o,
       Webcrawler.crawl (Examples.web_cfg 2 10 false) (Examples.serve Examples.tree_site)
       = Some (st, ys, o)
       ∧ Z.of_nat (size (Webcrawler.visited_urls st)) ≤ 10
       ∧ Forall (fun y => Webcrawler.y_depth y ≤ 2) ys).
Proof.
  assert (Hpw : ∃ s, McpServer.run (Examples.pw_cfg "http://site.test/docs/" 2 10)
                       (Examples.browse Examples.docs_site) 4
                       (McpServer.init_loop (Examples.pw_cfg "http://site.test/docs/" 2 10))
                     = Some s).
  { eexists. vm_compute. reflexivity. }
  destruct Hpw as (s & Hpw).
  destruct (run_reachable _ _ _ _ _ Hpw (McpServer.reach_init _ _)) as [Hreach _].
  destruct (visited_and_depth_bounds
              (Examples.pw_cfg "http://site.test/docs/" 2 10)
              (Examples.browse Examples.docs_site) s
              (Examples.web_cfg 2 10 false) (Examples.serve Examples.tree_site))
    as [Hb Hw]; [simpl; lia | simpl; lia | assumption |].
  split; [exists s; split; assumption | exact Hw].
Defined.

(** ** Each page is requested once *)

(** In a run of the recursive crawler no page URL is requested twice. *)
Lemma crawl_fetches_nodup `{PyLib} (cfg : Webcrawler.CrawlerConfig)
    (web : Webcrawler.Web) (st : Webcrawler.State) (ys : list Webcrawler.Yield)
    (o : Webcrawler.Outcome) :
  Webcrawler.crawl cfg web = Some (st, ys, o) →
  NoDup (Webcrawler.page_fetches st).
Proof.
  intros Hrun. apply crawl_page_inv in Hrun as [((_ & new & Hreq & Hnd & _) & _) _].
  unfold Webcrawler.page_fetches. now rewrite Hreq.
Qed.

(** C1, on the work-list crawler.  The start page links to a page that is
    rejected by its content type and to a page that is accepted and links
    to the rejected page again: the browser navigates to the rejected
    page twice, because only accepted pages enter the visited set. *)
Theorem rejected_page_is_fetched_twice :
  ∃ s, McpServer.run (Examples.pw_cfg "http://site.test/docs/" 2 10)
         (Examples.browse Examples.docs_site) 4
         (McpServer.init_loop (Examples.pw_cfg "http://site.test/docs/" 2 10))
       = Some s
       ∧ McpServer.gotos (McpServer.st s)
         = ["http://site.test/docs/"; "http://site.test/blog";
            "http://site.test/docs/a"; "http://site.test/blog"]
       ∧ ¬ NoDup (McpServer.gotos (McpServer.st s)).
Proof.
  eexists. split; [vm_compute; reflexivity|]. split; [reflexivity|].
  vm_compute. intros Hnd.
  apply NoDup_cons in Hnd as [_ Hnd]. apply NoDup_cons in Hnd as [Hnotin _].
  apply Hnotin. right. left.
Qed.

(** ** Order of traversal *)

(** On a site whose start page links to [/a] and [/b], and [/a] to [/c],
    the recursive crawler yields [/c] (depth 2) before [/b] (depth 1). *)
Lemma recursive_crawl_is_not_breadth_first :
  ∃ st ys,
    Webcrawler.crawl (Examples.web_cfg 2 10 false) (Examples.serve Examples.tree_site)
    = Some (st, ys, Webcrawler.Returned)
    ∧ map (fun y => (Webcrawler.y_url y, Webcrawler.y_depth y)) ys
      = [("http://site.test/", 0); ("http://site.test/a", 1);
         ("http://site.test/c", 2); ("http://site.test/b", 1)]
    ∧ ¬ StronglySorted Z.le (map Webcrawler.y_depth ys).
Proof.
  eexists _, _. split; [vm_compute; reflexivity|]. split; [reflexivity|].
  simpl. intros Hs.
  apply StronglySorted_cons in Hs as [_ Hs].
  apply StronglySorted_cons in Hs as [_ Hs].
  apply StronglySorted_cons in Hs as [Hle _].
  apply Forall_cons in Hle as [Hle _]. lia.
Qed.

Lemma sublist_map {A B : Type} (f : A → B) (l1 l2 : list A) :
  l1 `sublist_of` l2 → map f l1 `sublist_of` map f l2.
Proof. induction 1; simpl; constructor; assumption. Qed.

(** One iteration takes the first entry off the work list and appends
    the new entries at its end. *)
Lemma step_fifo `{PyLib} (cfg : McpServer.CrawlerConfig) (env : McpServer.Env)
    (s s' : McpServer.Loop) :
  McpServer.step cfg env s = Some s' →
  ∃ e rest new,
    McpServer.queue s = e :: rest
    ∧ McpServer.popped s' = McpServer.popped s ++ [e]
    ∧ McpServer.queue s' = rest ++ new
    ∧ discovered s' = discovered s ++ new.
Proof.
  intros Hstep.
  apply step_cases in Hstep as (url & depth & rest & Hq & _ & Hp & Hcases).
  assert (Hnew : ∃ new, McpServer.queue s' = rest ++ new).
  { destruct Hcases as [(-> & _)|(_ & _ & _ & _ & [->|(_ & new & ->)])];
      [exists [] | exists [] | eauto]; now rewrite app_nil_r. }
  destruct Hnew as (new & Hq').
  exists (url, depth), rest, new. repeat split; try assumption.
  unfold discovered. rewrite Hp, Hq, Hq'. now rewrite <- !app_assoc.
Qed.

(** C3, as amended.  The work-list crawler is first-in first-out: at
    every point of a run the depths of the results are non-decreasing,
    the results are a sub-sequence of the entries in the order in which
    they were put on the work list, those entries are sorted by depth,
    and an iteration takes the oldest entry and appends new ones at the
    end.  The recursive crawler yields the page of a call first and only
    deeper pages after it. *)
Theorem traversal_order `{PyLib}
    (pcfg : McpServer.CrawlerConfig) (env : McpServer.Env) (s : McpServer.Loop)
    (wcfg : Webcrawler.CrawlerConfig) (web : Webcrawler.Web) (fuel : nat)
    (url : string) (depth : Z) (st st' : Webcrawler.State)
    (ys : list Webcrawler.Yield) (o : Webcrawler.Outcome) :
  McpServer.reachable pcfg env s →
  Webcrawler.crawl_page fuel wcfg web url depth st = Some (st', ys, o) →
  (StronglySorted Z.le (map snd (McpServer.results s))
   ∧ map result_key (McpServer.results s) `sublist_of` discovered s
   ∧ StronglySorted Z.le (map snd (discovered s))
   ∧ (∀ s', McpServer.step pcfg env s = Some s' →
        ∃ e rest new,
          McpServer.queue s = e :: rest
          ∧ McpServer.popped s' = McpServer.popped s ++ [e]
          ∧ McpServer.queue s' = rest ++ new
          ∧ discovered s' = discovered s ++ new))
  ∧ (ys = [] ∨ ∃ y rest, ys = y :: rest ∧ Webcrawler.y_url y = url
                         ∧ Webcrawler.y_depth y = depth
                         ∧ Forall (fun y' => depth < Webcrawler.y_depth y') rest).
Proof.
  intros Hreach Hcall. split.
  - destruct (reachable_fifo pcfg env s Hreach) as (Hsorted & _ & Hsub).
    assert (Hsub' : map result_key (McpServer.results s) `sublist_of` discovered s).
    { unfold discovered. now apply sublist_inserts_r. }
    split; [|split; [assumption|split; [assumption|]]].
    + apply (sorted_sublist _ (map snd (discovered s))); [|assumption].
      replace (map snd (McpServer.results s))
        with (map snd (map result_key (McpServer.results s)))
        by (rewrite map_map; reflexivity).
      now apply sublist_map.
    + intros s'. apply step_fifo.
  - now apply crawl_page_inv in Hcall as [_ Hhead].
Qed.

(** The order of the results of a browser run over the example
    documentation site, and of the recursive crawl of the example tree. *)
Lemma traversal_order_witness :
  (∃ s, McpServer.run (Examples.pw_cfg "http://site.test/docs/" 2 10)
          (Examples.browse Examples.docs_site) 4
          (McpServer.init_loop (Examples.pw_cfg "http://site.test/docs/" 2 10))
        = Some s
        ∧ StronglySorted Z.le (map snd (McpServer.results s))
        ∧ map result_key (McpServer.results s) `sublist_of` discovered s)
  ∧ ∃ st' ys,
      Webcrawler.crawl (Examples.web_cfg 2 10 false) (Examples.serve Examples.tree_site)
      = Some (st', ys, Webcrawler.Returned)
      ∧ (ys = [] ∨ ∃ y rest, ys = y :: rest ∧ Webcrawler.y_url y = "http://site.test/"
                             ∧ Webcrawler.y_depth y = 0
                             ∧ Forall (fun y' => 0 < Webcrawler.y_depth y') rest).
Proof.
  assert (Hweb : ∃ st' ys,
             Webcrawler.crawl (Examples.web_cfg 2 10 false)
               (Examples.serve Examples.tree_site)
             = Some (st', ys, Webcrawler.Returned)).
  { eexists _, _. vm_compute. reflexivity. }
  assert (Hpw : ∃ s, McpServer.run (Examples.pw_cfg "http://site.test/docs/" 2 10)
                       (Examples.browse Examples.docs_site) 4
                       (McpServer.init_loop (Examples.pw_cfg "http://site.test/docs/" 2 10))
                     = Some s).
  { eexists. vm_compute. reflexivity. }
  destruct Hweb as (st' & ys & Hweb). destruct Hpw as (s & Hpw).
  destruct (run_reachable _ _ _ _ _ Hpw (McpServer.reach_init _ _)) as [Hreach _].
  destruct (traversal_order _ _ s _ _ _ _ _ _ _ _ _ Hreach Hweb)
    as ((Hres & Hsub & _) & Hhead).
  split; [exists s; repeat split; assumption|].
  exists st', ys. split; assumption.
Defined.

(** ** Retries *)

Section Retries.
Context `{PyLib} (cfg : McpServer.CrawlerConfig) (env : McpServer.Env).







Lemma attempts_raise (n : nat) (attempt : Z) (url : string) (st : McpServer.State)
    (msg : string) :
  McpServer.goto env (length (McpServer.trace st)) url = McpServer.LoadRaises msg →
  McpServer.attempts cfg env (S n) attempt url st
  = if attempt =? McpServer.retry_attempts cfg - 1
    then (McpServer.log (McpServer.EvGoto url) st, McpServer.Raise msg)
    else McpServer.attempts cfg env n (attempt + 1) url
           (McpServer.log (McpServer.EvSleep (backoff cfg (attempt + 1)))
              (McpServer.log (McpServer.EvGoto url) st)).
Proof. intros Hg. simpl. now rewrite Hg. Qed.


Lemma gotos_log (e : McpServer.Event) (st : McpServer.State) :
  McpServer.gotos (McpServer.log e st)
  = McpServer.gotos st ++ omap McpServer.goto_of [e].
Proof. unfold McpServer.gotos, McpServer.log. cbn [McpServer.trace]. apply omap_app. Qed.

Lemma gotos_store (path body : string) (st : McpServer.State) :
  McpServer.gotos (McpServer.store path body st) = McpServer.gotos st.
Proof. reflexivity. Qed.

Lemma download_asset_gotos (url : string) (st : McpServer.State) :
  McpServer.gotos (fst (McpServer._download_asset cfg env url st))
  = McpServer.gotos st.
Proof.
  unfold McpServer._download_asset.
  repeat match goal with
         | |- context [match ?x with _ => _ end] => destruct x
         end;
    simpl; rewrite ?gotos_store, ?gotos_log; simpl;
    rewrite ?gotos_store, ?gotos_log; simpl;
    rewrite ?gotos_store, ?gotos_log; simpl;
    rewrite ?gotos_store, ?gotos_log; simpl;
    now rewrite ?app_nil_r.
Qed.

Lemma download_all_gotos (urls : list string) :
  ∀ st assets,
    McpServer.gotos (fst (McpServer.download_all cfg env urls st assets))
    = McpServer.gotos st.
Proof.
  induction urls as [|url rest IH]; intros st assets; simpl; [reflexivity|].
  pose proof (download_asset_gotos url st) as Hd.
  destruct (McpServer._download_asset cfg env url st) as [st1 [[a|]|msg]]; simpl in Hd;
    rewrite IH; exact Hd.
Qed.

Lemma process_assets_gotos (refs : option (list string)) (st : McpServer.State) :
  McpServer.gotos (fst (McpServer._process_assets cfg env refs st))
  = McpServer.gotos st.
Proof. destruct refs; simpl; [apply download_all_gotos | reflexivity]. Qed.


End Retries.



(** C6, over a whole run.  The start page links to a page whose every
    navigation raises and to a page that loads and links to the failing
    page again.  The failing page is taken off the work list, given
    three navigations and left out of the visited set; the second link
    to it puts it on the work list again, and it is given three more
    navigations in the same run. *)
Theorem failed_page_is_enqueued_again :
  ∃ s, McpServer.run (Examples.pw_cfg "http://site.test/docs/" 2 10)
         (Examples.browse Examples.relinked_site) 4
         (McpServer.init_loop (Examples.pw_cfg "http://site.test/docs/" 2 10))
       = Some s
       ∧ McpServer.step (Examples.pw_cfg "http://site.test/docs/" 2 10)
           (Examples.browse Examples.relinked_site) s = None
       ∧ McpServer.popped s
         = [("http://site.test/docs/", 0); ("http://site.test/docs/gone", 1);
            ("http://site.test/docs/a", 1); ("http://site.test/docs/gone", 2)]
       ∧ McpServer.gotos (McpServer.st s)
         = ["http://site.test/docs/"]
           ++ replicate 3 "http://site.test/docs/gone"
           ++ ["http://site.test/docs/a"]
           ++ replicate 3 "http://site.test/docs/gone"
       ∧ McpServer.sleeps (McpServer.st s) = [1%float; 2%float; 1%float; 2%float]
       ∧ result_urls s = ["http://site.test/docs/"; "http://site.test/docs/a"]
       ∧ ("http://site.test/docs/gone" ∉ McpServer.visited_urls (McpServer.st s)).
Proof.
  eexists. split; [vm_compute; reflexivity|].
  split; [reflexivity|]. split; [reflexivity|]. split; [reflexivity|].
  split; [reflexivity|]. split; [reflexivity|].
  vm_compute. set_solver.
Qed.

(** ** Assets *)

Lemma trace_log_length (e : McpServer.Event) (st : McpServer.State) :
  length (McpServer.trace (McpServer.log e st)) = S (length (McpServer.trace st)).
Proof. unfold McpServer.log. simpl. rewrite length_app. simpl. lia. Qed.


Lemma return_asset_valid `{PyLib} (url : string) (a : McpServer.Asset) :
  http_url_error (McpServer.a_url a) = None →
  McpServer.return_asset url a = McpServer.Return (Some a).
Proof.
  intros Hurl. unfold McpServer.return_asset, McpServer.new_asset. now rewrite Hurl.
Qed.

Lemma failed_asset_invalid `{PyLib} (url msg e : string) :
  http_url_error url = Some e →
  McpServer.except_clause url msg
  = McpServer.Raise (validation_error "Asset" [("url", e)]).
Proof.
  intros Hurl. unfold McpServer.except_clause, McpServer.failed_asset, McpServer.new_asset.
  simpl. now rewrite Hurl.
Qed.

Lemma return_asset_invalid `{PyLib} (url e : string) (a : McpServer.Asset) :
  McpServer.a_url a = url →
  http_url_error url = Some e →
  McpServer.return_asset url a
  = McpServer.Raise (validation_error "Asset" [("url", e)]).
Proof.
  intros Ha Hurl. unfold McpServer.return_asset, McpServer.new_asset.
  rewrite Ha, Hurl. now apply failed_asset_invalid.
Qed.

Lemma extraction_errors_valid `{PyLib} (url : string) (links : list string) :
  http_url_error url = None →
  Forall (fun link => http_url_error link = None) links →
  McpServer.extraction_errors url links = [].
Proof.
  intros Hurl Hlinks. unfold McpServer.extraction_errors. rewrite Hurl. simpl.
  assert (Hsnd : ∀ (i : nat) (link : string), snd (i, link) = link) by reflexivity.
  revert Hsnd. generalize (@pair nat string). intros f.
  induction Hlinks as [|link links Hlink _ IH] in f |- *; intros Hsnd; [reflexivity|].
  simpl. rewrite Hsnd, Hlink. apply IH. intros i l. apply Hsnd.
Qed.

Lemma new_extraction_valid `{PyLib} (c : McpServer.ContentExtraction) :
  http_url_error (McpServer.ce_url c) = None →
  Forall (fun link => http_url_error link = None) (McpServer.ce_links c) →
  McpServer.new_extraction c = McpServer.Return c.
Proof.
  intros Hurl Hlinks. unfold McpServer.new_extraction.
  now rewrite extraction_errors_valid.
Qed.




(** ** URL normalisation *)

(** C10. When the URL resolves and parses: [normalize_url] returns
    [None] exactly when the resolved URL has no scheme, or no network
    location, or a network location that ends with none of the allowed
    domains; otherwise it returns scheme, "://", network location and
    path, without parameters, query and fragment.  Hence two references
    whose resolved URLs agree in scheme, network location and path
    normalise identically. *)
Theorem normalize_url_result `{PyLib} (cfg : Webcrawler.CrawlerConfig)
    (url base_url full_url : string) (parsed : Urllib.ParseResult) :
  urljoin base_url url = Some full_url →
  urlparse full_url = Some parsed →
  (Webcrawler.normalize_url cfg url base_url = None
   ↔ Urllib.scheme parsed = "" ∨ Urllib.netloc parsed = ""
     ∨ Webcrawler.is_allowed_domain cfg full_url = Some false)
  ∧ (Webcrawler.is_allowed_domain cfg full_url
     = Some (existsb (fun domain => PyStr.endswith (Urllib.netloc parsed) domain)
                     (Webcrawler.allowed_domains cfg)))
  ∧ (Webcrawler.normalize_url cfg url base_url ≠ None →
     Webcrawler.normalize_url cfg url base_url
     = Some (Urllib.scheme parsed +:+ "://" +:+ Urllib.netloc parsed
             +:+ Urllib.path parsed))
  ∧ (∀ url' base_url' full_url' parsed',
       urljoin base_url' url' = Some full_url' →
       urlparse full_url' = Some parsed' →
       Urllib.scheme parsed' = Urllib.scheme parsed →
       Urllib.netloc parsed' = Urllib.netloc parsed →
       Urllib.path parsed' = Urllib.path parsed →
       Webcrawler.normalize_url cfg url' base_url'
       = Webcrawler.normalize_url cfg url base_url).
Proof.
  intros Hjoin Hparse.
  assert (Hnorm : ∀ u b f p,
            urljoin b u = Some f → urlparse f = Some p →
            Webcrawler.normalize_url cfg u b
            = if negb (PyStr.nonempty (Urllib.scheme p)
                       && PyStr.nonempty (Urllib.netloc p))
              then None
              else if existsb (fun domain => PyStr.endswith (Urllib.netloc p) domain)
                        (Webcrawler.allowed_domains cfg)
                   then Some (Urllib.scheme p +:+ "://" +:+ Urllib.netloc p
                              +:+ Urllib.path p)
                   else None).
  { intros u b f p Hj Hp. unfold Webcrawler.normalize_url, Webcrawler.is_allowed_domain.
    rewrite Hj, Hp. destruct (negb _); [reflexivity|]. now destruct (existsb _ _). }
  assert (Hdom : Webcrawler.is_allowed_domain cfg full_url
                 = Some (existsb (fun domain => PyStr.endswith (Urllib.netloc parsed) domain)
                           (Webcrawler.allowed_domains cfg))).
  { unfold Webcrawler.is_allowed_domain. now rewrite Hparse. }
  rewrite (Hnorm _ _ _ _ Hjoin Hparse), Hdom.
  split; [|split; [reflexivity|split]].
  - destruct (Urllib.scheme parsed) as [|c sch]; simpl; [tauto|].
    destruct (Urllib.netloc parsed) as [|c' loc]; simpl; [tauto|].
    destruct (existsb _ _); split; try congruence; try tauto.
    intros [?|[?|?]]; congruence.
  - destruct (negb _); [congruence|]. destruct (existsb _ _); congruence.
  - intros url' base' full' parsed' Hj' Hp' Hs Hn Hpa.
    rewrite (Hnorm _ _ _ _ Hj' Hp'). now rewrite Hs, Hn, Hpa.
Qed.

(** Two links that differ in query and fragment only. *)
Lemma normalize_url_result_witness :
  Webcrawler.normalize_url (Examples.web_cfg 2 10 false) "/a;v=1?x=1#top"
    "http://site.test/index"
  = Some "http://site.test/a"
  ∧ Webcrawler.normalize_url (Examples.web_cfg 2 10 false) "a?y=2" "http://site.test/"
    = Webcrawler.normalize_url (Examples.web_cfg 2 10 false) "/a;v=1?x=1#top"
        "http://site.test/index"
  ∧ (Webcrawler.normalize_url (Examples.web_cfg 2 10 false) "http://other.test/a"
       "http://site.test/"
     = None).
Proof.
  destruct (normalize_url_result (H := model_lib) (Examples.web_cfg 2 10 false) "/a;v=1?x=1#top"
              "http://site.test/index" "http://site.test/a;v=1?x=1#top"
              {| Urllib.scheme := "http"; Urllib.netloc := "site.test";
                 Urllib.path := "/a"; Urllib.params := "v=1";
                 Urllib.query := "x=1"; Urllib.fragment := "top" |}
              eq_refl eq_refl)
    as (_ & _ & Hsome & Hsame).
  destruct (normalize_url_result (H := model_lib) (Examples.web_cfg 2 10 false) "http://other.test/a"
              "http://site.test/" "http://other.test/a"
              {| Urllib.scheme := "http"; Urllib.netloc := "other.test";
                 Urllib.path := "/a"; Urllib.params := "";
                 Urllib.query := ""; Urllib.fragment := "" |}
              eq_refl eq_refl)
    as (Hnone & _).
  split; [|split].
  - apply Hsome. vm_compute. discriminate.
  - apply (Hsame "a?y=2" "http://site.test/" "http://site.test/a?y=2"
             {| Urllib.scheme := "http"; Urllib.netloc := "site.test";
                Urllib.path := "/a"; Urllib.params := "";
                Urllib.query := "y=2"; Urllib.fragment := "" |}
             eq_refl eq_refl); reflexivity.
  - apply Hnone. right. right. reflexivity.
Defined.

(** ** The library model: splitting and joining strings *)

Lemma str_app_assoc (a b c : string) : (a +:+ b) +:+ c = a +:+ (b +:+ c).
Proof. induction a as [|x a IH]; str_simpl; [reflexivity | now rewrite IH]. Qed.

Lemma str_app_nil_r (a : string) : a +:+ "" = a.
Proof. induction a as [|x a IH]; str_simpl; [reflexivity | now rewrite IH]. Qed.

Lemma all_chars_app (P : ascii → bool) (a b : string) :
  UrllibModel.all_chars P (a +:+ b)
  = UrllibModel.all_chars P a && UrllibModel.all_chars P b.
Proof.
  induction a as [|x a IH]; str_simpl; simpl; [reflexivity|].
  rewrite IH. now rewrite andb_assoc.
Qed.

Lemma all_chars_impl (P Q : ascii → bool) (s : string) :
  (∀ c, P c = true → Q c = true) →
  UrllibModel.all_chars P s = true → UrllibModel.all_chars Q s = true.
Proof.
  intros HPQ. induction s as [|x s IH]; simpl; [reflexivity|].
  intros Hs. apply andb_prop in Hs as [Hx Hs]. now rewrite (HPQ _ Hx), IH.
Qed.

Lemma lacks_app (c : ascii) (a b : string) :
  lacks c (a +:+ b) ↔ lacks c a ∧ lacks c b.
Proof.
  unfold lacks. induction a as [|x a IH]; str_simpl; simpl; [tauto|].
  destruct (Ascii.eqb x c); [|exact IH]. split; [discriminate | intros [? _]; discriminate].
Qed.

Lemma lacks_all_chars (P : ascii → bool) (c : ascii) (s : string) :
  P c = false → UrllibModel.all_chars P s = true → lacks c s.
Proof.
  intros Hc. unfold lacks. induction s as [|x s IH]; simpl; [reflexivity|].
  intros Hs. apply andb_prop in Hs as [Hx Hs].
  destruct (Ascii.eqb_spec x c) as [->|_]; [congruence | auto].
Qed.

Lemma partition_some (c : ascii) (s h t : string) :
  PyStr.partition c s = (h, Some t) → s = h +:+ String c t ∧ lacks c h.
Proof.
  unfold lacks. revert h. induction s as [|x s IH]; intros h; simpl; [discriminate|].
  destruct (Ascii.eqb_spec x c) as [->|Hne].
  - intros [= <- <-]. split; reflexivity.
  - destruct (PyStr.partition c s) as [h' t'] eqn:E. intros [= <- ->].
    destruct (IH h' eq_refl) as [-> Hh]. split; [reflexivity|].
    simpl. destruct (Ascii.eqb_spec x c); [contradiction | assumption].
Qed.

Lemma partition_none (c : ascii) (s h : string) :
  PyStr.partition c s = (h, None) → s = h ∧ lacks c s.
Proof.
  unfold lacks. revert h. induction s as [|x s IH]; intros h; simpl.
  - intros [= <-]. split; reflexivity.
  - destruct (Ascii.eqb_spec x c) as [->|Hne]; [discriminate|].
    destruct (PyStr.partition c s) as [h' t'] eqn:E. intros [= <- ->].
    destruct (IH h' eq_refl) as [-> Hh]. split; [reflexivity | assumption].
Qed.

Lemma partition_lacks (c : ascii) (s : string) :
  lacks c s → PyStr.partition c s = (s, None).
Proof.
  unfold lacks. induction s as [|x s IH]; simpl; [reflexivity|].
  destruct (Ascii.eqb x c); [discriminate|]. intros Hs. now rewrite IH.
Qed.

Lemma partition_app (c : ascii) (h t : string) :
  lacks c h → PyStr.partition c (h +:+ String c t) = (h, Some t).
Proof.
  unfold lacks. induction h as [|x h IH]; str_simpl; simpl.
  - intros _. now rewrite Ascii.eqb_refl.
  - destruct (Ascii.eqb x c); [discriminate|]. intros Hh. now rewrite IH.
Qed.

Lemma cut_spec (c : ascii) (s h t : string) :
  UrllibModel.cut c s = (h, t) → lacks c h ∧ ∃ r, s = h +:+ r.
Proof.
  unfold UrllibModel.cut. destruct (PyStr.partition c s) as [h' [t'|]] eqn:E;
    intros [= <- <-].
  - apply partition_some in E as [-> Hh]. eauto.
  - apply partition_none in E as [<- Hh]. split; [assumption|].
    exists "". now rewrite str_app_nil_r.
Qed.

Lemma cut_lacks (c : ascii) (s : string) :
  lacks c s → UrllibModel.cut c s = (s, "").
Proof. intros Hs. unfold UrllibModel.cut. now rewrite partition_lacks. Qed.

Lemma span_until_spec (P : ascii → bool) (s h t : string) :
  UrllibModel.span_until P s = (h, t) →
  s = h +:+ t ∧ UrllibModel.all_chars (fun c => negb (P c)) h = true ∧ starts_with P t.
Proof.
  revert h. induction s as [|x s IH]; intros h; simpl.
  - intros [= <- <-]. repeat split.
  - destruct (P x) eqn:Hx.
    + intros [= <- <-]. repeat split. exact Hx.
    + destruct (UrllibModel.span_until P s) as [h' t'] eqn:E. intros [= <- ->].
      destruct (IH h' eq_refl) as (-> & Hh & Ht). repeat split; [|assumption].
      simpl. now rewrite Hx.
Qed.

Lemma span_until_app (P : ascii → bool) (h t : string) :
  UrllibModel.all_chars (fun c => negb (P c)) h = true → starts_with P t →
  UrllibModel.span_until P (h +:+ t) = (h, t).
Proof.
  intros Hh Ht. induction h as [|x h IH]; str_simpl; simpl in *.
  - destruct t as [|c t]; simpl in *; [reflexivity | now rewrite Ht].
  - apply andb_prop in Hh as [Hx Hh]. apply negb_true_iff in Hx. rewrite Hx.
    now rewrite IH.
Qed.

Lemma rsplit_slash_spec (s d l : string) :
  UrllibModel.rsplit_slash s = (d, l) →
  s = d +:+ l ∧ lacks "/" l ∧ (d = "" ∨ ∃ d', d = d' +:+ "/").
Proof.
  unfold lacks. revert d l. induction s as [|x s IH]; intros d l; simpl.
  - intros [= <- <-]. repeat split. now left.
  - destruct (UrllibModel.rsplit_slash s) as [d' l'] eqn:E.
    destruct (IH d' l' eq_refl) as (-> & Hl & Hd).
    destruct d' as [|y d'].
    + destruct (Ascii.eqb_spec x "/") as [->|Hne]; intros [= <- <-].
      * repeat split; [assumption|]. right. now exists "".
      * str_simpl. repeat split; [|now left]. simpl.
        destruct (Ascii.eqb_spec x "/"); [contradiction | assumption].
    + intros [= <- <-]. repeat split; [assumption|]. right.
      destruct Hd as [Hd|[d'' Hd]]; [discriminate|].
      exists (String x d''). str_simpl. now rewrite Hd.
Qed.

Lemma rsplit_slash_lacks (l : string) :
  lacks "/" l → UrllibModel.rsplit_slash l = ("", l).
Proof.
  unfold lacks. induction l as [|y l IHl]; simpl; [reflexivity|].
  destruct (Ascii.eqb_spec y "/") as [|Hne]; [discriminate|].
  intros Hl. now rewrite (IHl Hl).
Qed.

Lemma rsplit_slash_dir (d l : string) :
  lacks "/" l → UrllibModel.rsplit_slash ((d +:+ "/") +:+ l) = (d +:+ "/", l).
Proof.
  intros Hl. induction d as [|x d IH]; str_simpl.
  - simpl. now rewrite (rsplit_slash_lacks l Hl).
  - simpl. rewrite IH. destruct (d +:+ "/") eqn:E; [|reflexivity].
    destruct d; str_simpl; discriminate.
Qed.

Lemma rsplit_slash_app (d l : string) :
  lacks "/" l → (d = "" ∨ ∃ d', d = d' +:+ "/") →
  UrllibModel.rsplit_slash (d +:+ l) = (d, l).
Proof.
  intros Hl [->|[d' ->]].
  - now apply rsplit_slash_lacks.
  - now apply rsplit_slash_dir.
Qed.

(** ** The library model: what a parsed URL looks like *)

Ltac ascii_cases c := destruct c as [[] [] [] [] [] [] [] []].

Lemma lower_ascii_idem (c : ascii) :
  PyStr.lower_ascii (PyStr.lower_ascii c) = PyStr.lower_ascii c.
Proof. ascii_cases c; reflexivity. Qed.

Lemma lower_idem (s : string) : PyStr.lower (PyStr.lower s) = PyStr.lower s.
Proof.
  induction s as [|c s IH]; simpl; [reflexivity|].
  now rewrite lower_ascii_idem, IH.
Qed.

Lemma is_alpha_lower (c : ascii) :
  UrllibModel.is_alpha c = true → UrllibModel.is_alpha (PyStr.lower_ascii c) = true.
Proof. ascii_cases c; vm_compute; congruence. Qed.

Lemma scheme_char_lower (c : ascii) :
  UrllibModel.scheme_char c = true →
  UrllibModel.scheme_char (PyStr.lower_ascii c) = true.
Proof. ascii_cases c; vm_compute; congruence. Qed.

Lemma scheme_char_safe (c : ascii) :
  UrllibModel.scheme_char c = true → negb (UrllibModel.unsafe c) = true.
Proof. ascii_cases c; vm_compute; congruence. Qed.

Lemma scheme_char_not_colon (c : ascii) :
  UrllibModel.scheme_char c = true → Ascii.eqb c ":" = false.
Proof. ascii_cases c; vm_compute; congruence. Qed.

Lemma alpha_not_c0 (c : ascii) :
  UrllibModel.is_alpha c = true → UrllibModel.c0_or_space c = false.
Proof. ascii_cases c; vm_compute; congruence. Qed.

Lemma delim_cases (c : ascii) :
  UrllibModel.is_delim c = true →
  Ascii.eqb c "#" = false → Ascii.eqb c "?" = false → Ascii.eqb "/" c = true.
Proof. ascii_cases c; vm_compute; congruence. Qed.

Lemma all_chars_lower (s : string) :
  UrllibModel.all_chars UrllibModel.scheme_char s = true →
  UrllibModel.all_chars UrllibModel.scheme_char (PyStr.lower s) = true.
Proof.
  induction s as [|c s IH]; simpl; [reflexivity|].
  intros Hs. apply andb_prop in Hs as [Hc Hs]. now rewrite scheme_char_lower, IH.
Qed.

Lemma safe_app (a b : string) : safe (a +:+ b) ↔ safe a ∧ safe b.
Proof. unfold safe. rewrite all_chars_app. apply andb_true_iff. Qed.

Lemma safe_remove_unsafe (s : string) : safe (UrllibModel.remove_unsafe s).
Proof.
  unfold safe. induction s as [|c s IH]; simpl; [reflexivity|].
  destruct (UrllibModel.unsafe c) eqn:Hc; [assumption|]. simpl. now rewrite Hc.
Qed.

Lemma remove_unsafe_safe (s : string) : safe s → UrllibModel.remove_unsafe s = s.
Proof.
  unfold safe. induction s as [|c s IH]; simpl; [reflexivity|].
  intros Hs. apply andb_prop in Hs as [Hc Hs]. apply negb_true_iff in Hc.
  now rewrite Hc, IH.
Qed.

Lemma safe_sanitize (s : string) : safe (UrllibModel.sanitize s).
Proof. apply safe_remove_unsafe. Qed.

(** A prefix inherits the properties used below. *)
Lemma prefix_props (u p r : string) :
  u = p +:+ r →
  (∀ c, lacks c u → lacks c p) ∧ (safe u → safe p)
  ∧ (∀ P, starts_with P u → starts_with P p).
Proof.
  intros ->. split; [|split].
  - intros c Hc. now apply lacks_app in Hc as [Hp _].
  - intros Hs. now apply safe_app in Hs as [Hp _].
  - intros P. destruct p; str_simpl; simpl; auto.
Qed.

Lemma split_scheme_spec (x sc u1 : string) :
  UrllibModel.split_scheme "" x = (sc, u1) → sc ≠ "" → safe x →
  (∃ c sch, sc = String c sch ∧ UrllibModel.is_alpha c = true)
  ∧ UrllibModel.all_chars UrllibModel.scheme_char sc = true
  ∧ PyStr.lower sc = sc
  ∧ safe u1.
Proof.
  unfold UrllibModel.split_scheme.
  destruct (PyStr.partition ":" x) as [h [t|]] eqn:E;
    [|destruct h; intros [= <- <-]; congruence].
  destruct h as [|c h]; [intros [= <- <-]; congruence|].
  destruct (UrllibModel.is_alpha c && UrllibModel.all_chars UrllibModel.scheme_char
                                        (String c h)) eqn:Hok;
    [|intros [= <- <-]; congruence].
  apply andb_prop in Hok as [Halpha Hchars].
  intros [= <- <-] _ Hsafe.
  apply partition_some in E as [-> _].
  split; [|split; [|split]].
  - simpl. eexists _, _. split; [reflexivity|]. now apply is_alpha_lower.
  - now apply (all_chars_lower (String c h)).
  - apply (lower_idem (String c h)).
  - apply safe_app in Hsafe as [_ Hsafe]. unfold safe in *. simpl in Hsafe.
    exact Hsafe.
Qed.

Lemma split_netloc_spec (u1 nl u2 : string) :
  UrllibModel.split_netloc u1 = (nl, u2) → nl ≠ "" → safe u1 →
  UrllibModel.all_chars (fun c => negb (UrllibModel.is_delim c)) nl = true
  ∧ safe nl ∧ safe u2 ∧ starts_with UrllibModel.is_delim u2.
Proof.
  unfold UrllibModel.split_netloc.
  destruct (PyStr.startswith u1 "//") eqn:Hs; [|intros [= <- <-]; congruence].
  apply startswith_spec in Hs as [t ->]. str_simpl. simpl.
  intros Hspan _ Hsafe. apply span_until_spec in Hspan as (-> & Hnl & Hu2).
  unfold safe in Hsafe. simpl in Hsafe. fold (safe (nl +:+ u2)) in Hsafe.
  apply safe_app in Hsafe as [Hsnl Hsu2]. auto.
Qed.

(** The parts of a parsed URL with scheme and network location are well
    formed. *)
Lemma urlparse_wf (s : string) (p : Urllib.ParseResult) :
  UrllibModel.urlparse s = Some p →
  Urllib.scheme p ≠ "" → Urllib.netloc p ≠ "" →
  wf_parts (Urllib.scheme p) (Urllib.netloc p) (Urllib.path p).
Proof.
  unfold UrllibModel.urlparse, UrllibModel.urlparse_with, UrllibModel.urlsplit.
  change (UrllibModel.remove_unsafe (PyStr.rstrip (UrllibModel.lstrip_c0 ""))) with "".
  pose proof (safe_sanitize s) as Hx.
  destruct (UrllibModel.split_scheme "" (UrllibModel.sanitize s)) as [sc u1] eqn:Es.
  destruct (UrllibModel.split_netloc u1) as [nl u2] eqn:En.
  destruct (UrllibModel.brackets_mismatch nl) eqn:Eb; [discriminate|].
  destruct (UrllibModel.cut "#" u2) as [u3 frag] eqn:Ef.
  destruct (UrllibModel.cut "?" u3) as [u4 q] eqn:Eq.
  intros Hparse Hsc Hnl.
  assert (Hparts : Urllib.scheme p = sc ∧ Urllib.netloc p = nl
                   ∧ ((Urllib.path p = u4
                       ∧ (PyStr.has_char ";" u4 = true →
                          UrllibModel._splitparams u4 = (u4, "")
                          ∨ UrllibModel.mem sc UrllibModel.uses_params = false))
                      ∨ ∃ d h t, u4 = (d +:+ h) +:+ String ";" t
                                 ∧ Urllib.path p = d +:+ h
                                 ∧ lacks "/" h ∧ lacks ";" h
                                 ∧ (d = "" ∨ ∃ d', d = d' +:+ "/"))).
  { destruct (UrllibModel.mem sc UrllibModel.uses_params && PyStr.has_char ";" u4)
      eqn:Ep.
    - unfold UrllibModel._splitparams in *.
      destruct (UrllibModel.rsplit_slash u4) as [d l] eqn:Er.
      apply rsplit_slash_spec in Er as (Hu4 & Hl & Hd).
      destruct (PyStr.partition ";" l) as [h [t|]] eqn:El;
        injection Hparse as <-; simpl; repeat split.
      + right. apply partition_some in El as [-> Hh].
        apply lacks_app in Hl as [Hl _].
        exists d, h, t. rewrite str_app_assoc. auto.
      + left. split; [reflexivity|]. intros _. now left.
    - injection Hparse as <-; simpl; repeat split. left. split; [reflexivity|].
      intros Hsemi. right. rewrite Hsemi, andb_true_r in Ep. exact Ep. }
  destruct Hparts as (Hsc' & Hnl' & Hpath). rewrite Hsc', Hnl' in *. clear Hparse.
  apply split_scheme_spec in Es as (Hc & Hchars & Hlow & Hu1); [|assumption..].
  apply split_netloc_spec in En as (Hdel & Hsnl & Hsu2 & Hstart); [|assumption..].
  apply cut_spec in Ef as (Hhash & r3 & Hu2).
  apply cut_spec in Eq as (Hquest & r4 & Hu3).
  destruct (prefix_props u3 u4 r4 Hu3) as (Hlack4 & _ & _).
  destruct (prefix_props u2 u4 (r4 +:+ r3)) as (_ & Hsafe4 & Hstart4).
  { rewrite Hu2, Hu3. apply str_app_assoc. }
  assert (Hslash : starts_with (Ascii.eqb "/") u4).
  { specialize (Hstart4 _ Hstart). specialize (Hlack4 "#"%char Hhash).
    destruct u4 as [|c u4]; [exact I|]. simpl in *. unfold lacks in *. simpl in *.
    destruct (Ascii.eqb c "#") eqn:E1; [discriminate|].
    destruct (Ascii.eqb c "?") eqn:E2; [discriminate|].
    now apply delim_cases. }
  unfold wf_parts. repeat split; try assumption.
  - destruct Hpath as [[-> _]|(d & h & t & Hu4 & -> & _)]; [now apply Hlack4|].
    destruct (prefix_props u4 (d +:+ h) (String ";" t) Hu4) as (Hl & _ & _). auto.
  - destruct Hpath as [[-> _]|(d & h & t & Hu4 & -> & _)]; [assumption|].
    destruct (prefix_props u4 (d +:+ h) (String ";" t) Hu4) as (Hl & _ & _). auto.
  - destruct Hpath as [[-> _]|(d & h & t & Hu4 & -> & _)]; [auto|].
    destruct (prefix_props u4 (d +:+ h) (String ";" t) Hu4) as (_ & Hs & _). auto.
  - destruct Hpath as [[-> _]|(d & h & t & Hu4 & -> & _)]; [assumption|].
    destruct (prefix_props u4 (d +:+ h) (String ";" t) Hu4) as (_ & _ & Hs). auto.
  - destruct Hpath as [[-> Hstable]|(d & h & t & Hu4 & -> & Hh & Hsemi & Hd)];
      [exact Hstable|].
    intros _. left. unfold UrllibModel._splitparams.
    rewrite (rsplit_slash_app d h Hh Hd). now rewrite (partition_lacks ";" h Hsemi).
Qed.

(** ** The library model: parsing a normalised URL again *)

Lemma lstrip_c0_alpha (c : ascii) (s : string) :
  UrllibModel.is_alpha c = true → UrllibModel.lstrip_c0 (String c s) = String c s.
Proof. intros Hc. simpl. now rewrite (alpha_not_c0 c Hc). Qed.

Lemma mem_relative_netloc (s : string) :
  UrllibModel.mem s UrllibModel.uses_relative = true →
  UrllibModel.mem s UrllibModel.uses_netloc = true.
Proof.
  unfold UrllibModel.mem. intros Hs. apply existsb_exists in Hs as (x & Hin & Hx).
  apply String.eqb_eq in Hx as <-.
  simpl in Hin. repeat (destruct Hin as [<-|Hin]; [reflexivity|]). destruct Hin.
Qed.

Lemma startswith_nil (s : string) : PyStr.startswith s "" = true.
Proof. now destruct s. Qed.

Section ParseAgain.
Variables scheme netloc path : string.
Hypothesis Hwf : wf_parts scheme netloc path.

Let out : string := scheme +:+ "://" +:+ netloc +:+ path.

Lemma out_safe : safe out.
Proof.
  destruct Hwf as (_ & Hchars & _ & _ & _ & Hnl & _ & _ & _ & Hpa & _).
  unfold out. apply safe_app. split.
  - unfold safe. eapply all_chars_impl; [|exact Hchars]. apply scheme_char_safe.
  - apply safe_app. split; [reflexivity|]. now apply safe_app.
Qed.

Lemma out_sanitize : UrllibModel.sanitize out = out.
Proof.
  unfold UrllibModel.sanitize.
  destruct Hwf as ((c & sch & Hsc & Halpha) & _).
  assert (Hstrip : UrllibModel.lstrip_c0 out = out).
  { unfold out. rewrite Hsc. str_simpl. now apply lstrip_c0_alpha. }
  rewrite Hstrip. apply remove_unsafe_safe, out_safe.
Qed.

Lemma out_split_scheme (default : string) :
  UrllibModel.split_scheme default out = (scheme, "//" +:+ netloc +:+ path).
Proof.
  destruct Hwf as ((c & sch & Hsc & Halpha) & Hchars & Hlow & _).
  unfold UrllibModel.split_scheme.
  assert (Hpart : PyStr.partition ":" out
                  = (scheme, Some ("//" +:+ netloc +:+ path))).
  { unfold out. change ("://" +:+ netloc +:+ path)
      with (String ":" ("//" +:+ netloc +:+ path)).
    apply partition_app. eapply lacks_all_chars; [|exact Hchars]. reflexivity. }
  rewrite Hpart. rewrite Hsc in *. rewrite Halpha, Hchars. simpl andb. cbv iota.
  now rewrite Hlow.
Qed.

Lemma out_split_netloc :
  UrllibModel.split_netloc ("//" +:+ netloc +:+ path) = (netloc, path).
Proof.
  destruct Hwf as (_ & _ & _ & Hdel & _ & _ & _ & _ & _ & _ & Hstart & _).
  unfold UrllibModel.split_netloc. str_simpl. simpl. rewrite startswith_nil.
  apply span_until_app; [assumption|].
  destruct path as [|c p]; [exact I|]. cbn [starts_with] in *.
  apply Ascii.eqb_eq in Hstart as <-. reflexivity.
Qed.

(** The normalised string parses into the three parts it was made of. *)
Lemma out_urlparse (default : string) :
  UrllibModel.urlparse_with default out
  = Some {| Urllib.scheme := scheme; Urllib.netloc := netloc; Urllib.path := path;
            Urllib.params := ""; Urllib.query := ""; Urllib.fragment := "" |}.
Proof.
  unfold UrllibModel.urlparse_with, UrllibModel.urlsplit.
  rewrite out_sanitize, out_split_scheme, out_split_netloc.
  destruct Hwf as (_ & _ & _ & _ & _ & _ & Hbr & Hhash & Hquest & _ & _ & Hparams).
  rewrite Hbr, (cut_lacks "#" path Hhash), (cut_lacks "?" path Hquest).
  destruct (PyStr.has_char ";" path) eqn:Hsemi.
  - destruct (Hparams eq_refl) as [Hsp|Hmem].
    + rewrite Hsp. now destruct (UrllibModel.mem scheme UrllibModel.uses_params).
    + now rewrite Hmem.
  - now rewrite andb_false_r.
Qed.

Lemma out_urlunparse :
  UrllibModel.urlunparse scheme netloc path "" "" "" = out.
Proof.
  destruct Hwf as ((c & sch & Hsc & _) & _ & _ & _ & Hnl & _ & _ & _ & _ & _ & Hstart & _).
  unfold UrllibModel.urlunparse, UrllibModel.urlunsplit. simpl.
  destruct netloc as [|c' nl]; [congruence|]. simpl.
  assert (Hpath : (if PyStr.nonempty path && negb (PyStr.startswith path "/")
                   then "/" +:+ path else path) = path).
  { destruct path as [|x p]; [reflexivity|]. cbn [starts_with] in *.
    apply Ascii.eqb_eq in Hstart as <-. simpl. now destruct p. }
  rewrite Hpath, Hsc. simpl. unfold out. rewrite Hsc. str_simpl. reflexivity.
Qed.

#[local] Opaque UrllibModel.mem.

(** Resolving the normalised string against a base that parses (or is
    empty) gives the string back. *)
Lemma out_urljoin (base : string) :
  base = "" ∨ (∃ b, UrllibModel.urlparse_with "" base = Some b) →
  UrllibModel.urljoin base out = Some out.
Proof.
  intros Hbase. unfold UrllibModel.urljoin.
  destruct base as [|c0 base0]; [reflexivity|]. simpl PyStr.nonempty. cbv iota. simpl negb.
  cbv iota.
  destruct Hbase as [Hb|[b Hb]]; [discriminate|].
  assert (Hne : PyStr.nonempty out = true).
  { destruct Hwf as ((c & sch & Hsc & _) & _). unfold out. rewrite Hsc. reflexivity. }
  rewrite Hne. simpl negb. cbv iota. rewrite Hb, out_urlparse.
  cbn [Urllib.scheme Urllib.netloc Urllib.path Urllib.params Urllib.query
       Urllib.fragment].
  destruct (negb (scheme =? Urllib.scheme b)%string
            || negb (UrllibModel.mem scheme UrllibModel.uses_relative)) eqn:Hdiff;
    [reflexivity|].
  apply orb_false_elim in Hdiff as [_ Hrel]. apply negb_false_iff in Hrel.
  rewrite (mem_relative_netloc _ Hrel).
  destruct Hwf as (_ & _ & _ & _ & Hnl & _).
  assert (Hnet : PyStr.nonempty netloc = true) by (now destruct netloc).
  rewrite Hnet. cbn [andb]. now rewrite out_urlunparse.
Qed.

#[local] Transparent UrllibModel.mem.

End ParseAgain.

(** The model of the library meets the contract. *)
Lemma model_roundtrip : @urllib_roundtrip model_lib.
Proof.
  intros base url full parsed Hjoin Hparse Hsc Hnl.
  pose proof (urlparse_wf full parsed Hparse Hsc Hnl) as Hwf.
  assert (Hbase : base = "" ∨ ∃ b, UrllibModel.urlparse_with "" base = Some b).
  { simpl in Hjoin. unfold UrllibModel.urljoin in Hjoin.
    destruct base as [|c base]; [now left|]. right.
    destruct url as [|c' url].
    - injection Hjoin as <-. eauto.
    - cbn [PyStr.nonempty negb] in Hjoin.
      destruct (UrllibModel.urlparse_with "" (String c base)); [eauto | discriminate]. }
  eexists _, _. split; [apply (out_urljoin _ _ _ Hwf _ Hbase)|].
  split; [apply (out_urlparse _ _ _ Hwf "")|]. repeat split.
Qed.

(** C9. For a library that meets [urllib_roundtrip]: whenever
    [normalize_url] of a reference against a base is defined, normalising
    its result against the same base returns the result itself. *)
Theorem normalize_url_idempotent `{PyLib} (cfg : Webcrawler.CrawlerConfig)
    (url base_url normalized : string) :
  urllib_roundtrip →
  Webcrawler.normalize_url cfg url base_url = Some normalized →
  Webcrawler.normalize_url cfg normalized base_url = Some normalized.
Proof.
  intros Hlib Hnorm. unfold Webcrawler.normalize_url in Hnorm.
  destruct (urljoin base_url url) as [full|] eqn:Hjoin; [|discriminate].
  destruct (urlparse full) as [parsed|] eqn:Hparse; [|discriminate].
  destruct (Urllib.scheme parsed) as [|c sch] eqn:Hsc; [discriminate|].
  destruct (Urllib.netloc parsed) as [|c' loc] eqn:Hnl; [discriminate|].
  cbn [PyStr.nonempty andb negb] in Hnorm.
  unfold Webcrawler.is_allowed_domain in Hnorm. rewrite Hparse, Hnl in Hnorm.
  destruct (existsb _ (Webcrawler.allowed_domains cfg)) eqn:Hdom; [|discriminate].
  injection Hnorm as <-.
  destruct (Hlib base_url url full parsed Hjoin Hparse)
    as (full' & parsed' & Hjoin' & Hparse' & Hs' & Hn' & Hp');
    [rewrite Hsc; discriminate | rewrite Hnl; discriminate|].
  rewrite Hsc, Hnl in *.
  unfold Webcrawler.normalize_url, Webcrawler.is_allowed_domain.
  rewrite Hjoin', Hparse', Hs', Hn', Hp'. cbn [PyStr.nonempty andb negb].
  now rewrite Hdom.
Qed.

(** The normal form of a link with parameters, query and fragment is its
    own normal form. *)
Lemma normalize_url_idempotent_witness :
  Webcrawler.normalize_url (Examples.web_cfg 2 10 false) "/a;v=1?x=1#top"
    "http://site.test/index"
  = Some "http://site.test/a"
  ∧ Webcrawler.normalize_url (Examples.web_cfg 2 10 false) "http://site.test/a"
      "http://site.test/index"
    = Some "http://site.test/a".
Proof.
  split; [reflexivity|].
  apply (normalize_url_idempotent (H := model_lib) (Examples.web_cfg 2 10 false)
           "/a;v=1?x=1#top" "http://site.test/index" "http://site.test/a"
           model_roundtrip).
  reflexivity.
Defined.

(** ** The recursive crawler: robots.txt over a whole run *)

Lemma str_length_app (a b : string) :
  String.length (a +:+ b) = (String.length a + String.length b)%nat.
Proof. induction a as [|c a IH]; str_simpl; simpl; [reflexivity | now rewrite IH]. Qed.

Lemma str_app_inv_tail (a b t : string) : a +:+ t = b +:+ t → a = b.
Proof.
  revert b. induction a as [|c a IH]; intros b Heq.
  - destruct b as [|c b]; [reflexivity|].
    apply (f_equal String.length) in Heq. rewrite !str_length_app in Heq.
    simpl in Heq. lia.
  - destruct b as [|c' b].
    + apply (f_equal String.length) in Heq. rewrite !str_length_app in Heq.
      simpl in Heq. lia.
    + str_simpl. injection Heq as -> Heq. f_equal. now apply IH.
Qed.

Lemma robots_url_inj (d d' : string) :
  Webcrawler.robots_url d = Webcrawler.robots_url d' → d = d'.
Proof.
  unfold Webcrawler.robots_url. intros Heq. str_simpl.
  injection Heq as Heq. now apply str_app_inv_tail in Heq.
Qed.

Section WebcrawlerRobots.
Context `{PyLib} (cfg : Webcrawler.CrawlerConfig) (web : Webcrawler.Web).

Lemma run_post_refl (st : Webcrawler.State) : run_post cfg st st [].
Proof.
  split; [auto|]. exists []. rewrite app_nil_r. simpl.
  repeat split; try constructor; intros;
    match goal with H : _ ∈ [] |- _ => now apply not_elem_of_nil in H end.
Qed.

Lemma run_post_trans (a b c : Webcrawler.State) (ys1 ys2 : list Webcrawler.Yield) :
  run_post cfg a b ys1 → run_post cfg b c ys2 → run_post cfg a c (ys1 ++ ys2).
Proof.
  intros (M1 & n1 & E1 & S1 & R1 & N1 & F1 & A1) (M2 & n2 & E2 & S2 & R2 & N2 & F2 & A2).
  split; [auto|]. exists (n1 ++ n2).
  split; [rewrite E2, E1; now rewrite app_assoc|].
  unfold Webcrawler.pages_of, robots_of in *. rewrite !omap_app, map_app.
  split; [now apply sublist_app|]. split; [|split; [|split]].
  - intros u Hu. apply elem_of_app in Hu as [Hu|Hu].
    + destruct (R1 u Hu) as (d & -> & Hnone & [rc Hrc]).
      exists d. repeat split; [assumption|]. exists rc. auto.
    + destruct (R2 u Hu) as (d & -> & Hnone & Hsome).
      exists d. repeat split; [|assumption].
      destruct (Webcrawler.robots_cache a !! d) as [rc|] eqn:Ha; [|reflexivity].
      apply M1 in Ha. congruence.
  - apply NoDup_app. split; [assumption|]. split; [|assumption].
    intros u Hu1 Hu2.
    destruct (R1 u Hu1) as (d & -> & _ & [rc Hrc]).
    destruct (R2 _ Hu2) as (d' & Heq & Hnone & _).
    apply robots_url_inj in Heq as <-. congruence.
  - intros Hoff. now rewrite F1, F2.
  - intros Hrespect u Hu. apply elem_of_app in Hu as [Hu|Hu].
    + destruct (A1 Hrespect u Hu) as (p & rc & Hp & Hrc & Hal). eauto 6.
    + auto.
Qed.

(** [fetch_robots_txt] asks the network only for a domain without
    cached policy, and the policy it returns is the cached one. *)
Lemma fetch_robots_txt_post (domain : string) (st st1 : Webcrawler.State)
    (rc : Webcrawler.RobotsConfig) :
  Webcrawler.fetch_robots_txt cfg web domain st = (rc, st1) →
  Webcrawler.robots_cache st1 !! domain = Some rc
  ∧ Webcrawler.visited_urls st1 = Webcrawler.visited_urls st
  ∧ (∀ d rc', Webcrawler.robots_cache st !! d = Some rc' →
              Webcrawler.robots_cache st1 !! d = Some rc')
  ∧ ∃ new, Webcrawler.requests st1 = Webcrawler.requests st ++ new
           ∧ Webcrawler.pages_of new = []
           ∧ NoDup (robots_of new)
           ∧ ∀ u, u ∈ robots_of new →
                  ∃ d, u = Webcrawler.robots_url d
                       ∧ Webcrawler.robots_cache st !! d = None
                       ∧ is_Some (Webcrawler.robots_cache st1 !! d).
Proof.
  unfold Webcrawler.fetch_robots_txt.
  destruct (Webcrawler.robots_cache st !! domain) as [cached|] eqn:Hc;
    intros [= <- <-]; simpl.
  - repeat split; auto. exists []. rewrite app_nil_r.
    repeat split; [constructor|]. intros u Hu. now apply not_elem_of_nil in Hu.
  - split; [apply lookup_insert_eq|]. split; [reflexivity|]. split.
    + intros d rc' Hd. rewrite lookup_insert_ne; [assumption|]. congruence.
    + eexists. split; [reflexivity|]. split; [reflexivity|]. simpl.
      split; [apply NoDup_singleton|].
      intros u Hu. apply list_elem_of_singleton in Hu as ->.
      exists domain. repeat split; [assumption|]. rewrite lookup_insert_eq. eauto.
Qed.

Lemma crawl_links_run_post
    (rec : string → Webcrawler.State → option Webcrawler.Result) :
  (∀ link s s' ys o, rec link s = Some (s', ys, o) → run_post cfg s s' ys) →
  ∀ links st out st' ys o,
    Webcrawler.crawl_links cfg rec links st out = Some (st', ys, o) →
    ∃ ys', ys = out ++ ys' ∧ run_post cfg st st' ys'.
Proof.
  intros Hrec links. induction links as [|link rest IH]; intros st out st' ys o; simpl.
  - intros [= <- <- <-]. exists []. rewrite app_nil_r. split; [reflexivity|].
    apply run_post_refl.
  - destruct (_ >=? _).
    + intros [= <- <- <-]. exists []. rewrite app_nil_r. split; [reflexivity|].
      apply run_post_refl.
    + destruct (rec link st) as [[[s1 ys1] o1]|] eqn:Erec; [|discriminate].
      apply Hrec in Erec. destruct o1.
      * intros Hloop. apply IH in Hloop as (ys' & -> & Hpost).
        exists (ys1 ++ ys'). rewrite app_assoc. split; [reflexivity|].
        eapply run_post_trans; eassumption.
      * intros [= <- <- <-]. eauto.
Qed.

Lemma crawl_page_run_post (fuel : nat) :
  ∀ url depth st st' ys o,
    Webcrawler.crawl_page fuel cfg web url depth st = Some (st', ys, o) →
    run_post cfg st st' ys.
Proof.
  induction fuel as [|fuel IH]; intros url depth st st' ys o; simpl; [discriminate|].
  destruct (depth >? Webcrawler.max_depth cfg);
    [intros [= <- <- <-]; apply run_post_refl|].
  case_bool_decide; [intros [= <- <- <-]; apply run_post_refl|].
  set (st0 := {| Webcrawler.visited_urls := {[url]} ∪ Webcrawler.visited_urls st;
                 Webcrawler.robots_cache := Webcrawler.robots_cache st;
                 Webcrawler.requests := Webcrawler.requests st |}).
  (* the robots check *)
  assert (Hgate : ∀ st1 gate,
            Webcrawler.robots_gate cfg web url st0 = (st1, gate) →
            run_post cfg st st1 []
            ∧ (gate = Some true → Webcrawler.respect_robots_txt cfg = true →
               ∃ parsed rc,
                 urlparse url = Some parsed
                 ∧ Webcrawler.robots_cache st1 !! Urllib.netloc parsed = Some rc
                 ∧ Webcrawler.is_allowed rc url = Some true)).
  { intros st1 gate. unfold Webcrawler.robots_gate.
    destruct (Webcrawler.respect_robots_txt cfg) eqn:Hrespect.
    - destruct (urlparse url) as [parsed|].
      + destruct (Webcrawler.fetch_robots_txt cfg web (Urllib.netloc parsed) st0)
          as [rc st'0] eqn:E.
        intros [= <- <-].
        apply fetch_robots_txt_post in E as (Hrc & _ & Hmono & new & Hreq & Hpages & Hnd & Hnew).
        split; [|intros Hal _; eauto].
        split; [exact Hmono|]. exists new. rewrite Hpages.
        repeat split; auto using sublist_nil_l; [congruence|].
        intros _ u Hu. now apply not_elem_of_nil in Hu.
      + intros [= <- <-]. split; [apply (run_post_refl st)|discriminate].
    - intros [= <- <-]. split; [apply (run_post_refl st)|discriminate]. }
  destruct (Webcrawler.robots_gate cfg web url st0) as [st1 gate] eqn:Egate.
  destruct (Hgate st1 gate eq_refl) as [Hpost1 Hallowed].
  destruct gate as [[|]|]; try (intros [= <- <- <-]; exact Hpost1).
  set (st2 := {| Webcrawler.visited_urls := Webcrawler.visited_urls st1;
                 Webcrawler.robots_cache := Webcrawler.robots_cache st1;
                 Webcrawler.requests :=
                   Webcrawler.requests st1 ++ [Webcrawler.ReqPage url] |}).
  assert (Hpage : ∀ ys0, map Webcrawler.y_url ys0 `sublist_of` [url] →
                         run_post cfg st st2 ys0).
  { intros ys0 Hys0.
    replace ys0 with ([] ++ ys0) by reflexivity.
    apply (run_post_trans st st1 st2); [exact Hpost1|].
    split; [auto|]. exists [Webcrawler.ReqPage url]. simpl.
    repeat split; auto using NoDup_nil_2.
    - intros u Hu. now apply not_elem_of_nil in Hu.
    - intros Hrespect u Hu. apply list_elem_of_singleton in Hu as ->. auto. }
  destruct (web (length (Webcrawler.requests st1)) url) as [r|];
    [|intros [= <- <- <-]; apply Hpage, sublist_nil_l].
  destruct (negb (Webcrawler.status r =? 200));
    [intros [= <- <- <-]; apply Hpage, sublist_nil_l|].
  intros Hloop. apply (crawl_links_run_post _) in Hloop as (ys' & -> & Hpost).
  - eapply run_post_trans; [|exact Hpost]. apply Hpage. simpl. reflexivity.
  - intros link s s' ys0 o0 Hcall. now apply IH in Hcall.
Qed.

End WebcrawlerRobots.

(** ** The recursive crawler: a whole run *)

Lemma nodup_length_le_size (l : list string) (X : gset string) :
  NoDup l → (∀ u, u ∈ l → u ∈ X) → (length l ≤ size X)%nat.
Proof.
  intros Hnd Hsub. rewrite <- (size_list_to_set (C := gset string) l Hnd).
  apply subseteq_size. intros u Hu. apply elem_of_list_to_set in Hu. auto.
Qed.

(** A run of [crawl] ends, and its result satisfies both run
    invariants, taken from the fresh instance. *)
Lemma crawl_run `{PyLib} (cfg : Webcrawler.CrawlerConfig) (web : Webcrawler.Web) :
  ∃ st ys o,
    Webcrawler.crawl cfg web = Some (st, ys, o)
    ∧ crawl_post cfg 0 Webcrawler.init_state st ys
    ∧ run_post cfg Webcrawler.init_state st ys.
Proof.
  unfold Webcrawler.crawl.
  destruct (crawl_page_total cfg web (Webcrawler.fuel_for cfg 0)
              (Webcrawler.start_url cfg) 0 Webcrawler.init_state)
    as [[[st ys] o] Hrun]; [unfold Webcrawler.fuel_for; lia|].
  exists st, ys, o. split; [assumption|]. split.
  - now apply crawl_page_inv in Hrun as [Hpost _].
  - now apply crawl_page_run_post in Hrun.
Qed.

(** X1. A run of the recursive crawler ends, and at its end: no page was
    requested twice; the pages yielded are pairwise distinct and are
    among the pages requested, in the order of the requests; every page
    requested is in the visited set; and at most [max_pages] pages were
    yielded, or one when [max_pages] is below one. *)
Theorem crawl_yields_distinct_requested_pages `{PyLib}
    (cfg : Webcrawler.CrawlerConfig) (web : Webcrawler.Web) :
  ∃ st ys o,
    Webcrawler.crawl cfg web = Some (st, ys, o)
    ∧ NoDup (Webcrawler.page_fetches st)
    ∧ map Webcrawler.y_url ys `sublist_of` Webcrawler.page_fetches st
    ∧ NoDup (map Webcrawler.y_url ys)
    ∧ (∀ u, u ∈ Webcrawler.page_fetches st → u ∈ Webcrawler.visited_urls st)
    ∧ Z.of_nat (length ys) ≤ Z.max 1 (Webcrawler.max_pages cfg).
Proof.
  destruct (crawl_run cfg web)
    as (st & ys & o & Hrun & ((_ & new & Hreq & Hnd & Hvis) & _ & Hsize)
        & (_ & new' & Hreq' & Hsub & _)).
  simpl in Hreq, Hreq'. rewrite Hreq in Hreq'. subst new'.
  exists st, ys, o. unfold Webcrawler.page_fetches. rewrite Hreq.
  split; [assumption|]. split; [assumption|].
  split; [assumption|]. split; [eapply sublist_NoDup; eassumption|].
  split; [intros u Hu; now apply Hvis|].
  change (size (Webcrawler.visited_urls Webcrawler.init_state))
    with (size (∅ : gset string)) in Hsize.
  rewrite size_empty in Hsize.
  apply sublist_length in Hsub. rewrite length_map in Hsub.
  pose proof (nodup_length_le_size _ (Webcrawler.visited_urls st) Hnd
                (fun u Hu => proj2 (Hvis u Hu))).
  lia.
Qed.

(** X2. In a run of the recursive crawler no robots.txt URL is requested
    twice: each one requested is the robots.txt of a domain whose policy
    is cached at the end of the run.  When robots.txt is not respected,
    none is requested. *)
Theorem robots_txt_requested_once_per_domain `{PyLib}
    (cfg : Webcrawler.CrawlerConfig) (web : Webcrawler.Web) :
  ∃ st ys o,
    Webcrawler.crawl cfg web = Some (st, ys, o)
    ∧ NoDup (robots_of (Webcrawler.requests st))
    ∧ (∀ u, u ∈ robots_of (Webcrawler.requests st) →
            ∃ d, u = Webcrawler.robots_url d
                 ∧ is_Some (Webcrawler.robots_cache st !! d))
    ∧ (Webcrawler.respect_robots_txt cfg = false →
       robots_of (Webcrawler.requests st) = []).
Proof.
  destruct (crawl_run cfg web)
    as (st & ys & o & Hrun & _ & (_ & new & Hreq & _ & Hrob & Hnd & Hoff & _)).
  simpl in Hreq. exists st, ys, o. rewrite Hreq.
  split; [assumption|]. split; [assumption|]. split; [|assumption].
  intros u Hu. destruct (Hrob u Hu) as (d & -> & _ & Hsome). eauto.
Qed.

(** X3. When robots.txt is respected, every page the recursive crawler
    requests is allowed by the policy cached for the domain of its URL:
    in particular no disallowed path of that policy is a prefix of the
    path of the URL. *)
Theorem requested_pages_are_allowed `{PyLib}
    (cfg : Webcrawler.CrawlerConfig) (web : Webcrawler.Web)
    (st : Webcrawler.State) (ys : list Webcrawler.Yield) (o : Webcrawler.Outcome)
    (u : string) :
  Webcrawler.respect_robots_txt cfg = true →
  Webcrawler.crawl cfg web = Some (st, ys, o) →
  u ∈ Webcrawler.page_fetches st →
  ∃ parsed rc,
    urlparse u = Some parsed
    ∧ Webcrawler.robots_cache st !! Urllib.netloc parsed = Some rc
    ∧ Webcrawler.is_allowed rc u = Some true
    ∧ ¬ some_prefix (Webcrawler.disallowed_paths rc) (Urllib.path parsed).
Proof.
  intros Hrespect Hrun Hu.
  apply crawl_page_run_post in Hrun as (_ & new & Hreq & _ & _ & _ & _ & Hal).
  unfold Webcrawler.page_fetches in Hu. simpl in Hreq. rewrite Hreq in Hu.
  destruct (Hal Hrespect u Hu) as (parsed & rc & Hparse & Hrc & Hallowed).
  exists parsed, rc. repeat split; try assumption.
  intros Hprefix. apply existsb_startswith in Hprefix.
  unfold Webcrawler.is_allowed in Hallowed. rewrite Hparse in Hallowed.
  simpl in Hallowed. rewrite Hprefix in Hallowed. discriminate.
Qed.

(** On the example site whose robots.txt disallows [/private/], the
    public page is requested and satisfies the policy. *)
Lemma requested_pages_are_allowed_witness :
  ∃ st ys o,
    Webcrawler.crawl (Examples.web_cfg 2 10 true) (Examples.serve Examples.robots_site)
    = Some (st, ys, o)
    ∧ "http://site.test/public/page" ∈ Webcrawler.page_fetches st
    ∧ ∃ parsed rc,
        urlparse "http://site.test/public/page" = Some parsed
        ∧ Webcrawler.robots_cache st !! Urllib.netloc parsed = Some rc
        ∧ Webcrawler.is_allowed rc "http://site.test/public/page" = Some true
        ∧ ¬ some_prefix (Webcrawler.disallowed_paths rc) (Urllib.path parsed).
Proof.
  assert (Hrun : ∃ st ys o,
             Webcrawler.crawl (Examples.web_cfg 2 10 true)
               (Examples.serve Examples.robots_site) = Some (st, ys, o)
             ∧ "http://site.test/public/page" ∈ Webcrawler.page_fetches st).
  { do 3 eexists. split; [vm_compute; reflexivity|]. vm_compute. set_solver. }
  destruct Hrun as (st & ys & o & Hrun & Hin).
  exists st, ys, o. split; [exact Hrun|]. split; [exact Hin|].
  exact (requested_pages_are_allowed (Examples.web_cfg 2 10 true)
           (Examples.serve Examples.robots_site) st ys o
           "http://site.test/public/page" eq_refl Hrun Hin).
Defined.

(** ** The robots.txt parser and letter case *)

Lemma lower_case_cons (c : ascii) (s : string) :
  lower_case (String c s) ↔ PyStr.lower_ascii c = c ∧ lower_case s.
Proof.
  unfold lower_case. simpl. split.
  - intros [= Hc Hs]. auto.
  - intros [-> ->]. reflexivity.
Qed.

Lemma lower_case_lstrip (s : string) : lower_case s → lower_case (PyStr.lstrip s).
Proof.
  induction s as [|c s IH]; simpl; [auto|].
  intros Hs. destruct (PyStr.is_space c); [|assumption].
  apply lower_case_cons in Hs as [_ Hs]. auto.
Qed.

Lemma lower_case_rstrip (s : string) : lower_case s → lower_case (PyStr.rstrip s).
Proof.
  induction s as [|c s IH]; simpl; [auto|].
  intros Hs. apply lower_case_cons in Hs as [Hc Hs]. specialize (IH Hs).
  destruct (PyStr.rstrip s) as [|c' r].
  - destruct (PyStr.is_space c); [reflexivity|]. now apply lower_case_cons.
  - now apply lower_case_cons.
Qed.

Lemma lower_case_after_first (c : ascii) (s : string) :
  lower_case s → lower_case (PyStr.after_first c s).
Proof.
  unfold PyStr.after_first. induction s as [|x s IH]; simpl; [auto|].
  intros Hs. apply lower_case_cons in Hs as [_ Hs].
  destruct (Ascii.eqb x c); simpl; [assumption|].
  destruct (PyStr.partition c s) as [h t]. simpl in *. auto.
Qed.

Lemma lower_case_directive_value (line : string) :
  lower_case line → lower_case (Webcrawler.directive_value line).
Proof.
  intros Hl. unfold Webcrawler.directive_value, PyStr.strip.
  now apply lower_case_rstrip, lower_case_lstrip, lower_case_after_first.
Qed.

Section RobotsParser.
Context `{PyLib}.

Lemma robots_line_lower_case (cfg : Webcrawler.CrawlerConfig)
    (acc : Webcrawler.RobotsAcc) (raw : string) :
  acc_lower_case acc → acc_lower_case (Webcrawler.robots_line cfg acc raw).
Proof.
  intros (Ha & Hal & Hdis). unfold Webcrawler.robots_line.
  pose proof (lower_case_directive_value _ (lower_idem (PyStr.strip raw))) as Hv.
  set (line := PyStr.lower (PyStr.strip raw)) in *.
  destruct (negb (PyStr.nonempty line) || PyStr.startswith line "#");
    [now repeat split|].
  destruct (PyStr.startswith line "user-agent:").
  { repeat split; simpl; auto. now intros a [= <-]. }
  destruct (Webcrawler.agent_selected cfg (Webcrawler.current_agent acc));
    [|now repeat split].
  destruct (PyStr.startswith line "allow:").
  { repeat split; simpl; auto. apply Forall_app. auto. }
  destruct (PyStr.startswith line "disallow:").
  { repeat split; simpl; auto. apply Forall_app. auto. }
  destruct (PyStr.startswith line "crawl-delay:"); [|now repeat split].
  destruct (float_of_str (Webcrawler.directive_value line)); now repeat split.
Qed.

Lemma robots_lines_lower_case (cfg : Webcrawler.CrawlerConfig) (lines : list string) :
  ∀ acc, acc_lower_case acc →
         acc_lower_case (fold_left (Webcrawler.robots_line cfg) lines acc).
Proof.
  induction lines as [|raw lines IH]; simpl; [auto|].
  intros acc Hacc. apply IH. now apply robots_line_lower_case.
Qed.

(** For a configured agent name with an upper-case letter, a line is
    handled as for the agent name [*]. *)
Lemma robots_line_agent (cfg cfg' : Webcrawler.CrawlerConfig)
    (acc : Webcrawler.RobotsAcc) (raw : string) :
  ¬ lower_case (Webcrawler.user_agent cfg) →
  Webcrawler.user_agent cfg' = "*" →
  acc_lower_case acc →
  Webcrawler.robots_line cfg acc raw = Webcrawler.robots_line cfg' acc raw.
Proof.
  intros Hua Hstar (Ha & _).
  assert (Hsel : Webcrawler.agent_selected cfg (Webcrawler.current_agent acc)
                 = Webcrawler.agent_selected cfg' (Webcrawler.current_agent acc)).
  { unfold Webcrawler.agent_selected. destruct (Webcrawler.current_agent acc) as [a|];
      [|reflexivity].
    rewrite Hstar. destruct (String.eqb_spec a "*") as [|_]; [reflexivity|]. simpl.
    destruct (String.eqb_spec a (Webcrawler.user_agent cfg)) as [->|]; [|reflexivity].
    exfalso. apply Hua. now apply Ha. }
  unfold Webcrawler.robots_line. now rewrite Hsel.
Qed.

Lemma robots_lines_agent (cfg cfg' : Webcrawler.CrawlerConfig) (lines : list string) :
  ¬ lower_case (Webcrawler.user_agent cfg) →
  Webcrawler.user_agent cfg' = "*" →
  ∀ acc, acc_lower_case acc →
         fold_left (Webcrawler.robots_line cfg) lines acc
         = fold_left (Webcrawler.robots_line cfg') lines acc.
Proof.
  intros Hua Hstar. induction lines as [|raw lines IH]; simpl; [auto|].
  intros acc Hacc. rewrite <- (robots_line_agent cfg cfg') by assumption.
  apply IH. now apply robots_line_lower_case.
Qed.

Lemma acc_lower_case_start :
  acc_lower_case {| Webcrawler.current_agent := None; Webcrawler.acc_allowed := [];
                    Webcrawler.acc_disallowed := []; Webcrawler.acc_delay := None |}.
Proof. repeat split; simpl; [discriminate | constructor | constructor]. Qed.

End RobotsParser.

(** X4. The robots.txt parser lower-cases every line before comparing the
    agent of a block with the configured [user_agent] as written.  A
    configured agent name with an upper-case letter therefore never
    selects a block of its own: the policy read is the one read by a
    crawler whose agent name is [*], whatever the answer of the server. *)
Theorem mixed_case_user_agent_reads_star_rules `{PyLib}
    (cfg cfg' : Webcrawler.CrawlerConfig) (resp : option Webcrawler.Response) :
  ¬ lower_case (Webcrawler.user_agent cfg) →
  Webcrawler.user_agent cfg' = "*" →
  Webcrawler.robots_rules cfg resp = Webcrawler.robots_rules cfg' resp.
Proof.
  intros Hua Hstar. unfold Webcrawler.robots_rules.
  destruct resp as [r|]; [|reflexivity].
  destruct (Webcrawler.status r =? 200); [|reflexivity].
  now rewrite (robots_lines_agent cfg cfg' _ Hua Hstar _ acc_lower_case_start).
Qed.

(** The default agent name, and a robots.txt with a block addressed to
    it in lower case: the block is not read. *)
Lemma mixed_case_user_agent_reads_star_rules_witness :
  Webcrawler.robots_rules (Examples.web_cfg 2 10 true)
    (Some (Examples.plain 200
             ("User-agent: cloudcurio crawler (+https://cloudcurio.cc)"
              +:+ String "010" "Disallow: /private/")))
  = Webcrawler.robots_rules
      {| Webcrawler.start_url := "http://site.test/"; Webcrawler.max_depth := 2;
         Webcrawler.max_pages := 10; Webcrawler.allowed_domains := ["site.test"];
         Webcrawler.respect_robots_txt := true; Webcrawler.user_agent := "*" |}
      (Some (Examples.plain 200
               ("User-agent: cloudcurio crawler (+https://cloudcurio.cc)"
                +:+ String "010" "Disallow: /private/"))).
Proof.
  apply (mixed_case_user_agent_reads_star_rules (Examples.web_cfg 2 10 true));
    [|reflexivity].
  unfold lower_case. simpl. discriminate.
Defined.

(** X5. Every allow and disallow rule that the robots.txt parser
    registers is lower-case, whatever the case in the file: a rule is
    compared with the path of a URL as written, so that a rule written
    with an upper-case letter does not match the path it names. *)
Theorem robots_rules_are_lower_case `{PyLib}
    (cfg : Webcrawler.CrawlerConfig) (resp : option Webcrawler.Response) :
  Forall lower_case (Webcrawler.allowed_paths (Webcrawler.robots_rules cfg resp))
  ∧ Forall lower_case (Webcrawler.disallowed_paths (Webcrawler.robots_rules cfg resp)).
Proof.
  unfold Webcrawler.robots_rules. simpl.
  destruct resp as [r|]; [|split; constructor].
  destruct (Webcrawler.status r =? 200); [|split; constructor].
  destruct (robots_lines_lower_case cfg (PyStr.split "010" (Webcrawler.text r)) _
              acc_lower_case_start) as (_ & Hal & Hdis).
  split; assumption.
Qed.

(** ** Configuration of the recursive crawler *)

Lemma endswith_refl (s : string) : PyStr.endswith s s = true.
Proof. apply endswith_spec. exists "". reflexivity. Qed.

Lemma nonempty_spec (s : string) : PyStr.nonempty s = true ↔ s ≠ "".
Proof. destruct s; simpl; split; congruence. Qed.

(** X6. A configuration that is accepted without [allowed_domains] has an
    absolute start URL, gets the host of the start URL as its only
    allowed domain, and allows its own start URL; a start URL without
    scheme or host is rejected, whatever the other fields. *)
Theorem default_domain_allows_start_url `{PyLib}
    (start_url : string) (max_depth max_pages : Z) (respect : bool) (agent : string) :
  match Webcrawler.new_config start_url max_depth max_pages [] respect agent with
  | Some cfg =>
      ∃ parsed,
        urlparse start_url = Some parsed
        ∧ Urllib.scheme parsed ≠ "" ∧ Urllib.netloc parsed ≠ ""
        ∧ Webcrawler.start_url cfg = start_url
        ∧ Webcrawler.allowed_domains cfg = [Urllib.netloc parsed]
        ∧ Webcrawler.is_allowed_domain cfg start_url = Some true
  | None =>
      ∀ parsed, urlparse start_url = Some parsed →
                Urllib.scheme parsed = "" ∨ Urllib.netloc parsed = ""
  end.
Proof.
  unfold Webcrawler.new_config, Webcrawler.validate_start_url.
  destruct (urlparse start_url) as [parsed|] eqn:Hparse; [|discriminate].
  destruct (PyStr.nonempty (Urllib.scheme parsed)) eqn:Hs; simpl.
  - destruct (PyStr.nonempty (Urllib.netloc parsed)) eqn:Hn; simpl.
    + rewrite Hparse. exists parsed.
      apply nonempty_spec in Hs. apply nonempty_spec in Hn.
      repeat split; try assumption.
      unfold Webcrawler.is_allowed_domain. rewrite Hparse. simpl.
      now rewrite endswith_refl.
    + intros p [= <-]. right. destruct (Urllib.netloc parsed); [reflexivity|discriminate].
  - intros p [= <-]. left. destruct (Urllib.scheme parsed); [reflexivity|discriminate].
Qed.

(** ** The recursive crawler stays on the allowed domains *)

Section WebcrawlerDomains.
Context `{PyLib} (cfg : Webcrawler.CrawlerConfig) (web : Webcrawler.Web).

Lemma normalize_url_on_domain (href base u : string) :
  Webcrawler.normalize_url cfg href base = Some u → on_allowed_domain cfg u.
Proof.
  unfold Webcrawler.normalize_url, Webcrawler.is_allowed_domain.
  destruct (urljoin base href) as [full|]; [|discriminate].
  destruct (urlparse full) as [parsed|] eqn:Hparse; [|discriminate].
  destruct (PyStr.nonempty (Urllib.scheme parsed)) eqn:Hs; [|discriminate].
  destruct (PyStr.nonempty (Urllib.netloc parsed)) eqn:Hn; [|discriminate].
  simpl. destruct (existsb _ _) eqn:Hex; [|discriminate].
  intros [= <-]. apply existsb_exists in Hex as (d & Hd & Hend).
  apply endswith_spec in Hend. apply nonempty_spec in Hs. apply nonempty_spec in Hn.
  exists full, parsed, d. auto 6.
Qed.

Lemma extract_links_on_domain (url : string) (hrefs : list string) :
  Forall (on_allowed_domain cfg) (Webcrawler.extract_links cfg url hrefs).
Proof.
  unfold Webcrawler.extract_links. induction hrefs as [|href hrefs IH]; simpl;
    [constructor|].
  destruct (Webcrawler.normalize_url cfg href url) as [n|] eqn:Hn; [|assumption].
  destruct (PyStr.nonempty n); [|assumption].
  constructor; [|assumption]. eapply normalize_url_on_domain; eassumption.
Qed.

Lemma pages_from_refl (P : string → Prop) (st : Webcrawler.State) : pages_from P st st.
Proof. exists []. rewrite app_nil_r. split; [reflexivity|constructor]. Qed.

Lemma pages_from_trans (P : string → Prop) (a b c : Webcrawler.State) :
  pages_from P a b → pages_from P b c → pages_from P a c.
Proof.
  intros (n1 & E1 & F1) (n2 & E2 & F2). exists (n1 ++ n2).
  split; [rewrite E2, E1; now rewrite app_assoc|].
  unfold Webcrawler.pages_of in *. rewrite omap_app. now apply Forall_app.
Qed.

Lemma pages_from_impl (P Q : string → Prop) (a b : Webcrawler.State) :
  (∀ u, P u → Q u) → pages_from P a b → pages_from Q a b.
Proof.
  intros HPQ (n & E & F). exists n. split; [assumption|].
  eapply Forall_impl; eauto.
Qed.

Lemma crawl_links_pages (P : string → Prop)
    (rec : string → Webcrawler.State → option Webcrawler.Result) :
  ∀ links,
    (∀ link s s' ys o, link ∈ links → rec link s = Some (s', ys, o) →
                       pages_from P s s') →
    ∀ st out st' ys o,
      Webcrawler.crawl_links cfg rec links st out = Some (st', ys, o) →
      pages_from P st st'.
Proof.
  induction links as [|link rest IH]; intros Hrec st out st' ys o; simpl.
  - intros [= <- <- <-]. apply pages_from_refl.
  - destruct (_ >=? _); [intros [= <- <- <-]; apply pages_from_refl|].
    destruct (rec link st) as [[[s1 ys1] o1]|] eqn:Erec; [|discriminate].
    apply Hrec in Erec; [|now left]. destruct o1.
    + intros Hloop. apply IH in Hloop.
      * eapply pages_from_trans; eassumption.
      * intros l s s' ys0 o0 Hl. apply Hrec. now right.
    + intros [= <- <- <-]. assumption.
Qed.

Lemma robots_gate_pages (P : string → Prop) (url : string)
    (st st1 : Webcrawler.State) (gate : option bool) :
  Webcrawler.robots_gate cfg web url st = (st1, gate) → pages_from P st st1.
Proof.
  unfold Webcrawler.robots_gate. destruct (Webcrawler.respect_robots_txt cfg);
    [|intros [= <- <-]; apply pages_from_refl].
  destruct (urlparse url) as [parsed|]; [|intros [= <- <-]; apply pages_from_refl].
  destruct (Webcrawler.fetch_robots_txt cfg web (Urllib.netloc parsed) st)
    as [rc st'] eqn:E.
  intros [= <- <-].
  apply fetch_robots_txt_post in E as (_ & _ & _ & new & Hreq & Hpages & _).
  exists new. split; [assumption|]. rewrite Hpages. constructor.
Qed.

(** A call of [crawl_page] requests its own URL and links that
    [normalize_url] accepted. *)
Lemma crawl_page_pages (fuel : nat) :
  ∀ url depth st st' ys o,
    Webcrawler.crawl_page fuel cfg web url depth st = Some (st', ys, o) →
    pages_from (fun u => u = url ∨ on_allowed_domain cfg u) st st'.
Proof.
  induction fuel as [|fuel IH]; intros url depth st st' ys o; simpl; [discriminate|].
  destruct (depth >? Webcrawler.max_depth cfg);
    [intros [= <- <- <-]; apply pages_from_refl|].
  case_bool_decide; [intros [= <- <- <-]; apply pages_from_refl|].
  set (P := fun u => u = url ∨ on_allowed_domain cfg u).
  set (st0 := {| Webcrawler.visited_urls := {[url]} ∪ Webcrawler.visited_urls st;
                 Webcrawler.robots_cache := Webcrawler.robots_cache st;
                 Webcrawler.requests := Webcrawler.requests st |}).
  destruct (Webcrawler.robots_gate cfg web url st0) as [st1 gate] eqn:Egate.
  apply (robots_gate_pages P) in Egate.
  assert (H01 : pages_from P st st1) by exact Egate.
  destruct gate as [[|]|]; try (intros [= <- <- <-]; exact H01).
  set (st2 := {| Webcrawler.visited_urls := Webcrawler.visited_urls st1;
                 Webcrawler.robots_cache := Webcrawler.robots_cache st1;
                 Webcrawler.requests :=
                   Webcrawler.requests st1 ++ [Webcrawler.ReqPage url] |}).
  assert (H02 : pages_from P st st2).
  { apply (pages_from_trans P st st1 st2); [exact H01|].
    exists [Webcrawler.ReqPage url]. split; [reflexivity|].
    simpl. repeat constructor. }
  destruct (web (length (Webcrawler.requests st1)) url) as [r|];
    [|intros [= <- <- <-]; exact H02].
  destruct (negb (Webcrawler.status r =? 200)); [intros [= <- <- <-]; exact H02|].
  intros Hloop. apply (crawl_links_pages P) in Hloop.
  - eapply pages_from_trans; eassumption.
  - intros link s s' ys0 o0 Hlink Hcall. apply IH in Hcall.
    eapply pages_from_impl; [|exact Hcall].
    intros u [->|Hu]; [|now right]. right.
    pose proof (extract_links_on_domain url (Webcrawler.anchors r)) as Hall.
    eapply Forall_forall in Hall; eassumption.
Qed.

End WebcrawlerDomains.

(** X7. The recursive crawler leaves the allowed domains at most for its
    start URL, which is not checked: every other page it requests has the
    form [scheme://netloc/path] with a host that ends with one of
    [allowed_domains]. *)
Theorem requested_pages_stay_on_allowed_domains `{PyLib}
    (cfg : Webcrawler.CrawlerConfig) (web : Webcrawler.Web)
    (st : Webcrawler.State) (ys : list Webcrawler.Yield) (o : Webcrawler.Outcome)
    (u : string) :
  Webcrawler.crawl cfg web = Some (st, ys, o) →
  u ∈ Webcrawler.page_fetches st →
  u = Webcrawler.start_url cfg ∨ on_allowed_domain cfg u.
Proof.
  intros Hrun Hu. apply crawl_page_pages in Hrun as (new & Hreq & Hall).
  unfold Webcrawler.page_fetches in Hu. simpl in Hreq. rewrite Hreq in Hu.
  eapply Forall_forall in Hall; eassumption.
Qed.

(** A page of the example tree that is reached by a link. *)
Lemma requested_pages_stay_on_allowed_domains_witness :
  ∃ st ys o,
    Webcrawler.crawl (Examples.web_cfg 2 10 false) (Examples.serve Examples.tree_site)
    = Some (st, ys, o)
    ∧ "http://site.test/c" ∈ Webcrawler.page_fetches st
    ∧ ("http://site.test/c" = "http://site.test/"
       ∨ on_allowed_domain (Examples.web_cfg 2 10 false) "http://site.test/c").
Proof.
  assert (Hrun : ∃ st ys o,
             Webcrawler.crawl (Examples.web_cfg 2 10 false)
               (Examples.serve Examples.tree_site) = Some (st, ys, o)
             ∧ "http://site.test/c" ∈ Webcrawler.page_fetches st).
  { do 3 eexists. split; [vm_compute; reflexivity|]. vm_compute. set_solver. }
  destruct Hrun as (st & ys & o & Hrun & Hin).
  exists st, ys, o. split; [exact Hrun|]. split; [exact Hin|].
  exact (requested_pages_stay_on_allowed_domains (Examples.web_cfg 2 10 false)
           (Examples.serve Examples.tree_site) st ys o "http://site.test/c" Hrun Hin).
Defined.

(** ** The work-list crawler: results, work list and navigations *)

Lemma existsb_eqb_elem_of (u : string) (l : list string) :
  existsb (String.eqb u) l = true ↔ u ∈ l.
Proof.
  rewrite existsb_exists. split.
  - intros (x & Hin & Heq). apply String.eqb_eq in Heq as ->. now apply list_elem_of_In.
  - intros Hin. exists u. split; [now apply list_elem_of_In | apply String.eqb_refl].
Qed.

Section McpServerAccounting.
Context `{PyLib} (cfg : McpServer.CrawlerConfig) (env : McpServer.Env).

(** The result URLs are pairwise distinct and visited, every visited
    URL was taken off the work list, and the visited set respects the
    page budget. *)
Lemma reachable_results (s : McpServer.Loop) :
  McpServer.reachable cfg env s →
  (∀ u, u ∈ result_urls s → u ∈ McpServer.visited_urls (McpServer.st s))
  ∧ (∀ u, u ∈ McpServer.visited_urls (McpServer.st s) →
          u ∈ map fst (McpServer.popped s))
  ∧ NoDup (result_urls s)
  ∧ Z.of_nat (size (McpServer.visited_urls (McpServer.st s)))
    ≤ Z.max 0 (McpServer.max_pages cfg).
Proof.
  intros Hreach. induction Hreach as [|s s' Hreach (IHr & IHp & IHn & IHb) Hstep].
  - split; [intros u Hu; now apply not_elem_of_nil in Hu|].
    split; [intros u Hu; now apply not_elem_of_empty in Hu|].
    split; [constructor|].
    change (Z.of_nat (size (∅ : gset string)) ≤ Z.max 0 (McpServer.max_pages cfg)).
    rewrite size_empty. lia.
  - apply step_cases in Hstep
      as (url & depth & rest & Hq & Hroom & Hp & Hcases).
    assert (Hpopped : ∀ u, u ∈ {[url]} ∪ McpServer.visited_urls (McpServer.st s) →
                           u ∈ map fst (McpServer.popped s')).
    { intros u Hu. rewrite Hp, map_app. apply elem_of_app.
      apply elem_of_union in Hu as [Hu|Hu]; [right | left; auto].
      apply elem_of_singleton in Hu as ->. now left. }
    destruct Hcases as [(_ & Hr' & Hv')|Hdone].
    + unfold result_urls in *. rewrite Hr'.
      destruct Hv' as [->|(_ & Hnew & ->)].
      * repeat split; auto. intros u Hu. apply Hpopped. set_solver.
      * split; [intros u Hu; apply IHr in Hu; set_solver|].
        split; [exact Hpopped|]. split; [assumption|].
        rewrite size_union by set_solver. rewrite size_singleton. lia.
    + destruct Hdone as (_ & Hnew & Hv' & (c & Hr' & Hc) & _).
      unfold result_urls in *. rewrite Hr', Hv', map_app. simpl. rewrite Hc.
      split; [|split; [exact Hpopped|split]].
      * intros u Hu. apply elem_of_app in Hu as [Hu|Hu].
        -- apply IHr in Hu. set_solver.
        -- apply list_elem_of_singleton in Hu as ->. set_solver.
      * apply NoDup_app. split; [assumption|]. split; [|apply NoDup_singleton].
        intros u Hu Hu'. apply list_elem_of_singleton in Hu' as ->.
        apply Hnew. now apply IHr.
      * rewrite size_union by set_solver. rewrite size_singleton. lia.
Qed.

Lemma run_more_fuel (fuel : nat) :
  ∀ s s', McpServer.run cfg env fuel s = Some s' →
          ∀ fuel', (fuel ≤ fuel')%nat → McpServer.run cfg env fuel' s = Some s'.
Proof.
  induction fuel as [|fuel IH]; intros s s'; simpl;
    destruct (McpServer.step cfg env s) as [s1|] eqn:Hstep; try discriminate.
  - intros [= <-] fuel' _. destruct fuel'; simpl; now rewrite Hstep.
  - intros Hrun fuel' Hle. destruct fuel' as [|fuel']; [lia|].
    simpl. rewrite Hstep. apply IH; [assumption | lia].
  - intros [= <-] fuel' _. destruct fuel'; simpl; now rewrite Hstep.
Qed.

(** [_filter_urls]: what the loop appends to [filtered]. *)
Lemma filter_loop_spec (base : string) (visited : gset string) (urls : list string) :
  ∀ acc out,
    McpServer.filter_loop base visited urls acc = Some out →
    ∃ added,
      out = acc ++ added
      ∧ added `sublist_of` urls
      ∧ (NoDup acc → NoDup out)
      ∧ ∀ u, u ∈ added ↔
             u ∈ urls ∧ (u ∉ acc) ∧ (u ∉ visited)
             ∧ ∃ parsed, urlparse u = Some parsed ∧ Urllib.netloc parsed = base.
Proof.
  induction urls as [|url rest IH]; intros acc out; simpl.
  - intros [= <-]. exists []. rewrite app_nil_r.
    split; [reflexivity|]. split; [reflexivity|]. split; [auto|].
    intros u. split.
    + intros Hu. now apply not_elem_of_nil in Hu.
    + intros (Hu & _). now apply not_elem_of_nil in Hu.
  - destruct (urlparse url) as [parsed|] eqn:Hparse; [|discriminate].
    destruct (String.eqb_spec (Urllib.netloc parsed) base) as [Hbase|Hbase]; simpl.
    + case_bool_decide as Hvis; simpl.
      * intros Hloop. apply IH in Hloop as (added & -> & Hsub & Hnd & Hiff).
        exists added. split; [reflexivity|]. split; [now apply sublist_cons|].
        split; [assumption|]. intros u. rewrite Hiff. split.
        -- intros (Hu & Hrest). split; [now right | assumption].
        -- intros (Hu & Hacc & Hv & Hp). split; [|auto].
           apply elem_of_cons in Hu as [->|Hu]; [contradiction | assumption].
      * destruct (existsb (String.eqb url) acc) eqn:Hex; simpl.
        -- apply existsb_eqb_elem_of in Hex.
           intros Hloop. apply IH in Hloop as (added & -> & Hsub & Hnd & Hiff).
           exists added. split; [reflexivity|]. split; [now apply sublist_cons|].
           split; [assumption|]. intros u. rewrite Hiff. split.
           ++ intros (Hu & Hrest). split; [now right | assumption].
           ++ intros (Hu & Hacc & Hv & Hp). split; [|auto].
              apply elem_of_cons in Hu as [->|Hu]; [contradiction | assumption].
        -- assert (Hnew : url ∉ acc).
           { intros Hin. apply existsb_eqb_elem_of in Hin. congruence. }
           intros Hloop. apply IH in Hloop as (added & -> & Hsub & Hnd & Hiff).
           exists (url :: added). split; [now rewrite <- app_assoc|].
           split; [now apply sublist_skip|]. split.
           ++ intros Hacc. apply Hnd.
              apply NoDup_app. split; [assumption|].
              split; [|apply NoDup_singleton].
              intros u Hu Hu'. apply list_elem_of_singleton in Hu' as ->. contradiction.
           ++ intros u. rewrite elem_of_cons, Hiff. split.
              ** intros [->|(Hu & Hacc & Hv & Hp)].
                 --- split; [now left|]. split; [assumption|]. split; [assumption|]. eauto.
                 --- split; [now right|]. split; [|auto].
                     intros Hin. apply Hacc. apply elem_of_app. now left.
              ** intros (Hu & Hacc & Hv & Hp).
                 apply elem_of_cons in Hu as [->|Hu]; [now left|].
                 destruct (decide (u = url)) as [->|Hne]; [now left|]. right.
                 split; [assumption|]. split; [|auto].
                 intros Hin. apply elem_of_app in Hin as [Hin|Hin]; [contradiction|].
                 apply list_elem_of_singleton in Hin. contradiction.
    + intros Hloop. apply IH in Hloop as (added & -> & Hsub & Hnd & Hiff).
      exists added. split; [reflexivity|]. split; [now apply sublist_cons|].
      split; [assumption|]. intros u. rewrite Hiff. split.
      * intros (Hu & Hrest). split; [now right | assumption].
      * intros (Hu & Hacc & Hv & (p & Hp & Hnet)). split; [|eauto].
        apply elem_of_cons in Hu as [->|Hu]; [|assumption]. congruence.
Qed.

Lemma filter_urls_same_host (st : McpServer.State) (urls new : list string) (u : string) :
  McpServer._filter_urls cfg st urls = Some new → u ∈ new → same_host cfg u.
Proof.
  unfold McpServer._filter_urls, same_host.
  destruct (urlparse (McpServer.start_url cfg)) as [base|]; [|discriminate].
  intros Hloop Hu. apply filter_loop_spec in Hloop as (added & -> & _ & _ & Hiff).
  simpl in Hu. apply Hiff in Hu as (_ & _ & _ & p & Hp & Hnet). eauto.
Qed.

(** [_process_url] navigates to its own URL only. *)
Lemma attempts_gotos (url : string) (n : nat) :
  ∀ attempt st st' r,
    McpServer.attempts cfg env n attempt url st = (st', r) →
    ∃ k, McpServer.gotos st' = McpServer.gotos st ++ replicate k url.
Proof.
  induction n as [|n IH]; intros attempt st st' r; simpl.
  - intros [= <- <-]. exists 0%nat. now rewrite app_nil_r.
  - pose proof (gotos_log (McpServer.EvGoto url) st) as Hg. simpl in Hg.
    destruct (McpServer.goto env (length (McpServer.trace st)) url)
      as [msg| |page_url content refs].
    + destruct (attempt =? McpServer.retry_attempts cfg - 1).
      * intros [= <- <-]. exists 1%nat. exact Hg.
      * intros Hrec. apply IH in Hrec as [k Hk]. exists (S k).
        rewrite Hk, gotos_log, Hg. simpl. rewrite app_nil_r.
        now rewrite <- app_assoc.
    + intros [= <- <-]. exists 1%nat. exact Hg.
    + destruct (negb _); [intros [= <- <-]; exists 1%nat; exact Hg|].
      assert (Ha : McpServer.gotos
                     (fst (if McpServer.download_assets cfg
                           then McpServer._process_assets cfg env refs
                                  (McpServer.log (McpServer.EvGoto url) st)
                           else (McpServer.log (McpServer.EvGoto url) st, [])))
                   = McpServer.gotos (McpServer.log (McpServer.EvGoto url) st)).
      { destruct (McpServer.download_assets cfg); [|reflexivity].
        apply process_assets_gotos. }
      destruct (if McpServer.download_assets cfg then _ else _) as [st2 assets].
      simpl in Ha. rewrite Hg in Ha.
      destruct (McpServer.new_extraction _) as [c|msg].
      * intros [= <- <-]. exists 1%nat. exact Ha.
      * destruct (attempt =? McpServer.retry_attempts cfg - 1).
        -- intros [= <- <-]. exists 1%nat. exact Ha.
        -- intros Hrec. apply IH in Hrec as [k Hk]. exists (S k).
           rewrite Hk, gotos_log. simpl. rewrite app_nil_r.
           change (McpServer.gotos (McpServer.mark_visited url st2))
             with (McpServer.gotos st2). rewrite Ha.
           now rewrite <- app_assoc.
Qed.

(** One iteration: the navigations it makes and the entries it puts
    on the work list. *)
Lemma step_work_list (s s' : McpServer.Loop) :
  McpServer.step cfg env s = Some s' →
  ∃ url depth rest,
    McpServer.queue s = (url, depth) :: rest
    ∧ (∃ k, McpServer.gotos (McpServer.st s')
            = McpServer.gotos (McpServer.st s) ++ replicate k url)
    ∧ (McpServer.queue s' = rest
       ∨ (depth < McpServer.max_depth cfg
          ∧ ∃ st1 links new,
              McpServer._filter_urls cfg st1 links = Some new
              ∧ McpServer.queue s'
                = rest ++ map (fun u => (u, depth + 1)) new)).
Proof.
  unfold McpServer.step.
  destruct (McpServer.queue s) as [|[url depth] rest] eqn:Hq; [discriminate|].
  destruct (negb _); [discriminate|].
  intros Hstep. exists url, depth, rest. split; [reflexivity|].
  assert (Hsame : ∃ k, McpServer.gotos (McpServer.st s)
                       = McpServer.gotos (McpServer.st s) ++ replicate k url).
  { exists 0%nat. now rewrite app_nil_r. }
  destruct ((depth >? McpServer.max_depth cfg)
            || bool_decide (url ∈ McpServer.visited_urls (McpServer.st s)));
    [injection Hstep as <-; simpl; auto|].
  rewrite is_allowed_by_robots_true in Hstep. simpl in Hstep.
  destruct (McpServer._process_url cfg env url depth (McpServer.st s))
    as [st1 r] eqn:Hproc.
  apply attempts_gotos in Hproc.
  destruct r as [[c|]|msg]; try (injection Hstep as <-; simpl; now auto).
  destruct (Z.ltb_spec depth (McpServer.max_depth cfg)) as [Hlt|].
  - destruct (McpServer._filter_urls cfg st1 (McpServer.ce_links c)) as [new|] eqn:Hf;
      injection Hstep as <-; simpl; split; auto.
    right. split; [assumption|]. eauto.
  - injection Hstep as <-; simpl; auto.
Qed.

(** Every entry of the work list and every navigation is for the start
    URL or for a URL on its host. *)
Lemma reachable_same_host (s : McpServer.Loop) :
  McpServer.reachable cfg env s →
  Forall (fun e => fst e = McpServer.start_url cfg ∨ same_host cfg (fst e))
         (McpServer.queue s)
  ∧ Forall (fun u => u = McpServer.start_url cfg ∨ same_host cfg u)
           (McpServer.gotos (McpServer.st s)).
Proof.
  intros Hreach. induction Hreach as [|s s' Hreach (IHq & IHg) Hstep].
  - split; [|constructor]. repeat constructor.
  - apply step_work_list in Hstep as (url & depth & rest & Hq & (k & Hg) & Hq').
    rewrite Hq in IHq. apply Forall_cons in IHq as [Hurl Hrest]. simpl in Hurl.
    split.
    + destruct Hq' as [->|(_ & st1 & links & new & Hf & ->)]; [assumption|].
      apply Forall_app. split; [assumption|].
      apply Forall_forall. intros e He. apply list_elem_of_In in He.
      apply in_map_iff in He as (u & <- & Hu). simpl. right.
      apply list_elem_of_In in Hu.
      exact (filter_urls_same_host _ _ _ _ Hf Hu).
    + rewrite Hg. apply Forall_app. split; [assumption|].
      apply Forall_forall. intros u Hu. apply elem_of_replicate in Hu as [-> _].
      assumption.
Qed.

End McpServerAccounting.

(** X8. The work-list crawler ends for some number of iterations, and at
    its end the results have pairwise distinct URLs, each of them in the
    visited set; every visited URL was taken off the work list; and the
    results are at most as many as the visited URLs, which are at most
    [max_pages] (none when [max_pages] is below one).  The visited set
    can hold more than the result URLs: a page is marked visited before
    its record is validated. *)
Theorem crawl_results_are_distinct_visited_pages `{PyLib}
    (cfg : McpServer.CrawlerConfig) (env : McpServer.Env) :
  ∃ fuel s,
    (∀ fuel', (fuel ≤ fuel')%nat →
              McpServer.run cfg env fuel' (McpServer.init_loop cfg) = Some s
              ∧ McpServer.crawl cfg env fuel'
                = Some (map fst (McpServer.results s)))
    ∧ NoDup (result_urls s)
    ∧ (∀ u, u ∈ result_urls s → u ∈ McpServer.visited_urls (McpServer.st s))
    ∧ (∀ u, u ∈ McpServer.visited_urls (McpServer.st s) →
            u ∈ map fst (McpServer.popped s))
    ∧ Z.of_nat (length (McpServer.results s))
      ≤ Z.of_nat (size (McpServer.visited_urls (McpServer.st s)))
      ≤ Z.max 0 (McpServer.max_pages cfg).
Proof.
  destruct (run_terminates_from cfg env _ _ (McpServer.init_loop cfg) (le_n _) (le_n _))
    as (fuel & s & Hrun).
  exists fuel, s.
  destruct (run_reachable cfg env _ _ _ Hrun (McpServer.reach_init _ _)) as [Hreach _].
  destruct (reachable_results cfg env s Hreach) as (Hr & Hp & Hnd & Hb).
  split; [|split; [assumption|split; [assumption|split; [assumption|]]]].
  - intros fuel' Hle. pose proof (run_more_fuel cfg env _ _ _ Hrun fuel' Hle) as Hrun'.
    split; [assumption|]. unfold McpServer.crawl. now rewrite Hrun'.
  - split; [|assumption].
    pose proof (nodup_length_le_size _ _ Hnd Hr) as Hlen.
    unfold result_urls in Hlen. rewrite length_map in Hlen. lia.
Qed.

(** X9. With a depth limit of at least zero, no URL is ever on the work
    list at a depth beyond [max_depth]: links of a page at the limit are
    not put on the list. *)
Theorem work_list_depths_within_limit `{PyLib}
    (cfg : McpServer.CrawlerConfig) (env : McpServer.Env) (s : McpServer.Loop) :
  0 ≤ McpServer.max_depth cfg →
  McpServer.reachable cfg env s →
  Forall (fun e => 0 ≤ snd e ≤ McpServer.max_depth cfg) (McpServer.queue s).
Proof.
  intros Hdepth Hreach. induction Hreach as [|s s' Hreach IH Hstep].
  - repeat constructor; simpl; lia.
  - apply step_cases in Hstep as (url & depth & rest & Hq & _ & _ & Hcases).
    rewrite Hq in IH. apply Forall_cons in IH as [Hd Hrest]. simpl in Hd.
    assert (Hnew : ∀ new : list string,
              depth < McpServer.max_depth cfg →
              Forall (fun e : string * Z => 0 ≤ snd e ≤ McpServer.max_depth cfg)
                     (rest ++ map (fun u => (u, depth + 1)) new)).
    { intros new Hlt. apply Forall_app. split; [assumption|].
      apply Forall_forall. intros e He. apply list_elem_of_In in He.
      apply in_map_iff in He as (u & <- & _). simpl. lia. }
    destruct Hcases as [(-> & _)|(_ & _ & _ & _ & [->|(Hlt & new & ->)])]; auto.
Qed.

(** After the first page of the example documentation site, with a
    depth limit of one. *)
Lemma work_list_depths_within_limit_witness :
  ∃ s, McpServer.step (Examples.pw_cfg "http://site.test/docs/" 1 10)
         (Examples.browse Examples.docs_site)
         (McpServer.init_loop (Examples.pw_cfg "http://site.test/docs/" 1 10)) = Some s
       ∧ McpServer.queue s = [("http://site.test/blog", 1); ("http://site.test/docs/a", 1)]
       ∧ Forall (fun e => 0 ≤ snd e ≤ 1) (McpServer.queue s).
Proof.
  assert (Hstep : ∃ s,
            McpServer.step (Examples.pw_cfg "http://site.test/docs/" 1 10)
              (Examples.browse Examples.docs_site)
              (McpServer.init_loop (Examples.pw_cfg "http://site.test/docs/" 1 10))
            = Some s
            ∧ McpServer.queue s
              = [("http://site.test/blog", 1); ("http://site.test/docs/a", 1)]).
  { eexists. split; [vm_compute; reflexivity|]. reflexivity. }
  destruct Hstep as (s & Hstep & Hq).
  exists s. split; [exact Hstep|]. split; [exact Hq|].
  apply (work_list_depths_within_limit
           (Examples.pw_cfg "http://site.test/docs/" 1 10)
           (Examples.browse Examples.docs_site) s); [simpl; lia|].
  eapply McpServer.reach_step; [apply McpServer.reach_init | exact Hstep].
Defined.

(** X10. [_filter_urls] returns, in their order and without repetition,
    exactly the links that are not visited and whose network location is
    that of the start URL. *)
Theorem filter_urls_keeps_new_links_of_the_start_host `{PyLib}
    (cfg : McpServer.CrawlerConfig) (st : McpServer.State) (urls new : list string) :
  McpServer._filter_urls cfg st urls = Some new →
  NoDup new
  ∧ new `sublist_of` urls
  ∧ ∀ u, u ∈ new ↔
         u ∈ urls ∧ (u ∉ McpServer.visited_urls st) ∧ same_host cfg u.
Proof.
  unfold McpServer._filter_urls, same_host.
  destruct (urlparse (McpServer.start_url cfg)) as [base|]; [|discriminate].
  intros Hloop. apply filter_loop_spec in Hloop as (added & -> & Hsub & Hnd & Hiff).
  simpl. split; [apply Hnd; constructor|]. split; [assumption|].
  intros u. rewrite Hiff. split.
  - intros (Hu & _ & Hv & p & Hp & Hnet). eauto 8.
  - intros (Hu & Hv & p & b & Hp & [= <-] & Hnet).
    split; [assumption|]. split; [apply not_elem_of_nil|]. eauto.
Qed.

(** A repeated link, a link to another host and a visited link. *)
Lemma filter_urls_keeps_new_links_of_the_start_host_witness :
  NoDup ["http://site.test/a"]
  ∧ ["http://site.test/a"]
    `sublist_of` ["http://site.test/a"; "http://other.test/b";
                  "http://site.test/docs/"; "http://site.test/a"]
  ∧ ∀ u, u ∈ ["http://site.test/a"] ↔
         u ∈ ["http://site.test/a"; "http://other.test/b";
              "http://site.test/docs/"; "http://site.test/a"]
         ∧ (u ∉ McpServer.visited_urls
                  (McpServer.mark_visited "http://site.test/docs/" McpServer.init_state))
         ∧ same_host (Examples.pw_cfg "http://site.test/docs/" 2 10) u.
Proof.
  apply (filter_urls_keeps_new_links_of_the_start_host
           (Examples.pw_cfg "http://site.test/docs/" 2 10)
           (McpServer.mark_visited "http://site.test/docs/" McpServer.init_state)).
  vm_compute. reflexivity.
Defined.

(** X11. The browser of the work-list crawler is only sent to the start
    URL and to URLs whose network location is that of the start URL. *)
Theorem navigations_stay_on_the_start_host `{PyLib}
    (cfg : McpServer.CrawlerConfig) (env : McpServer.Env) (s : McpServer.Loop)
    (u : string) :
  McpServer.reachable cfg env s →
  u ∈ McpServer.gotos (McpServer.st s) →
  u = McpServer.start_url cfg ∨ same_host cfg u.
Proof.
  intros Hreach Hu. destruct (reachable_same_host cfg env s Hreach) as [_ Hg].
  eapply Forall_forall in Hg; eassumption.
Qed.

(** The second documentation page of the example site. *)
Lemma navigations_stay_on_the_start_host_witness :
  ∃ s, McpServer.run (Examples.pw_cfg "http://site.test/docs/" 2 10)
         (Examples.browse Examples.docs_site) 4
         (McpServer.init_loop (Examples.pw_cfg "http://site.test/docs/" 2 10)) = Some s
       ∧ "http://site.test/docs/a" ∈ McpServer.gotos (McpServer.st s)
       ∧ ("http://site.test/docs/a" = "http://site.test/docs/"
          ∨ same_host (Examples.pw_cfg "http://site.test/docs/" 2 10)
              "http://site.test/docs/a").
Proof.
  assert (Hrun : ∃ s,
            McpServer.run (Examples.pw_cfg "http://site.test/docs/" 2 10)
              (Examples.browse Examples.docs_site) 4
              (McpServer.init_loop (Examples.pw_cfg "http://site.test/docs/" 2 10))
            = Some s
            ∧ "http://site.test/docs/a" ∈ McpServer.gotos (McpServer.st s)).
  { eexists. split; [vm_compute; reflexivity|]. vm_compute. set_solver. }
  destruct Hrun as (s & Hrun & Hin).
  exists s. split; [exact Hrun|]. split; [exact Hin|].
  destruct (run_reachable _ _ _ _ _ Hrun (McpServer.reach_init _ _)) as [Hreach _].
  exact (navigations_stay_on_the_start_host _ _ s _ Hreach Hin).
Defined.

(** ** The work-list crawler: what asset processing does to the state *)

Lemma asset_events_silent (evs : list McpServer.Event) :
  Forall asset_event evs →
  omap McpServer.goto_of evs = [] ∧ omap McpServer.sleep_of evs = [].
Proof.
  induction 1 as [|e evs He _ [IHg IHs]]; [split; reflexivity|].
  destruct e; simpl in He; try contradiction; simpl; auto.
Qed.

Section AssetTrace.
Context `{PyLib} (cfg : McpServer.CrawlerConfig) (env : McpServer.Env).

Lemma assets_only_refl (urls : list string) (st : McpServer.State) :
  assets_only env urls st st.
Proof.
  split; [reflexivity|]. split; [exists []; now rewrite app_nil_r|].
  split; [auto|]. intros p Hp. contradiction.
Qed.

Lemma assets_only_trans (urls : list string) (a b c : McpServer.State) :
  assets_only env urls a b → assets_only env urls b c → assets_only env urls a c.
Proof.
  intros (V1 & (e1 & T1 & F1) & K1 & W1) (V2 & (e2 & T2 & F2) & K2 & W2).
  split; [congruence|]. split; [|split].
  - exists (e1 ++ e2). split; [rewrite T2, T1; now rewrite app_assoc|].
    now apply Forall_app.
  - auto.
  - intros p Hp.
    destruct (decide (McpServer.storage b !! p = McpServer.storage a !! p)) as [Heq|Hne];
      [|auto].
    apply W2. congruence.
Qed.

Lemma assets_only_weaken (urls urls' : list string) (a b : McpServer.State) :
  (∀ u, u ∈ urls → u ∈ urls') → assets_only env urls a b → assets_only env urls' a b.
Proof.
  intros Hsub (V & T & K & W). repeat split; auto.
  intros p Hp. destruct (W p Hp) as (u & Hu & ->). eauto.
Qed.

Lemma assets_only_log (urls : list string) (e : McpServer.Event) (st : McpServer.State) :
  asset_event e → assets_only env urls st (McpServer.log e st).
Proof.
  intros He. split; [reflexivity|]. split; [exists [e]; split; [reflexivity|]; auto|].
  split; [auto|]. intros p Hp. contradiction.
Qed.

Lemma assets_only_store (url body : string) (st : McpServer.State) :
  assets_only env [url] st (McpServer.store (asset_path env url) body st).
Proof.
  split; [reflexivity|]. split; [exists []; simpl; now rewrite app_nil_r|].
  unfold McpServer.store. simpl. split.
  - intros p Hp. destruct (decide (p = asset_path env url)) as [->|Hne].
    + rewrite lookup_insert_eq. eauto.
    + now rewrite lookup_insert_ne.
  - intros p Hp. destruct (decide (p = asset_path env url)) as [->|Hne].
    + exists url. split; [now left | reflexivity].
    + rewrite lookup_insert_ne in Hp by congruence. contradiction.
Qed.

Lemma download_asset_only (url : string) (st : McpServer.State) :
  assets_only env [url] st (fst (McpServer._download_asset cfg env url st)).
Proof.
  unfold McpServer._download_asset. fold (asset_path env url).
  pose proof (assets_only_log [url] (McpServer.EvHead url) st I) as H1.
  set (st1 := McpServer.log (McpServer.EvHead url) st) in *.
  destruct (McpServer.asset_head env _ url) as [msg|ct cl]; [exact H1|].
  destruct (McpServer.content_length cl) as [size|msg]; [|exact H1].
  destruct (size >? McpServer.max_asset_size cfg); [exact H1|].
  pose proof (assets_only_trans _ _ _ _ H1
                (assets_only_log [url] (McpServer.EvGet url) st1 I)) as H2.
  set (st2 := McpServer.log (McpServer.EvGet url) st1) in *.
  destruct (McpServer.asset_get env _ url) as [msg|status body]; [exact H2|].
  destruct (status =? 200); [|exact H2].
  pose proof (assets_only_trans _ _ _ _ H2
                (assets_only_log [url] (McpServer.EvOpen (asset_path env url)) st2 I)) as H3.
  set (st3 := McpServer.log (McpServer.EvOpen (asset_path env url)) st2) in *.
  destruct (McpServer.file_open env _ (asset_path env url)) as [msg|]; [exact H3|].
  pose proof (assets_only_trans _ _ _ _ H3 (assets_only_store url "" st3)) as H4.
  set (st4 := McpServer.store (asset_path env url) "" st3) in *.
  destruct body as [bytes|msg]; [|exact H4].
  pose proof (assets_only_trans _ _ _ _ H4
                (assets_only_log [url] (McpServer.EvWrite (asset_path env url) bytes) st4 I))
    as H5.
  set (st5 := McpServer.log (McpServer.EvWrite (asset_path env url) bytes) st4) in *.
  destruct (McpServer.file_write env _ (asset_path env url) bytes) as [msg|]; [exact H5|].
  exact (assets_only_trans _ _ _ _ H5 (assets_only_store url bytes st5)).
Qed.

Lemma download_all_only (urls : list string) :
  ∀ st assets,
    assets_only env urls st (fst (McpServer.download_all cfg env urls st assets)).
Proof.
  induction urls as [|url rest IH]; intros st assets; simpl; [apply assets_only_refl|].
  pose proof (download_asset_only url st) as Hd.
  assert (Hstep : ∀ st1 assets1,
            assets_only env [url] st st1 →
            assets_only env (url :: rest) st
              (fst (McpServer.download_all cfg env rest st1 assets1))).
  { intros st1 assets1 H1. eapply assets_only_trans.
    - eapply assets_only_weaken; [|exact H1]. intros u Hu.
      apply list_elem_of_singleton in Hu as ->. now left.
    - eapply assets_only_weaken; [|apply IH]. intros u Hu. now right. }
  destruct (McpServer._download_asset cfg env url st) as [st1 [[a|]|msg]]; simpl in Hd;
    now apply Hstep.
Qed.

Lemma process_assets_only (refs : option (list string)) (st : McpServer.State) :
  assets_only env (filter (McpServer.asset_candidate cfg) (default [] refs)) st
    (fst (McpServer._process_assets cfg env refs st)).
Proof.
  destruct refs as [refs|]; simpl; [apply download_all_only | apply assets_only_refl].
Qed.

Lemma except_clause_recorded (url msg : string) (st : McpServer.State)
    (a : McpServer.Asset) :
  McpServer.except_clause url msg = McpServer.Return (Some a) →
  McpServer.a_url a = url ∧ asset_recorded env st a.
Proof.
  unfold McpServer.except_clause, McpServer.failed_asset, McpServer.new_asset,
    asset_recorded.
  simpl. destruct (http_url_error url); [discriminate|].
  intros [= <-]. simpl. split; [reflexivity|]. split; [reflexivity|]. right. eauto.
Qed.

Lemma return_asset_cases (url : string) (a0 a : McpServer.Asset) :
  McpServer.return_asset url a0 = McpServer.Return (Some a) →
  a = a0 ∨ ∃ msg, McpServer.except_clause url msg = McpServer.Return (Some a).
Proof.
  unfold McpServer.return_asset, McpServer.new_asset.
  destruct (http_url_error (McpServer.a_url a0)).
  - intros Hclause. right. eauto.
  - intros [= <-]. now left.
Qed.

Lemma download_asset_recorded (url : string) (st st' : McpServer.State)
    (a : McpServer.Asset) :
  McpServer._download_asset cfg env url st = (st', McpServer.Return (Some a)) →
  McpServer.a_url a = url ∧ asset_recorded env st' a.
Proof.
  unfold McpServer._download_asset. fold (asset_path env url).
  destruct (McpServer.asset_head env _ url) as [msg|ct cl].
  { intros [= <- Hc]. exact (except_clause_recorded _ _ _ _ Hc). }
  destruct (McpServer.content_length cl) as [size|msg].
  2:{ intros [= <- Hc]. exact (except_clause_recorded _ _ _ _ Hc). }
  destruct (size >? McpServer.max_asset_size cfg).
  { intros [= <- Hr]. apply return_asset_cases in Hr as [->|[msg Hc]];
      [|exact (except_clause_recorded _ _ _ _ Hc)].
    unfold asset_recorded. simpl. split; [reflexivity|]. split; [reflexivity|].
    right. eauto. }
  destruct (McpServer.asset_get env _ url) as [msg|status body].
  { intros [= <- Hc]. exact (except_clause_recorded _ _ _ _ Hc). }
  destruct (status =? 200); [|discriminate].
  destruct (McpServer.file_open env _ (asset_path env url)) as [msg|].
  { intros [= <- Hc]. exact (except_clause_recorded _ _ _ _ Hc). }
  destruct body as [bytes|msg].
  2:{ intros [= <- Hc]. exact (except_clause_recorded _ _ _ _ Hc). }
  destruct (McpServer.file_write env _ (asset_path env url) bytes) as [msg|].
  { intros [= <- Hc]. exact (except_clause_recorded _ _ _ _ Hc). }
  intros [= <- Hr]. apply return_asset_cases in Hr as [->|[msg Hc]];
    [|exact (except_clause_recorded _ _ _ _ Hc)].
  unfold asset_recorded. simpl. split; [reflexivity|]. split; [reflexivity|]. left.
  repeat split. rewrite lookup_insert_eq. eauto.
Qed.

Lemma asset_recorded_kept (urls : list string) (st st' : McpServer.State)
    (a : McpServer.Asset) :
  assets_only env urls st st' → asset_recorded env st a → asset_recorded env st' a.
Proof.
  intros (_ & _ & Hkeep & _) (Hty & [(Hd & He & Hp & Hs)|Hfailed]).
  - split; [assumption|]. left. auto.
  - split; [assumption|]. now right.
Qed.

Lemma download_all_recorded (urls : list string) :
  ∀ st assets st' out,
    McpServer.download_all cfg env urls st assets = (st', out) →
    Forall (asset_recorded env st) assets →
    ∃ added,
      out = assets ++ added
      ∧ Forall (asset_recorded env st') out
      ∧ map McpServer.a_url added `sublist_of` urls.
Proof.
  induction urls as [|url rest IH]; intros st assets st' out; simpl.
  - intros [= <- <-] Hall. exists []. rewrite app_nil_r. repeat split; auto.
  - pose proof (download_asset_only url st) as Honly.
    destruct (McpServer._download_asset cfg env url st) as [st1 [[a|]|msg]] eqn:Hd;
      simpl in Honly; intros Hrest Hall.
    + apply download_asset_recorded in Hd as [Hurl Hrec].
      apply IH in Hrest as (added & -> & Hout & Hsub).
      * exists (a :: added). rewrite <- app_assoc. split; [reflexivity|].
        split; [now rewrite <- app_assoc in Hout|].
        simpl. rewrite Hurl. now apply sublist_skip.
      * apply Forall_app. split; [|constructor; [exact Hrec | constructor]].
        eapply Forall_impl; [exact Hall|]. intros a0. now apply asset_recorded_kept with [url].
    + apply IH in Hrest as (added & -> & Hout & Hsub).
      * exists added. repeat split; auto. now apply sublist_cons.
      * eapply Forall_impl; [exact Hall|]. intros a0. now apply asset_recorded_kept with [url].
    + apply IH in Hrest as (added & -> & Hout & Hsub).
      * exists added. repeat split; auto. now apply sublist_cons.
      * eapply Forall_impl; [exact Hall|]. intros a0. now apply asset_recorded_kept with [url].
Qed.

End AssetTrace.

(** X12. A successful download: the probe announces a size within the
    limit, the request is answered with 200, and the file can be opened
    and written.  The body is then stored in the asset directory under
    the SHA-256 of the URL followed by the suffix of the URL, and no
    other file is touched.  For a URL that is a valid [HttpUrl] the
    record returned names this path; the size it carries is the announced
    one, whatever the length of the body.  For a URL that is not, the
    file is written all the same and the [ValidationError] of the record
    leaves [_download_asset]. *)
Theorem downloaded_asset_is_stored `{PyLib}
    (cfg : McpServer.CrawlerConfig) (env : McpServer.Env) (url : string)
    (st : McpServer.State) (ct cl : option string) (size : Z) (bytes : string) :
  McpServer.asset_head env (length (McpServer.trace st)) url = McpServer.HeadOk ct cl →
  McpServer.content_length cl = inl size →
  size ≤ McpServer.max_asset_size cfg →
  McpServer.asset_get env (S (length (McpServer.trace st))) url
  = McpServer.GetOk 200 (inl bytes) →
  McpServer.file_open env (S (S (length (McpServer.trace st)))) (asset_path env url)
  = None →
  McpServer.file_write env (S (S (S (length (McpServer.trace st)))))
    (asset_path env url) bytes = None →
  ∃ st',
    McpServer._download_asset cfg env url st
    = (st',
       match http_url_error url with
       | None =>
           McpServer.Return
             (Some {| McpServer.a_url := url;
                      McpServer.file_type := path_suffix url;
                      McpServer.a_content_type := default "" ct;
                      McpServer.a_size := size;
                      McpServer.local_path := Some (asset_path env url);
                      McpServer.downloaded := true;
                      McpServer.error := None |})
       | Some e => McpServer.Raise (validation_error "Asset" [("url", e)])
       end)
    ∧ McpServer.storage st' !! asset_path env url = Some bytes
    ∧ (∀ p, p ≠ asset_path env url →
            McpServer.storage st' !! p = McpServer.storage st !! p)
    ∧ McpServer.visited_urls st' = McpServer.visited_urls st.
Proof.
  intros Hhead Hlen Hfit Hget Hopen Hwrite.
  unfold McpServer._download_asset. fold (asset_path env url).
  rewrite Hhead, Hlen.
  destruct (Z.gtb_spec size (McpServer.max_asset_size cfg)); [lia|].
  rewrite !trace_log_length, Hget. cbn [Z.eqb Pos.eqb].
  rewrite Hopen.
  change (length (McpServer.trace (McpServer.store (asset_path env url) ""
            (McpServer.log (McpServer.EvOpen (asset_path env url))
               (McpServer.log (McpServer.EvGet url)
                  (McpServer.log (McpServer.EvHead url) st))))))
    with (length (McpServer.trace
            (McpServer.log (McpServer.EvOpen (asset_path env url))
               (McpServer.log (McpServer.EvGet url)
                  (McpServer.log (McpServer.EvHead url) st))))).
  rewrite !trace_log_length, Hwrite.
  eexists. split.
  - f_equal. destruct (http_url_error url) as [e|] eqn:Hurl.
    + now apply return_asset_invalid.
    + now apply return_asset_valid.
  - simpl. split; [apply lookup_insert_eq|]. split; [|reflexivity].
    intros p Hp. now rewrite !lookup_insert_ne by congruence.
Qed.

(** The fourth asset of the example page. *)
Lemma downloaded_asset_is_stored_witness :
  ∃ st',
    McpServer._download_asset (Examples.pw_cfg "http://site.test/docs/" 2 10)
      Examples.asset_env "http://site.test/ok.png" McpServer.init_state
    = (st', McpServer.Return
              (Some {| McpServer.a_url := "http://site.test/ok.png";
                       McpServer.file_type := path_suffix "http://site.test/ok.png";
                       McpServer.a_content_type := "image/png";
                       McpServer.a_size := 4;
                       McpServer.local_path :=
                         Some (asset_path Examples.asset_env "http://site.test/ok.png");
                       McpServer.downloaded := true;
                       McpServer.error := None |}))
    ∧ McpServer.storage st' !! asset_path Examples.asset_env "http://site.test/ok.png"
      = Some "PNG."
    ∧ (∀ p, p ≠ asset_path Examples.asset_env "http://site.test/ok.png" →
            McpServer.storage st' !! p = McpServer.storage McpServer.init_state !! p)
    ∧ McpServer.visited_urls st' = McpServer.visited_urls McpServer.init_state.
Proof.
  assert (Hvalid : http_url_error "http://site.test/ok.png" = None)
    by (vm_compute; reflexivity).
  pose proof (downloaded_asset_is_stored (Examples.pw_cfg "http://site.test/docs/" 2 10)
                Examples.asset_env "http://site.test/ok.png" McpServer.init_state
                (Some "image/png") (Some "4") 4 "PNG."
                eq_refl eq_refl ltac:(simpl; lia) eq_refl eq_refl eq_refl) as Hstored.
  rewrite Hvalid in Hstored. exact Hstored.
Defined.

(** X13. Every record that [_process_assets] returns agrees with the
    files at its end: it is downloaded, without error and with an
    existing file of its URL as local path, or it is not downloaded, has
    no local path and carries an error.  The records are for candidate
    references of the page, in document order; a reference whose download
    is answered with a status other than 200 has no record. *)
Theorem asset_records_agree_with_files `{PyLib}
    (cfg : McpServer.CrawlerConfig) (env : McpServer.Env)
    (refs : option (list string)) (st st' : McpServer.State)
    (assets : list McpServer.Asset) :
  McpServer._process_assets cfg env refs st = (st', assets) →
  Forall (asset_recorded env st') assets
  ∧ map McpServer.a_url assets
    `sublist_of` filter (McpServer.asset_candidate cfg) (default [] refs)
  ∧ McpServer.visited_urls st' = McpServer.visited_urls st.
Proof.
  intros Hrun. pose proof (process_assets_only cfg env refs st) as (Hv & _).
  rewrite Hrun in Hv. simpl in Hv.
  destruct refs as [refs|]; simpl in *.
  - apply download_all_recorded in Hrun as (added & -> & Hall & Hsub); [|constructor].
    auto.
  - injection Hrun as <- <-. repeat split; auto.
Qed.

(** The four asset references of the example page. *)
Lemma asset_records_agree_with_files_witness :
  ∃ st' assets,
    McpServer._process_assets (Examples.pw_cfg "http://site.test/docs/" 2 10)
      Examples.asset_env (Some Examples.asset_refs) McpServer.init_state = (st', assets)
    ∧ length assets = 4%nat
    ∧ Forall (asset_recorded Examples.asset_env st') assets
    ∧ map McpServer.a_url assets
      `sublist_of` filter (McpServer.asset_candidate
                             (Examples.pw_cfg "http://site.test/docs/" 2 10))
                          Examples.asset_refs
    ∧ McpServer.visited_urls st' = McpServer.visited_urls McpServer.init_state.
Proof.
  assert (Hrun : ∃ st' assets,
            McpServer._process_assets (Examples.pw_cfg "http://site.test/docs/" 2 10)
              Examples.asset_env (Some Examples.asset_refs) McpServer.init_state
            = (st', assets)
            ∧ length assets = 4%nat).
  { eexists _, _. split; [vm_compute; reflexivity|]. reflexivity. }
  destruct Hrun as (st' & assets & Hrun & Hlen).
  exists st', assets. split; [exact Hrun|]. split; [exact Hlen|].
  exact (asset_records_agree_with_files _ _ _ _ _ _ Hrun).
Defined.

(** ** The work-list crawler: files, and pages that load late *)

Lemma sleeps_log (e : McpServer.Event) (st : McpServer.State) :
  McpServer.sleeps (McpServer.log e st)
  = McpServer.sleeps st ++ omap McpServer.sleep_of [e].
Proof. unfold McpServer.sleeps, McpServer.log. cbn [McpServer.trace]. apply omap_app. Qed.

Section PageLoads.
Context `{PyLib} (cfg : McpServer.CrawlerConfig) (env : McpServer.Env).

(** The assets of a page once it is accepted: no navigation, no pause,
    the visited set untouched. *)
Lemma process_assets_quiet (refs : option (list string)) (st : McpServer.State) :
  let st' := fst (if McpServer.download_assets cfg
                  then McpServer._process_assets cfg env refs st
                  else (st, [])) in
  McpServer.visited_urls st' = McpServer.visited_urls st
  ∧ McpServer.gotos st' = McpServer.gotos st
  ∧ McpServer.sleeps st' = McpServer.sleeps st
  ∧ (∀ p, McpServer.storage st' !! p ≠ McpServer.storage st !! p →
          ∃ u, McpServer.asset_candidate cfg u = true ∧ p = asset_path env u)
  ∧ (McpServer.download_assets cfg = false → st' = st).
Proof.
  destruct (McpServer.download_assets cfg); simpl.
  - destruct (process_assets_only cfg env refs st) as (Hv & (evs & Ht & Hev) & _ & Hw).
    destruct (asset_events_silent evs Hev) as [Hg Hs].
    unfold McpServer.gotos, McpServer.sleeps. rewrite Ht, !omap_app, Hg, Hs, !app_nil_r.
    repeat split; auto; [|discriminate].
    intros p Hp. destruct (Hw p Hp) as (u & Hu & ->).
    apply list_elem_of_filter in Hu as [Hu _]. apply Is_true_true in Hu. eauto.
  - repeat split; auto. intros p Hp. contradiction.
Qed.

(** One call of [_process_url] writes files for candidate assets only. *)
Lemma attempts_storage (url : string) (n : nat) :
  ∀ attempt st st' r,
    McpServer.attempts cfg env n attempt url st = (st', r) →
    (∀ p, McpServer.storage st' !! p ≠ McpServer.storage st !! p →
          ∃ u, McpServer.asset_candidate cfg u = true ∧ p = asset_path env u)
    ∧ (McpServer.download_assets cfg = false →
       McpServer.storage st' = McpServer.storage st).
Proof.
  induction n as [|n IH]; intros attempt st st' r; simpl.
  - intros [= <- <-]. split; [intros p Hp; contradiction | reflexivity].
  - destruct (McpServer.goto env (length (McpServer.trace st)) url)
      as [msg| |page_url content refs].
    + destruct (attempt =? McpServer.retry_attempts cfg - 1).
      * intros [= <- <-]. split; [intros p Hp; contradiction | reflexivity].
      * intros Hrec. apply IH in Hrec. exact Hrec.
    + intros [= <- <-]. split; [intros p Hp; contradiction | reflexivity].
    + destruct (negb _);
        [intros [= <- <-]; split; [intros p Hp; contradiction | reflexivity]|].
      pose proof (process_assets_quiet refs (McpServer.log (McpServer.EvGoto url) st))
        as (_ & _ & _ & Hw & Hoff).
      destruct (if McpServer.download_assets cfg
                then McpServer._process_assets cfg env refs _
                else _) as [st2 assets].
      simpl in Hw, Hoff.
      destruct (McpServer.new_extraction _) as [c|msg].
      * intros [= <- <-]. simpl. split; [exact Hw|].
        intros Hno. now rewrite (Hoff Hno).
      * destruct (attempt =? McpServer.retry_attempts cfg - 1).
        -- intros [= <- <-]. simpl. split; [exact Hw|].
           intros Hno. now rewrite (Hoff Hno).
        -- intros Hrec. apply IH in Hrec. simpl in Hrec.
           destruct Hrec as [Hw' Hoff']. split.
           ++ intros p Hp.
              destruct (decide (McpServer.storage st2 !! p = McpServer.storage st !! p))
                as [Heq|Hne]; [|now apply Hw].
              apply Hw'. now rewrite Heq.
           ++ intros Hno. rewrite (Hoff' Hno). now rewrite (Hoff Hno).
Qed.

Lemma step_state (s s' : McpServer.Loop) :
  McpServer.step cfg env s = Some s' →
  McpServer.st s' = McpServer.st s
  ∨ ∃ url depth r,
      McpServer._process_url cfg env url depth (McpServer.st s) = (McpServer.st s', r).
Proof.
  unfold McpServer.step.
  destruct (McpServer.queue s) as [|[url depth] rest]; [discriminate|].
  destruct (negb _); [discriminate|].
  destruct (_ || _); [intros [= <-]; now left|].
  destruct (negb _); [intros [= <-]; now left|].
  destruct (McpServer._process_url cfg env url depth (McpServer.st s))
    as [st1 r] eqn:Hproc.
  intros Hstep. right. exists url, depth, r. rewrite Hproc. f_equal.
  destruct r as [[c|]|msg]; try (injection Hstep as <-; reflexivity).
  destruct (depth <? McpServer.max_depth cfg);
    [destruct (McpServer._filter_urls cfg st1 (McpServer.ce_links c))|];
    injection Hstep as <-; reflexivity.
Qed.

(** A page that loads at the navigation number [k + 1], the [k] before
    having raised. *)
Lemma attempts_then_load (url page_url : string) (content : McpServer.Content)
    (refs : option (list string)) (k : nat) :
  In (McpServer.type (McpServer._classify_content page_url content))
     (McpServer.content_types cfg) →
  http_url_error url = None →
  Forall (fun link => http_url_error link = None) (McpServer.links content) →
  ∀ n attempt st,
    (k < n)%nat →
    attempt + Z.of_nat k < McpServer.retry_attempts cfg →
    (∀ i, (i < k)%nat →
          ∃ msg, McpServer.goto env (length (McpServer.trace st) + 2 * i) url
                 = McpServer.LoadRaises msg) →
    McpServer.goto env (length (McpServer.trace st) + 2 * k) url
    = McpServer.LoadPage page_url content refs →
    ∃ st' c,
      McpServer.attempts cfg env n attempt url st = (st', McpServer.Return (Some c))
      ∧ McpServer.ce_url c = url
      ∧ McpServer.ce_content c = McpServer.text content
      ∧ McpServer.visited_urls st' = {[url]} ∪ McpServer.visited_urls st
      ∧ McpServer.gotos st' = McpServer.gotos st ++ replicate (S k) url
      ∧ McpServer.sleeps st'
        = McpServer.sleeps st ++ map (backoff cfg) (seqZ (attempt + 1) (Z.of_nat k)).
Proof.
  intros Htype Hurl Hlinks.
  assert (Hin : existsb (String.eqb
                           (McpServer.type (McpServer._classify_content page_url content)))
                  (McpServer.content_types cfg) = true).
  { apply existsb_exists. eexists. split; [exact Htype|]. apply String.eqb_refl. }
  induction k as [|k IH]; intros n attempt st Hn Hatt Hfail Hload;
    (destruct n as [|n]; [lia|]).
  - replace (length (McpServer.trace st) + 2 * 0)%nat
      with (length (McpServer.trace st)) in Hload by lia.
    cbn [McpServer.attempts]. rewrite Hload, Hin. cbn [negb].
    pose proof (process_assets_quiet refs (McpServer.log (McpServer.EvGoto url) st))
      as (Hv & Hg & Hs & _).
    destruct (if McpServer.download_assets cfg
              then McpServer._process_assets cfg env refs _
              else _) as [st2 assets].
    simpl in Hv, Hg, Hs. rewrite new_extraction_valid by assumption.
    eexists _, _. split; [reflexivity|].
    split; [reflexivity|]. split; [reflexivity|].
    split; [simpl; now rewrite Hv|].
    change (McpServer.gotos (McpServer.mark_visited url st2)) with (McpServer.gotos st2).
    change (McpServer.sleeps (McpServer.mark_visited url st2)) with (McpServer.sleeps st2).
    rewrite Hg, Hs, gotos_log, sleeps_log. simpl. now rewrite !app_nil_r.
  - destruct (Hfail 0%nat) as [msg Hmsg]; [lia|].
    replace (length (McpServer.trace st) + 2 * 0)%nat
      with (length (McpServer.trace st)) in Hmsg by lia.
    rewrite (attempts_raise cfg env _ _ _ _ _ Hmsg).
    destruct (Z.eqb_spec attempt (McpServer.retry_attempts cfg - 1)); [lia|].
    set (st2 := McpServer.log (McpServer.EvSleep (backoff cfg (attempt + 1)))
                  (McpServer.log (McpServer.EvGoto url) st)).
    assert (Hlen : length (McpServer.trace st2) = S (S (length (McpServer.trace st)))).
    { unfold st2. now rewrite !trace_log_length. }
    destruct (IH n (attempt + 1) st2) as (st' & c & Hrun & Hc & Ht & Hv & Hg & Hs).
    + lia.
    + lia.
    + intros i Hi. destruct (Hfail (S i)) as [m Hm]; [lia|]. exists m.
      rewrite Hlen. rewrite <- Hm. f_equal. lia.
    + rewrite Hlen. rewrite <- Hload. f_equal. lia.
    + exists st', c. split; [exact Hrun|]. split; [exact Hc|]. split; [exact Ht|].
      split; [exact Hv|]. split.
      * rewrite Hg. unfold st2. rewrite !gotos_log. simpl.
        rewrite app_nil_r, <- app_assoc. reflexivity.
      * rewrite Hs. unfold st2. rewrite !sleeps_log. simpl.
        rewrite app_nil_r, <- app_assoc. simpl.
        rewrite (seqZ_cons (attempt + 1)) by lia. simpl.
        do 4 f_equal; lia.
Qed.

End PageLoads.

(** X14. Without a Content-Length header the announced size counts as 0:
    for a size limit of at least 0 the download is requested whatever the
    length of the body, and a record of a stored asset carries the size
    0. *)
Theorem missing_content_length_passes_size_limit `{PyLib}
    (cfg : McpServer.CrawlerConfig) (env : McpServer.Env) (url : string)
    (st : McpServer.State) (ct : option string) :
  McpServer.asset_head env (length (McpServer.trace st)) url = McpServer.HeadOk ct None →
  0 ≤ McpServer.max_asset_size cfg →
  ∃ st' r,
    McpServer._download_asset cfg env url st = (st', r)
    ∧ McpServer.EvGet url ∈ McpServer.trace st'
    ∧ ∀ a, r = McpServer.Return (Some a) →
           McpServer.downloaded a = true → McpServer.a_size a = 0.
Proof.
  intros Hhead Hlimit. unfold McpServer._download_asset. rewrite Hhead. simpl.
  destruct (Z.gtb_spec 0 (McpServer.max_asset_size cfg)); [lia|].
  assert (Hexc : ∀ msg a,
             McpServer.except_clause url msg = McpServer.Return (Some a) →
             McpServer.downloaded a = true → McpServer.a_size a = 0).
  { intros msg a.
    unfold McpServer.except_clause, McpServer.failed_asset, McpServer.new_asset.
    simpl. destruct (http_url_error url); [discriminate|]. now intros [= <-]. }
  repeat match goal with
         | |- context [match ?x with _ => _ end] => destruct x
         end;
    (eexists _, _; split; [reflexivity|]; split; [simpl; set_solver|]);
    intros a Hr;
    first [ discriminate Hr
          | exact (Hexc _ _ Hr)
          | apply return_asset_cases in Hr as [->|[m Hc]];
            [now simpl | exact (Hexc _ _ Hc)] ].
Qed.

(** A stored asset whose probe has no Content-Length. *)
Lemma missing_content_length_passes_size_limit_witness :
  ∃ st' r,
    McpServer._download_asset (Examples.pw_cfg "http://site.test/docs/" 2 10)
      {| McpServer.goto := McpServer.goto Examples.asset_env;
         McpServer.asset_head := fun _ _ => McpServer.HeadOk (Some "image/png") None;
         McpServer.asset_get := McpServer.asset_get Examples.asset_env;
         McpServer.file_open := McpServer.file_open Examples.asset_env;
         McpServer.file_write := McpServer.file_write Examples.asset_env;
         McpServer.asset_dir := "data/assets" |}
      "http://site.test/ok.png" McpServer.init_state = (st', r)
    ∧ McpServer.EvGet "http://site.test/ok.png" ∈ McpServer.trace st'
    ∧ ∀ a, r = McpServer.Return (Some a) →
           McpServer.downloaded a = true → McpServer.a_size a = 0.
Proof.
  apply (missing_content_length_passes_size_limit
           (Examples.pw_cfg "http://site.test/docs/" 2 10) _
           "http://site.test/ok.png" McpServer.init_state (Some "image/png"));
    [reflexivity | simpl; lia].
Defined.

(** X15. At every point of a run of the work-list crawler, a file exists
    only at the path that a download writes for some candidate asset URL
    (a non-empty [http] URL that ends, in lower case, with one of
    [asset_types]); with [download_assets] off no file exists. *)
Theorem files_are_written_for_candidate_assets_only `{PyLib}
    (cfg : McpServer.CrawlerConfig) (env : McpServer.Env) (s : McpServer.Loop) :
  McpServer.reachable cfg env s →
  (∀ p, is_Some (McpServer.storage (McpServer.st s) !! p) →
        ∃ u, McpServer.asset_candidate cfg u = true ∧ p = asset_path env u)
  ∧ (McpServer.download_assets cfg = false →
     McpServer.storage (McpServer.st s) = ∅).
Proof.
  intros Hreach. induction Hreach as [|s s' Hreach [IHp IHoff] Hstep].
  - split; [|reflexivity]. intros p [x Hp]. simpl in Hp.
    rewrite lookup_empty in Hp. discriminate.
  - apply step_state in Hstep as [->|(url & depth & r & Hproc)]; [auto|].
    apply attempts_storage in Hproc as [Hw Hoff].
    split; [|intros Hno; rewrite (Hoff Hno); auto].
    intros p Hp.
    destruct (decide (McpServer.storage (McpServer.st s') !! p
                      = McpServer.storage (McpServer.st s) !! p)) as [Heq|Hne];
      [|auto].
    apply IHp. now rewrite <- Heq.
Qed.

(** After the example page with four asset references. *)
Lemma files_are_written_for_candidate_assets_only_witness :
  ∃ s,
    McpServer.step (Examples.pw_cfg "http://site.test/docs/" 2 10) Examples.asset_env
      (McpServer.init_loop (Examples.pw_cfg "http://site.test/docs/" 2 10)) = Some s
    ∧ is_Some (McpServer.storage (McpServer.st s)
               !! asset_path Examples.asset_env "http://site.test/ok.png")
    ∧ (∀ p, is_Some (McpServer.storage (McpServer.st s) !! p) →
            ∃ u, McpServer.asset_candidate
                   (Examples.pw_cfg "http://site.test/docs/" 2 10) u = true
                 ∧ p = asset_path Examples.asset_env u)
    ∧ (McpServer.download_assets (Examples.pw_cfg "http://site.test/docs/" 2 10) = false →
       McpServer.storage (McpServer.st s) = ∅).
Proof.
  assert (Hstep : ∃ s,
            McpServer.step (Examples.pw_cfg "http://site.test/docs/" 2 10)
              Examples.asset_env
              (McpServer.init_loop (Examples.pw_cfg "http://site.test/docs/" 2 10))
            = Some s
            ∧ is_Some (McpServer.storage (McpServer.st s)
                       !! asset_path Examples.asset_env "http://site.test/ok.png")).
  { eexists. split; [vm_compute; reflexivity|]. vm_compute. eauto. }
  destruct Hstep as (s & Hstep & Hfile).
  exists s. split; [exact Hstep|]. split; [exact Hfile|].
  apply (files_are_written_for_candidate_assets_only
           (Examples.pw_cfg "http://site.test/docs/" 2 10) Examples.asset_env s).
  eapply McpServer.reach_step; [apply McpServer.reach_init | exact Hstep].
Defined.

(** X16. A page whose first [k] navigations raise and whose next one
    loads an accepted page, with [k] below [retry_attempts], the URL of
    the page and every link found on it being valid [HttpUrl]s: the page
    is returned and marked visited after [k + 1] navigations, with a
    pause of [retry_delay * j] after the failed attempt number [j]. *)
Theorem page_is_returned_after_failed_attempts `{PyLib}
    (cfg : McpServer.CrawlerConfig) (env : McpServer.Env) (url : string) (depth : Z)
    (st : McpServer.State) (k : nat) (page_url : string) (content : McpServer.Content)
    (refs : option (list string)) :
  Z.of_nat k < McpServer.retry_attempts cfg →
  (∀ i, (i < k)%nat →
        ∃ msg, McpServer.goto env (length (McpServer.trace st) + 2 * i) url
               = McpServer.LoadRaises msg) →
  McpServer.goto env (length (McpServer.trace st) + 2 * k) url
  = McpServer.LoadPage page_url content refs →
  In (McpServer.type (McpServer._classify_content page_url content))
     (McpServer.content_types cfg) →
  http_url_error url = None →
  Forall (fun link => http_url_error link = None) (McpServer.links content) →
  ∃ st' c,
    McpServer._process_url cfg env url depth st = (st', McpServer.Return (Some c))
    ∧ McpServer.ce_url c = url
    ∧ McpServer.ce_content c = McpServer.text content
    ∧ McpServer.visited_urls st' = {[url]} ∪ McpServer.visited_urls st
    ∧ McpServer.gotos st' = McpServer.gotos st ++ replicate (S k) url
    ∧ McpServer.sleeps st'
      = McpServer.sleeps st ++ map (backoff cfg) (seqZ 1 (Z.of_nat k)).
Proof.
  intros Hk Hfail Hload Htype Hurl Hlinks. unfold McpServer._process_url.
  apply (attempts_then_load cfg env url page_url content refs k Htype Hurl Hlinks);
    auto; lia.
Qed.

(** Two timeouts, then the page: three navigations, pauses of one and
    two seconds. *)
Lemma page_is_returned_after_failed_attempts_witness :
  ∃ st' c,
    McpServer._process_url (Examples.pw_cfg "http://site.test/docs/" 2 10)
      (Examples.flaky 2) "http://site.test/docs/" 0 McpServer.init_state
    = (st', McpServer.Return (Some c))
    ∧ McpServer.ce_url c = "http://site.test/docs/"
    ∧ McpServer.ce_content c = "Installation and usage"
    ∧ McpServer.visited_urls st'
      = {["http://site.test/docs/"]} ∪ McpServer.visited_urls McpServer.init_state
    ∧ McpServer.gotos st'
      = McpServer.gotos McpServer.init_state ++ replicate 3 "http://site.test/docs/"
    ∧ McpServer.sleeps st'
      = McpServer.sleeps McpServer.init_state
        ++ map (backoff (Examples.pw_cfg "http://site.test/docs/" 2 10)) (seqZ 1 2).
Proof.
  apply (page_is_returned_after_failed_attempts
           (Examples.pw_cfg "http://site.test/docs/" 2 10) (Examples.flaky 2)
           "http://site.test/docs/" 0 McpServer.init_state 2
           "http://site.test/docs/" (Examples.doc_content []) (Some [])).
  - simpl. lia.
  - intros i Hi. eexists. simpl McpServer.goto.
    destruct i as [|[|i]]; [reflexivity | reflexivity | lia].
  - reflexivity.
  - vm_compute. tauto.
  - vm_compute. reflexivity.
  - constructor.
Defined.

(** ** The work-list crawler: robots.txt and content types *)

Section RobotsSwitch.
Context `{PyLib} (b : bool) (cfg : McpServer.CrawlerConfig) (env : McpServer.Env).

Lemma download_asset_with_respect_robots (url : string) (st : McpServer.State) :
  McpServer._download_asset (with_respect_robots b cfg) env url st
  = McpServer._download_asset cfg env url st.
Proof. reflexivity. Qed.

Lemma download_all_with_respect_robots (urls : list string) :
  ∀ st assets,
    McpServer.download_all (with_respect_robots b cfg) env urls st assets
    = McpServer.download_all cfg env urls st assets.
Proof.
  induction urls as [|url rest IH]; intros st assets; simpl; [reflexivity|].
  rewrite download_asset_with_respect_robots.
  destruct (McpServer._download_asset cfg env url st) as [st1 [[a|]|msg]]; apply IH.
Qed.

Lemma process_assets_with_respect_robots (refs : option (list string))
    (st : McpServer.State) :
  McpServer._process_assets (with_respect_robots b cfg) env refs st
  = McpServer._process_assets cfg env refs st.
Proof.
  destruct refs as [refs|]; simpl; [|reflexivity].
  apply download_all_with_respect_robots.
Qed.

Lemma attempts_with_respect_robots (url : string) (n : nat) :
  ∀ attempt st,
    McpServer.attempts (with_respect_robots b cfg) env n attempt url st
    = McpServer.attempts cfg env n attempt url st.
Proof.
  induction n as [|n IH]; intros attempt st; simpl; [reflexivity|].
  destruct (McpServer.goto env (length (McpServer.trace st)) url)
    as [msg| |page_url content refs]; [|reflexivity|].
  - destruct (attempt =? McpServer.retry_attempts cfg - 1); [reflexivity|]. apply IH.
  - destruct (negb _); [reflexivity|].
    rewrite process_assets_with_respect_robots.
    destruct (if McpServer.download_assets cfg
              then McpServer._process_assets cfg env refs _
              else _) as [st2 assets].
    destruct (McpServer.new_extraction _); [reflexivity|].
    destruct (attempt =? McpServer.retry_attempts cfg - 1); [reflexivity|]. apply IH.
Qed.

Lemma step_with_respect_robots (s : McpServer.Loop) :
  McpServer.step (with_respect_robots b cfg) env s = McpServer.step cfg env s.
Proof.
  unfold McpServer.step.
  destruct (McpServer.queue s) as [|[url depth] rest]; [reflexivity|].
  rewrite !is_allowed_by_robots_true.
  unfold McpServer._process_url. rewrite attempts_with_respect_robots.
  reflexivity.
Qed.

Lemma run_with_respect_robots (fuel : nat) :
  ∀ s, McpServer.run (with_respect_robots b cfg) env fuel s = McpServer.run cfg env fuel s.
Proof.
  induction fuel as [|fuel IH]; intros s; simpl; rewrite step_with_respect_robots;
    destruct (McpServer.step cfg env s); auto.
Qed.

End RobotsSwitch.

(** X17. The work-list crawler never consults a robots.txt: a run with
    [respect_robots] on is the run with it off, and the request handler
    lets every request continue. *)
Theorem respect_robots_changes_nothing `{PyLib}
    (b : bool) (cfg : McpServer.CrawlerConfig) (env : McpServer.Env) (fuel : nat)
    (url : string) :
  McpServer.crawl (with_respect_robots b cfg) env fuel = McpServer.crawl cfg env fuel
  ∧ McpServer.run (with_respect_robots b cfg) env fuel
      (McpServer.init_loop (with_respect_robots b cfg))
    = McpServer.run cfg env fuel (McpServer.init_loop cfg)
  ∧ McpServer._handle_request cfg url = McpServer.Continue.
Proof.
  assert (Hrun : McpServer.run (with_respect_robots b cfg) env fuel
                   (McpServer.init_loop (with_respect_robots b cfg))
                 = McpServer.run cfg env fuel (McpServer.init_loop cfg)).
  { rewrite run_with_respect_robots. reflexivity. }
  split; [|split; [exact Hrun|]].
  - unfold McpServer.crawl. now rewrite Hrun.
  - unfold McpServer._handle_request. now rewrite is_allowed_by_robots_true.
Qed.

(** X18. The type of a page by the number of its signals: documentation
    for all three, guide for two, unknown for one or none; two thirds
    lies between the thresholds 0.4 and 0.7 and one third below.  The
    classifier gives no other type. *)
Theorem type_by_number_of_signals (page_url : string) (content : McpServer.Content) :
  let ct := McpServer._classify_content page_url content in
  length (McpServer.features ct) = signals page_url content
  ∧ (McpServer.type ct = "documentation" ↔ signals page_url content = 3%nat)
  ∧ (McpServer.type ct = "guide" ↔ signals page_url content = 2%nat)
  ∧ (McpServer.type ct = "unknown" ↔ (signals page_url content ≤ 1)%nat)
  ∧ In (McpServer.type ct) ["documentation"; "guide"; "unknown"].
Proof.
  unfold McpServer._classify_content, signals; simpl.
  destruct (McpServer.url_pattern page_url),
           (McpServer.metadata_tag (McpServer.metadata content)),
           (McpServer.content_markers (McpServer.text content));
    vm_compute; repeat split; intros; try discriminate; try reflexivity;
    try lia; tauto.
Qed.

Lemma classify_known_signals (page_url : string) (content : McpServer.Content) :
  McpServer.type (McpServer._classify_content page_url content) ≠ "unknown" →
  (2 ≤ length (McpServer.features (McpServer._classify_content page_url content)))%nat.
Proof.
  unfold McpServer._classify_content; simpl.
  destruct (McpServer.url_pattern page_url),
           (McpServer.metadata_tag (McpServer.metadata content)),
           (McpServer.content_markers (McpServer.text content));
    vm_compute; intros Hne; try lia; now contradiction Hne.
Qed.

Section ResultTypes.
Context `{PyLib} (cfg : McpServer.CrawlerConfig) (env : McpServer.Env).

(** A page that [_process_url] returns carries what the browser showed
    and the type found for it, which is a configured one. *)
Lemma attempts_result (url : string) (n : nat) :
  ∀ attempt st st' c,
    McpServer.attempts cfg env n attempt url st = (st', McpServer.Return (Some c)) →
    ∃ page_url content,
      McpServer.ce_content_type c = McpServer._classify_content page_url content
      ∧ In (McpServer.type (McpServer.ce_content_type c)) (McpServer.content_types cfg)
      ∧ McpServer.ce_title c = McpServer.title content
      ∧ McpServer.ce_content c = McpServer.text content
      ∧ McpServer.ce_links c = McpServer.links content.
Proof.
  induction n as [|n IH]; intros attempt st st' c; simpl; [discriminate|].
  destruct (McpServer.goto env (length (McpServer.trace st)) url)
    as [msg| |page_url content refs]; [|discriminate|].
  - destruct (attempt =? McpServer.retry_attempts cfg - 1); [discriminate|]. apply IH.
  - destruct (existsb _ (McpServer.content_types cfg)) eqn:Hex; [|discriminate].
    simpl. apply existsb_exists in Hex as (ty & Hty & Heq).
    apply String.eqb_eq in Heq as <-.
    destruct (if McpServer.download_assets cfg then _ else _) as [st2 assets].
    destruct (McpServer.new_extraction _) as [c'|msg] eqn:Hnew.
    + apply new_extraction_return in Hnew as ->.
      intros [= <- <-]. exists page_url, content. simpl. auto.
    + destruct (attempt =? McpServer.retry_attempts cfg - 1); [discriminate|]. apply IH.
Qed.

Lemma step_result (s s' : McpServer.Loop) :
  McpServer.step cfg env s = Some s' →
  McpServer.results s' = McpServer.results s
  ∨ ∃ url depth st1 c,
      McpServer._process_url cfg env url depth (McpServer.st s)
      = (st1, McpServer.Return (Some c))
      ∧ McpServer.results s' = McpServer.results s ++ [(c, depth)].
Proof.
  unfold McpServer.step.
  destruct (McpServer.queue s) as [|[url depth] rest]; [discriminate|].
  destruct (negb _); [discriminate|].
  destruct (_ || _); [intros [= <-]; now left|].
  destruct (negb _); [intros [= <-]; now left|].
  destruct (McpServer._process_url cfg env url depth (McpServer.st s))
    as [st1 r] eqn:Hproc.
  destruct r as [[c|]|msg]; try (intros [= <-]; now left).
  intros Hstep. right. exists url, depth, st1, c. split; [exact Hproc|].
  destruct (depth <? McpServer.max_depth cfg);
    [destruct (McpServer._filter_urls cfg st1 (McpServer.ce_links c))|];
    injection Hstep as <-; reflexivity.
Qed.

End ResultTypes.

(** X19. Every result of the work-list crawler has a type that is listed
    in [content_types]; unless "unknown" is listed, it therefore shows at
    least two of the three documentation signals. *)
Theorem results_have_a_configured_type `{PyLib}
    (cfg : McpServer.CrawlerConfig) (env : McpServer.Env) (s : McpServer.Loop) :
  McpServer.reachable cfg env s →
  Forall (fun r =>
            In (McpServer.type (McpServer.ce_content_type (fst r)))
               (McpServer.content_types cfg)
            ∧ (¬ In "unknown" (McpServer.content_types cfg) →
               (2 ≤ length (McpServer.features (McpServer.ce_content_type (fst r))))%nat))
         (McpServer.results s).
Proof.
  intros Hreach. induction Hreach as [|s s' Hreach IH Hstep]; [constructor|].
  apply step_result in Hstep as [->|(url & depth & st1 & c & Hproc & ->)];
    [assumption|].
  apply Forall_app. split; [assumption|]. constructor; [|constructor]. simpl.
  apply attempts_result in Hproc as (page_url & content & Hct & Hin & _).
  split; [assumption|]. intros Hno. rewrite Hct in *.
  apply classify_known_signals. intros Hunknown. apply Hno. now rewrite <- Hunknown.
Qed.

(** The end of the run over the example documentation site, where the
    blog page is not listed. *)
Lemma results_have_a_configured_type_witness :
  ∃ s, McpServer.run (Examples.pw_cfg "http://site.test/docs/" 2 10)
         (Examples.browse Examples.docs_site) 4
         (McpServer.init_loop (Examples.pw_cfg "http://site.test/docs/" 2 10)) = Some s
       ∧ result_urls s = ["http://site.test/docs/"; "http://site.test/docs/a"]
       ∧ Forall (fun r =>
                   In (McpServer.type (McpServer.ce_content_type (fst r)))
                      ["documentation"; "api"; "wiki"; "guide"; "manual"]
                   ∧ (¬ In "unknown" ["documentation"; "api"; "wiki"; "guide"; "manual"] →
                      (2 ≤ length (McpServer.features
                                     (McpServer.ce_content_type (fst r))))%nat))
                (McpServer.results s).
Proof.
  assert (Hrun : ∃ s,
            McpServer.run (Examples.pw_cfg "http://site.test/docs/" 2 10)
              (Examples.browse Examples.docs_site) 4
              (McpServer.init_loop (Examples.pw_cfg "http://site.test/docs/" 2 10))
            = Some s
            ∧ result_urls s = ["http://site.test/docs/"; "http://site.test/docs/a"]).
  { eexists. split; [vm_compute; reflexivity|]. reflexivity. }
  destruct Hrun as (s & Hrun & Hurls).
  exists s. split; [exact Hrun|]. split; [exact Hurls|].
  destruct (run_reachable _ _ _ _ _ Hrun (McpServer.reach_init _ _)) as [Hreach _].
  exact (results_have_a_configured_type _ _ s Hreach).
Defined.

(** X20. A configuration that allows no attempt, no depth or no page:
    the work-list crawler returns an empty list without a single
    interaction. *)
Theorem nothing_allowed_nothing_crawled `{PyLib}
    (cfg : McpServer.CrawlerConfig) (env : McpServer.Env) :
  McpServer.retry_attempts cfg ≤ 0 ∨ McpServer.max_depth cfg < 0
  ∨ McpServer.max_pages cfg ≤ 0 →
  ∃ s, McpServer.run cfg env 1 (McpServer.init_loop cfg) = Some s
       ∧ McpServer.results s = []
       ∧ McpServer.trace (McpServer.st s) = []
       ∧ McpServer.crawl cfg env 1 = Some [].
Proof.
  intros Hcfg.
  assert (Hstep : McpServer.step cfg env (McpServer.init_loop cfg) = None
                  ∨ McpServer.step cfg env (McpServer.init_loop cfg)
                    = Some {| McpServer.queue := []; McpServer.results := [];
                              McpServer.st := McpServer.init_state;
                              McpServer.popped := [(McpServer.start_url cfg, 0)] |}).
  { unfold McpServer.step. cbn [McpServer.init_loop McpServer.queue McpServer.st
                                 McpServer.results McpServer.popped app].
    change (size (McpServer.visited_urls McpServer.init_state))
      with (size (∅ : gset string)).
    rewrite size_empty.
    destruct (Z.ltb_spec (Z.of_nat 0) (McpServer.max_pages cfg)) as [Hpages|];
      [|now left].
    right. cbn [negb].
    destruct (Z.gtb_spec 0 (McpServer.max_depth cfg)) as [|Hdepth]; [reflexivity|].
    rewrite bool_decide_eq_false_2 by apply not_elem_of_empty.
    cbn [orb]. rewrite is_allowed_by_robots_true. cbn [negb].
    unfold McpServer._process_url.
    replace (Z.to_nat (McpServer.retry_attempts cfg)) with 0%nat by lia.
    reflexivity. }
  unfold McpServer.crawl, McpServer.run.
  destruct Hstep as [-> | ->]; eexists; repeat split.
Qed.

(** The example documentation site with no attempt allowed. *)
Lemma nothing_allowed_nothing_crawled_witness :
  ∃ s, McpServer.run
         {| McpServer.start_url := "http://site.test/docs/"; McpServer.max_depth := 2;
            McpServer.max_pages := 10; McpServer.content_types := ["documentation"];
            McpServer.respect_robots := true; McpServer.retry_attempts := 0;
            McpServer.retry_delay := 1%float; McpServer.download_assets := true;
            McpServer.asset_types := [".png"]; McpServer.max_asset_size := 1000 |}
         (Examples.browse Examples.docs_site) 1
         (McpServer.init_loop
            {| McpServer.start_url := "http://site.test/docs/"; McpServer.max_depth := 2;
               McpServer.max_pages := 10; McpServer.content_types := ["documentation"];
               McpServer.respect_robots := true; McpServer.retry_attempts := 0;
               McpServer.retry_delay := 1%float; McpServer.download_assets := true;
               McpServer.asset_types := [".png"]; McpServer.max_asset_size := 1000 |})
       = Some s
       ∧ McpServer.results s = []
       ∧ McpServer.trace (McpServer.st s) = []
       ∧ McpServer.crawl
           {| McpServer.start_url := "http://site.test/docs/"; McpServer.max_depth := 2;
              McpServer.max_pages := 10; McpServer.content_types := ["documentation"];
              McpServer.respect_robots := true; McpServer.retry_attempts := 0;
              McpServer.retry_delay := 1%float; McpServer.download_assets := true;
              McpServer.asset_types := [".png"]; McpServer.max_asset_size := 1000 |}
           (Examples.browse Examples.docs_site) 1 = Some [].
Proof.
  apply nothing_allowed_nothing_crawled. left. simpl. lia.
Defined.

(** ** The recursive crawler: limits and what is yielded *)

Section WebcrawlerYields.
Context `{PyLib} (cfg : Webcrawler.CrawlerConfig) (web : Webcrawler.Web).

Lemma crawl_links_yields (P : Webcrawler.Yield → Prop)
    (rec : string → Webcrawler.State → option Webcrawler.Result) :
  (∀ link s s' ys o, rec link s = Some (s', ys, o) → Forall P ys) →
  ∀ links st out st' ys o,
    Webcrawler.crawl_links cfg rec links st out = Some (st', ys, o) →
    Forall P out → Forall P ys.
Proof.
  intros Hrec links. induction links as [|link rest IH]; intros st out st' ys o; simpl.
  - now intros [= <- <- <-].
  - destruct (_ >=? _); [now intros [= <- <- <-]|].
    destruct (rec link st) as [[[s1 ys1] o1]|] eqn:Erec; [|discriminate].
    apply Hrec in Erec. destruct o1.
    + intros Hloop Hout. apply IH in Hloop; [assumption|]. now apply Forall_app.
    + intros [= <- <- <-] Hout. now apply Forall_app.
Qed.

Lemma crawl_page_yields (fuel : nat) :
  ∀ url depth st st' ys o,
    Webcrawler.crawl_page fuel cfg web url depth st = Some (st', ys, o) →
    Forall (yielded cfg web) ys.
Proof.
  induction fuel as [|fuel IH]; intros url depth st st' ys o; simpl; [discriminate|].
  destruct (depth >? Webcrawler.max_depth cfg); [intros [= <- <- <-]; constructor|].
  case_bool_decide; [intros [= <- <- <-]; constructor|].
  destruct (Webcrawler.robots_gate cfg web url _) as [st1 [[|]|]];
    try (intros [= <- <- <-]; constructor).
  destruct (web (length (Webcrawler.requests st1)) url) as [r|] eqn:Hweb;
    [|intros [= <- <- <-]; constructor].
  destruct (Z.eqb_spec (Webcrawler.status r) 200) as [Hok|]; simpl;
    [|intros [= <- <- <-]; constructor].
  intros Hloop. apply (crawl_links_yields (yielded cfg web)) in Hloop; [assumption| |].
  - intros link s s' ys0 o0. apply IH.
  - constructor; [|constructor]. exists (length (Webcrawler.requests st1)), r.
    simpl. auto.
Qed.

End WebcrawlerYields.

(** X21. Every item that the recursive crawler yields comes from a
    response with status 200 to a request for its URL: its content is
    the body of that response, and its links are the anchors of the
    response that normalise, each on an allowed domain. *)
Theorem yields_are_successful_responses `{PyLib}
    (cfg : Webcrawler.CrawlerConfig) (web : Webcrawler.Web)
    (st : Webcrawler.State) (ys : list Webcrawler.Yield) (o : Webcrawler.Outcome)
    (y : Webcrawler.Yield) :
  Webcrawler.crawl cfg web = Some (st, ys, o) →
  y ∈ ys →
  yielded cfg web y
  ∧ Webcrawler.y_url y ∈ Webcrawler.page_fetches st
  ∧ Forall (on_allowed_domain cfg) (Webcrawler.y_links y).
Proof.
  intros Hrun Hy.
  pose proof (crawl_page_yields cfg web _ _ _ _ _ _ _ Hrun) as Hall.
  pose proof (crawl_page_run_post cfg web _ _ _ _ _ _ _ Hrun)
    as (_ & new & Hreq & Hsub & _).
  eapply Forall_forall in Hall; [|exact Hy].
  split; [exact Hall|]. split.
  - unfold Webcrawler.page_fetches. rewrite Hreq. simpl.
    eapply elem_of_sublist; [|exact Hsub].
    apply list_elem_of_In, in_map, list_elem_of_In, Hy.
  - destruct Hall as (t & r & _ & _ & _ & ->). apply extract_links_on_domain.
Qed.

(** The start page of the example tree. *)
Lemma yields_are_successful_responses_witness :
  ∃ st ys o y,
    Webcrawler.crawl (Examples.web_cfg 2 10 false) (Examples.serve Examples.tree_site)
    = Some (st, ys, o)
    ∧ y ∈ ys
    ∧ Webcrawler.y_url y = "http://site.test/"
    ∧ yielded (Examples.web_cfg 2 10 false) (Examples.serve Examples.tree_site) y
    ∧ Webcrawler.y_url y ∈ Webcrawler.page_fetches st
    ∧ Forall (on_allowed_domain (Examples.web_cfg 2 10 false)) (Webcrawler.y_links y).
Proof.
  assert (Hrun : ∃ st ys o y,
             Webcrawler.crawl (Examples.web_cfg 2 10 false)
               (Examples.serve Examples.tree_site) = Some (st, ys, o)
             ∧ y ∈ ys ∧ Webcrawler.y_url y = "http://site.test/").
  { do 4 eexists. split; [vm_compute; reflexivity|]. split; [now left | reflexivity]. }
  destruct Hrun as (st & ys & o & y & Hrun & Hy & Hurl).
  exists st, ys, o, y. split; [exact Hrun|]. split; [exact Hy|]. split; [exact Hurl|].
  exact (yields_are_successful_responses _ _ st ys o y Hrun Hy).
Defined.

(** X22. With a negative depth limit the recursive crawler requests and
    yields nothing. *)
Theorem negative_depth_limit_crawls_nothing `{PyLib}
    (cfg : Webcrawler.CrawlerConfig) (web : Webcrawler.Web) :
  Webcrawler.max_depth cfg < 0 →
  Webcrawler.crawl cfg web = Some (Webcrawler.init_state, [], Webcrawler.Returned).
Proof.
  intros Hdepth. unfold Webcrawler.crawl, Webcrawler.fuel_for. cbn [Webcrawler.crawl_page].
  destruct (Z.gtb_spec 0 (Webcrawler.max_depth cfg)); [reflexivity | lia].
Qed.

(** The example tree with a depth limit of minus one. *)
Lemma negative_depth_limit_crawls_nothing_witness :
  Webcrawler.crawl (Examples.web_cfg (-1) 10 false) (Examples.serve Examples.tree_site)
  = Some (Webcrawler.init_state, [], Webcrawler.Returned).
Proof.
  apply negative_depth_limit_crawls_nothing. simpl. lia.
Defined.

(** X23. The page budget of the recursive crawler is checked before a
    link is followed, never for the start page: with a budget of at most
    one page and a depth limit of at least zero, no link is followed and
    at most the start page is requested and yielded; it is requested
    when robots.txt is not respected. *)
Theorem page_budget_does_not_cover_the_start_page `{PyLib}
    (cfg : Webcrawler.CrawlerConfig) (web : Webcrawler.Web) :
  0 ≤ Webcrawler.max_depth cfg →
  Webcrawler.max_pages cfg ≤ 1 →
  ∃ st ys o,
    Webcrawler.crawl cfg web = Some (st, ys, o)
    ∧ Webcrawler.page_fetches st `sublist_of` [Webcrawler.start_url cfg]
    ∧ map Webcrawler.y_url ys `sublist_of` [Webcrawler.start_url cfg]
    ∧ (Webcrawler.respect_robots_txt cfg = false →
       Webcrawler.page_fetches st = [Webcrawler.start_url cfg]).
Proof.
  intros Hdepth Hpages. unfold Webcrawler.crawl, Webcrawler.fuel_for.
  cbn [Webcrawler.crawl_page].
  destruct (Z.gtb_spec 0 (Webcrawler.max_depth cfg)); [lia|].
  rewrite bool_decide_eq_false_2 by apply not_elem_of_empty.
  set (url := Webcrawler.start_url cfg).
  set (st0 := {| Webcrawler.visited_urls := {[url]} ∪ Webcrawler.visited_urls Webcrawler.init_state;
                 Webcrawler.robots_cache := Webcrawler.robots_cache Webcrawler.init_state;
                 Webcrawler.requests := Webcrawler.requests Webcrawler.init_state |}).
  destruct (Webcrawler.robots_gate cfg web url st0) as [st1 gate] eqn:Egate.
  assert (Hoff : Webcrawler.respect_robots_txt cfg = false → gate = Some true).
  { intros Hno. unfold Webcrawler.robots_gate in Egate. rewrite Hno in Egate.
    now injection Egate as _ <-. }
  apply robots_gate_state in Egate as (Hv & new & Hreq & Hnew).
  assert (Hnone : Webcrawler.page_fetches st1 = []).
  { unfold Webcrawler.page_fetches, Webcrawler.pages_of in *.
    rewrite Hreq, omap_app, Hnew. reflexivity. }
  assert (Hskip : [] `sublist_of` [url]) by apply sublist_nil_l.
  destruct gate as [[|]|].
  2,3: (eexists _, _, _; split; [reflexivity|]; rewrite Hnone;
        repeat split; auto; intros Hno; specialize (Hoff Hno); discriminate).
  set (st2 := {| Webcrawler.visited_urls := Webcrawler.visited_urls st1;
                 Webcrawler.robots_cache := Webcrawler.robots_cache st1;
                 Webcrawler.requests :=
                   Webcrawler.requests st1 ++ [Webcrawler.ReqPage url] |}).
  assert (Hone : Webcrawler.page_fetches st2 = [url]).
  { unfold Webcrawler.page_fetches, Webcrawler.pages_of in *. simpl.
    rewrite omap_app, Hnone. reflexivity. }
  assert (Hfull : (Z.of_nat (size (Webcrawler.visited_urls st2))
                   >=? Webcrawler.max_pages cfg) = true).
  { change (Webcrawler.visited_urls st2) with (Webcrawler.visited_urls st1).
    rewrite Hv.
    change (Webcrawler.visited_urls st0) with ({[url]} ∪ (∅ : gset string)).
    rewrite union_empty_r_L, size_singleton. apply Z.geb_le. lia. }
  destruct (web (length (Webcrawler.requests st1)) url) as [r|].
  2:{ eexists _, _, _. split; [reflexivity|]. rewrite Hone. repeat split; auto. }
  destruct (negb (Webcrawler.status r =? 200)).
  { eexists _, _, _. split; [reflexivity|]. rewrite Hone. repeat split; auto. }
  destruct (Webcrawler.extract_links cfg url (Webcrawler.anchors r)) as [|link links];
    cbn [Webcrawler.crawl_links]; fold st2; rewrite ?Hfull;
    (eexists _, _, _; split; [reflexivity|]; rewrite Hone; repeat split; auto).
Qed.

(** The example tree with a budget of zero pages. *)
Lemma page_budget_does_not_cover_the_start_page_witness :
  ∃ st ys o,
    Webcrawler.crawl (Examples.web_cfg 2 0 false) (Examples.serve Examples.tree_site)
    = Some (st, ys, o)
    ∧ Webcrawler.page_fetches st `sublist_of` ["http://site.test/"]
    ∧ map Webcrawler.y_url ys `sublist_of` ["http://site.test/"]
    ∧ (false = false → Webcrawler.page_fetches st = ["http://site.test/"]).
Proof.
  apply (page_budget_does_not_cover_the_start_page (Examples.web_cfg 2 0 false)
           (Examples.serve Examples.tree_site)); simpl; lia.
Defined.

(** ** The recursive crawler: domains, exceptions and robots.txt files
       without agent *)

(** X24. [is_allowed_domain] is a suffix test on the network location of
    the URL: it holds exactly when the network location ends with one of
    [allowed_domains].  A host that only ends with the letters of an
    allowed domain passes; an allowed host followed by a port does
    not. *)
Theorem allowed_domain_is_a_suffix_test `{PyLib}
    (cfg : Webcrawler.CrawlerConfig) (url : string) (parsed : Urllib.ParseResult) :
  urlparse url = Some parsed →
  (Webcrawler.is_allowed_domain cfg url = Some true
   ↔ ∃ d t, In d (Webcrawler.allowed_domains cfg) ∧ Urllib.netloc parsed = t +:+ d)
  ∧ (Webcrawler.is_allowed_domain cfg url = Some false
     ↔ ∀ d t, In d (Webcrawler.allowed_domains cfg) → Urllib.netloc parsed ≠ t +:+ d).
Proof.
  intros Hparse. unfold Webcrawler.is_allowed_domain. rewrite Hparse.
  destruct (existsb _ _) eqn:Hex.
  - apply existsb_exists in Hex as (d & Hd & Hend). apply endswith_spec in Hend as [t Ht].
    split; split; try discriminate; eauto.
    intros Hnone. exfalso. now apply (Hnone d t).
  - split; split; try discriminate; auto.
    + intros (d & t & Hd & Ht). exfalso.
      assert (Htrue : existsb (fun domain => PyStr.endswith (Urllib.netloc parsed) domain)
                        (Webcrawler.allowed_domains cfg) = true).
      { apply existsb_exists. exists d. split; [assumption|].
        apply endswith_spec. eauto. }
      congruence.
    + intros _ d t Hd Ht.
      assert (Htrue : existsb (fun domain => PyStr.endswith (Urllib.netloc parsed) domain)
                        (Webcrawler.allowed_domains cfg) = true).
      { apply existsb_exists. exists d. split; [assumption|].
        apply endswith_spec. eauto. }
      congruence.
Qed.

(** Another site whose name ends with the allowed domain is allowed;
    the allowed site on a port is not. *)
Lemma allowed_domain_is_a_suffix_test_witness :
  Webcrawler.is_allowed_domain (Examples.web_cfg 2 10 false) "http://notsite.test/"
  = Some true
  ∧ Webcrawler.is_allowed_domain (Examples.web_cfg 2 10 false) "http://site.test:8080/"
    = Some false
  ∧ ((Webcrawler.is_allowed_domain (Examples.web_cfg 2 10 false) "http://notsite.test/"
      = Some true
      ↔ ∃ d t, In d ["site.test"] ∧ "notsite.test" = t +:+ d)
     ∧ (Webcrawler.is_allowed_domain (Examples.web_cfg 2 10 false) "http://notsite.test/"
        = Some false
        ↔ ∀ d t, In d ["site.test"] → "notsite.test" ≠ t +:+ d)).
Proof.
  split; [reflexivity|]. split; [reflexivity|].
  exact (allowed_domain_is_a_suffix_test (Examples.web_cfg 2 10 false)
           "http://notsite.test/" _ eq_refl).
Defined.

(** A call of [crawl_page] ends with an exception only when the
    robots.txt check cannot parse its URL, before any request. *)
Lemma crawl_page_raised `{PyLib} (cfg : Webcrawler.CrawlerConfig) (web : Webcrawler.Web)
    (fuel : nat) (url : string) (depth : Z) (st st' : Webcrawler.State)
    (ys : list Webcrawler.Yield) :
  Webcrawler.crawl_page fuel cfg web url depth st = Some (st', ys, Webcrawler.Raised) →
  Webcrawler.respect_robots_txt cfg = true
  ∧ urlparse url = None
  ∧ ys = []
  ∧ Webcrawler.requests st' = Webcrawler.requests st.
Proof.
  destruct fuel as [|fuel]; cbn [Webcrawler.crawl_page]; [discriminate|].
  destruct (depth >? Webcrawler.max_depth cfg); [discriminate|].
  case_bool_decide; [discriminate|].
  assert (Hlinks : ∀ r st2 y,
            Webcrawler.crawl_links cfg
              (fun link s => Webcrawler.crawl_page fuel cfg web link (depth + 1) s)
              (Webcrawler.extract_links cfg url (Webcrawler.anchors r)) st2 [y]
            = Some (st', ys, Webcrawler.Raised) → False).
  { intros r st2 y Hrun. apply crawl_links_returned in Hrun. discriminate. }
  unfold Webcrawler.robots_gate.
  destruct (Webcrawler.respect_robots_txt cfg).
  - destruct (urlparse url) as [parsed|] eqn:Hparse.
    + destruct (Webcrawler.fetch_robots_txt cfg web (Urllib.netloc parsed) _)
        as [rc st1].
      unfold Webcrawler.is_allowed. rewrite Hparse. cbn zeta.
      destruct (existsb _ (Webcrawler.disallowed_paths rc)); [discriminate|].
      assert (Hfetch : match web (length (Webcrawler.requests st1)) url with
                       | Some r =>
                           if negb (Webcrawler.status r =? 200)
                           then Some ({| Webcrawler.visited_urls :=
                                           Webcrawler.visited_urls st1;
                                         Webcrawler.robots_cache :=
                                           Webcrawler.robots_cache st1;
                                         Webcrawler.requests :=
                                           Webcrawler.requests st1
                                           ++ [Webcrawler.ReqPage url] |},
                                      [], Webcrawler.Returned)
                           else Webcrawler.crawl_links cfg
                                  (fun link s =>
                                     Webcrawler.crawl_page fuel cfg web link (depth + 1) s)
                                  (Webcrawler.extract_links cfg url (Webcrawler.anchors r))
                                  {| Webcrawler.visited_urls := Webcrawler.visited_urls st1;
                                     Webcrawler.robots_cache := Webcrawler.robots_cache st1;
                                     Webcrawler.requests :=
                                       Webcrawler.requests st1
                                       ++ [Webcrawler.ReqPage url] |}
                                  [{| Webcrawler.y_url := url;
                                      Webcrawler.y_content := Webcrawler.text r;
                                      Webcrawler.y_links :=
                                        Webcrawler.extract_links cfg url
                                          (Webcrawler.anchors r);
                                      Webcrawler.y_depth := depth |}]
                       | None =>
                           Some ({| Webcrawler.visited_urls := Webcrawler.visited_urls st1;
                                    Webcrawler.robots_cache := Webcrawler.robots_cache st1;
                                    Webcrawler.requests :=
                                      Webcrawler.requests st1 ++ [Webcrawler.ReqPage url] |},
                                 [], Webcrawler.Returned)
                       end = Some (st', ys, Webcrawler.Raised) → False).
      { destruct (web _ url) as [r|]; [|discriminate].
        destruct (negb _); [discriminate|]. apply Hlinks. }
      destruct (Webcrawler.allowed_paths rc) as [|a l].
      * intros Hrun. exfalso. exact (Hfetch Hrun).
      * destruct (existsb _ (a :: l)); [|discriminate].
        intros Hrun. exfalso. exact (Hfetch Hrun).
    + intros [= <- <-]. auto.
  - intros Hrun. exfalso.
    destruct (web _ url) as [r|]; [|discriminate].
    destruct (negb _); [discriminate|]. exact (Hlinks _ _ _ Hrun).
Qed.

(** X25. A run of the recursive crawler ends with an exception in one
    case only: robots.txt is respected and [urlparse] raises on the
    start URL; nothing is then requested or yielded.  An exception
    raised below a link is caught by the page that follows the link. *)
Theorem crawl_raises_only_for_the_start_url `{PyLib}
    (cfg : Webcrawler.CrawlerConfig) (web : Webcrawler.Web) :
  0 ≤ Webcrawler.max_depth cfg →
  ((∃ st ys, Webcrawler.crawl cfg web = Some (st, ys, Webcrawler.Raised))
   ↔ Webcrawler.respect_robots_txt cfg = true
     ∧ urlparse (Webcrawler.start_url cfg) = None)
  ∧ (∀ st ys, Webcrawler.crawl cfg web = Some (st, ys, Webcrawler.Raised) →
              ys = [] ∧ Webcrawler.requests st = []).
Proof.
  intros Hdepth. split; [split|].
  - intros (st & ys & Hrun). apply crawl_page_raised in Hrun. tauto.
  - intros [Hrespect Hparse]. unfold Webcrawler.crawl, Webcrawler.fuel_for.
    cbn [Webcrawler.crawl_page].
    destruct (Z.gtb_spec 0 (Webcrawler.max_depth cfg)); [lia|].
    rewrite bool_decide_eq_false_2 by apply not_elem_of_empty.
    unfold Webcrawler.robots_gate. rewrite Hrespect, Hparse. eauto.
  - intros st ys Hrun. apply crawl_page_raised in Hrun as (_ & _ & -> & ->).
    split; reflexivity.
Qed.

(** A start URL with an unclosed bracket in its host, on which
    [urlparse] raises. *)
Lemma crawl_raises_only_for_the_start_url_witness :
  ((∃ st ys,
      Webcrawler.crawl
        {| Webcrawler.start_url := "http://[::1/"; Webcrawler.max_depth := 2;
           Webcrawler.max_pages := 10; Webcrawler.allowed_domains := ["site.test"];
           Webcrawler.respect_robots_txt := true; Webcrawler.user_agent := "*" |}
        (Examples.serve Examples.tree_site) = Some (st, ys, Webcrawler.Raised))
   ↔ true = true ∧ urlparse "http://[::1/" = None)
  ∧ (∀ st ys,
       Webcrawler.crawl
         {| Webcrawler.start_url := "http://[::1/"; Webcrawler.max_depth := 2;
            Webcrawler.max_pages := 10; Webcrawler.allowed_domains := ["site.test"];
            Webcrawler.respect_robots_txt := true; Webcrawler.user_agent := "*" |}
         (Examples.serve Examples.tree_site) = Some (st, ys, Webcrawler.Raised) →
       ys = [] ∧ Webcrawler.requests st = []).
Proof.
  apply (crawl_raises_only_for_the_start_url
           {| Webcrawler.start_url := "http://[::1/"; Webcrawler.max_depth := 2;
              Webcrawler.max_pages := 10; Webcrawler.allowed_domains := ["site.test"];
              Webcrawler.respect_robots_txt := true; Webcrawler.user_agent := "*" |}
           (Examples.serve Examples.tree_site)).
  simpl. lia.
Defined.

(** X26. A robots.txt without a User-agent line registers no rule: the
    lines before the first User-agent line belong to no agent. *)
Theorem robots_txt_without_agent_line_is_open `{PyLib}
    (cfg : Webcrawler.CrawlerConfig) (r : Webcrawler.Response) :
  (∀ raw, raw ∈ PyStr.split "010" (Webcrawler.text r) →
          PyStr.startswith (PyStr.lower (PyStr.strip raw)) "user-agent:" = false) →
  Webcrawler.robots_rules cfg (Some r)
  = {| Webcrawler.allowed_paths := []; Webcrawler.disallowed_paths := [];
       Webcrawler.crawl_delay := None |}.
Proof.
  intros Hlines. unfold Webcrawler.robots_rules.
  destruct (Webcrawler.status r =? 200); [|reflexivity].
  set (start := {| Webcrawler.current_agent := None; Webcrawler.acc_allowed := [];
                   Webcrawler.acc_disallowed := []; Webcrawler.acc_delay := None |}).
  assert (Hfold : ∀ lines,
            (∀ raw, raw ∈ lines →
                    PyStr.startswith (PyStr.lower (PyStr.strip raw)) "user-agent:" = false) →
            fold_left (Webcrawler.robots_line cfg) lines start = start).
  { induction lines as [|raw lines IH]; intros Hall; [reflexivity|].
    cbn [fold_left].
    assert (Hline : Webcrawler.robots_line cfg start raw = start).
    { unfold Webcrawler.robots_line. rewrite (Hall raw) by now left.
      destruct (negb _ || _); reflexivity. }
    rewrite Hline. apply IH. intros raw' Hin. apply Hall. now right. }
  now rewrite (Hfold _ Hlines).
Qed.

(** Rules without any agent. *)
Lemma robots_txt_without_agent_line_is_open_witness :
  Webcrawler.robots_rules (Examples.web_cfg 2 10 true)
    (Some (Examples.plain 200 ("Disallow: /private/" +:+ String "010" "Allow: /")))
  = {| Webcrawler.allowed_paths := []; Webcrawler.disallowed_paths := [];
       Webcrawler.crawl_delay := None |}.
Proof.
  apply robots_txt_without_agent_line_is_open.
  intros raw Hraw. vm_compute in Hraw.
  apply elem_of_cons in Hraw as [->|Hraw]; [reflexivity|].
  apply list_elem_of_singleton in Hraw as ->. reflexivity.
Defined.
